(** * FlowFusion bridge orchestrator: TWAP engine, order store, event
      handlers and the on-chain bridge contract

    A shallow embedding of
    - [package database]: the models and the PostgreSQL store,
    - [package twap]: the TWAP engine,
    - [package orchestrator]: the event handlers and the timeout monitor,
    - [contract FlowFusionBridge]: interval execution and HTLC claim,
    - [package adapters]: the mock adapter and the adapter manager,
    followed by the properties of the specification checked against it
    and by further properties of the code. *)

From Stdlib Require Import ZArith List Lia Bool HexadecimalString.
From Stdlib Require Import Sorted Permutation.
From stdpp Require Import base option list strings gmap.

Local Open Scope Z_scope.

(* ===================================================================== *)
(** ** Fixed-point decimals

    [github.com/shopspring/decimal] is a dependency of the orchestrator,
    not part of it.  A decimal is [value * 10 ^ exp]; the operations
    below follow the library: addition and comparison rescale both
    operands to the smaller exponent, multiplication adds exponents,
    [Div] is [DivRound] at [DivisionPrecision = 16] fractional digits,
    rounding half away from zero; [Float64] is the nearest [float64].
    Exponents are [int32] in the library; the overflow panics of [Mul]
    and [QuoRem] are out of reach for the amounts and prices handled
    here and are not modelled. *)

Module Decimal.

Record Decimal : Type := New { value : Z; exp : Z }.

(** [decimal.Zero = New(0, 1)]; an uninitialised [Decimal{}] is
    [New 0 0]. *)
Definition Zero : Decimal := New 0 1.
Definition Uninit : Decimal := New 0 0.
Definition NewFromInt (v : Z) : Decimal := New v 0.

Definition DivisionPrecision : Z := 16.

Definition rescale (d : Decimal) (e : Z) : Decimal :=
  if exp d =? e then d
  else if exp d <? e
       then New (Z.quot (value d) (10 ^ (e - exp d))) e
       else New (value d * 10 ^ (exp d - e)) e.

Definition RescalePair (d1 d2 : Decimal) : Decimal * Decimal :=
  let base := Z.min (exp d1) (exp d2) in
  (rescale d1 base, rescale d2 base).

Definition Add (d d2 : Decimal) : Decimal :=
  let '(rd, rd2) := RescalePair d d2 in
  New (value rd + value rd2) (exp rd).

Definition Sub (d d2 : Decimal) : Decimal :=
  let '(rd, rd2) := RescalePair d d2 in
  New (value rd - value rd2) (exp rd).

Definition Mul (d d2 : Decimal) : Decimal :=
  New (value d * value d2) (exp d + exp d2).

Definition Abs (d : Decimal) : Decimal := New (Z.abs (value d)) (exp d).

Definition Sign (d : Decimal) : Z := Z.sgn (value d).
Definition IsZero (d : Decimal) : bool := value d =? 0.
Definition IsNegative (d : Decimal) : bool := value d <? 0.

Definition Cmp (d d2 : Decimal) : comparison :=
  let '(rd, rd2) := RescalePair d d2 in
  value rd ?= value rd2.

Definition Equal (d d2 : Decimal) : bool :=
  match Cmp d d2 with Eq => true | _ => false end.
Definition LessThan (d d2 : Decimal) : bool :=
  match Cmp d d2 with Lt => true | _ => false end.
Definition GreaterThan (d d2 : Decimal) : bool :=
  match Cmp d d2 with Gt => true | _ => false end.
Definition GreaterThanOrEqual (d d2 : Decimal) : bool :=
  match Cmp d d2 with Lt => false | _ => true end.

(** [QuoRem]: quotient with [precision] fractional digits, truncated
    toward zero, and the remainder; [None] is the library's panic on a
    zero divisor. *)
Definition QuoRem (d d2 : Decimal) (precision : Z)
  : option (Decimal * Decimal) :=
  if value d2 =? 0 then None
  else
    let scale := - precision in
    let e := exp d - exp d2 - scale in
    let '(aa, bb, scalerest) :=
      if e <? 0
      then (value d, value d2 * 10 ^ (- e), exp d)
      else (value d * 10 ^ e, value d2, scale + exp d2) in
    Some (New (Z.quot aa bb) scale, New (Z.rem aa bb) scalerest).

Definition DivRound (d d2 : Decimal) (precision : Z) : option Decimal :=
  match QuoRem d d2 precision with
  | None => None
  | Some (q, r) =>
      let r2 := New (Z.abs (value r) * 2) (exp r + precision) in
      match Cmp r2 (Abs d2) with
      | Lt => Some q
      | _ =>
          if Z.sgn (value d) * Z.sgn (value d2) <? 0
          then Some (Sub q (New 1 (- precision)))
          else Some (Add q (New 1 (- precision)))
      end
  end.

Definition Div (d d2 : Decimal) : option Decimal :=
  DivRound d d2 DivisionPrecision.

(* ------------------------------------------------------------------- *)
(** *** Conversion to [float64] and to [int]

    A finite [float64] is [m * 2 ^ e] with [|m| <= 2 ^ 53] and
    [-1074 <= e]. *)

Inductive float64 : Type :=
| F64 (m e : Z)
| F64inf (negative : bool).

(** [a / b] rounded to the nearest integer, ties to the even one, for
    [0 <= a] and [0 < b]. *)
Definition roundHalfEven (a b : Z) : Z :=
  let q := a / b in
  match 2 * (a mod b) ?= b with
  | Lt => q
  | Gt => q + 1
  | Eq => if Z.even q then q else q + 1
  end.

(** The exponent [k] of the leading bit of [a / b]:
    [2 ^ k <= a / b < 2 ^ (k + 1)], for [0 < a] and [0 < b]. *)
Definition binade (a b : Z) : Z :=
  let k := Z.log2 a - Z.log2 b in
  if a * 2 ^ Z.max 0 (- k) <? b * 2 ^ Z.max 0 k then k - 1 else k.

(** The [float64] nearest to [a / b], for [0 < a] and [0 < b]: 53
    significant bits, fewer below [2 ^ -1022], ties to even, infinity
    from [2 ^ 1024] on. *)
Definition nearest (a b : Z) : float64 :=
  let e := Z.max (binade a b - 52) (- 1074) in
  let m := roundHalfEven (a * 2 ^ Z.max 0 (- e)) (b * 2 ^ Z.max 0 e) in
  if (971 <? e) || ((e =? 971) && (2 ^ 53 <=? m))
  then F64inf false
  else F64 m e.

(** [Rat]: the decimal as a fraction. *)
Definition Rat (d : Decimal) : Z * Z :=
  if exp d <=? 0 then (value d, 10 ^ (- exp d))
  else (value d * 10 ^ exp d, 1).

(** [Float64] is [d.Rat().Float64()], the nearest [float64]. *)
Definition Float64 (d : Decimal) : float64 :=
  let '(a, b) := Rat d in
  if a =? 0 then F64 0 0
  else match nearest (Z.abs a) b with
       | F64 m e => F64 (Z.sgn a * m) e
       | F64inf _ => F64inf (a <? 0)
       end.

(** Go's conversion [int(f)] of a [float64] to the 64-bit [int]: the
    fraction is discarded.  For a value outside the range of [int] the
    language leaves the result to the implementation; on amd64 it is
    the smallest [int]. *)
Definition MinInt64 : Z := - 2 ^ 63.

Definition int_of_float64 (f : float64) : Z :=
  match f with
  | F64inf _ => MinInt64
  | F64 m e =>
      let t := if 0 <=? e then m * 2 ^ e else Z.quot m (2 ^ (- e)) in
      if (MinInt64 <=? t) && (t <? 2 ^ 63) then t else MinInt64
  end.

End Decimal.

(* ===================================================================== *)
(** ** [package database]: models and the PostgreSQL store *)

Module Database.
Import Decimal.

(** A [time.Time] is an instant in nanoseconds since the Unix epoch, a
    [time.Duration] a number of nanoseconds. *)
Definition Time : Type := Z.
Definition Duration : Type := Z.
Definition Second : Duration := 1000000000.
Definition Minute : Duration := 60 * Second.
Definition Hour : Duration := 60 * Minute.
Definition Unix (t : Time) : Z := t / Second.

(** A [time.Duration] is an [int64]: a product of durations wraps
    around. *)
Definition wrapDuration (d : Z) : Duration :=
  (d + 2 ^ 63) mod 2 ^ 64 - 2 ^ 63.
Definition After (t u : Time) : bool := u <? t.
Definition Before (t u : Time) : bool := t <? u.

(** [type OrderStatus string] and its constants. *)
Definition OrderStatusPending : string := "pending".
Definition OrderStatusExecuting : string := "executing".
Definition OrderStatusPartiallyFilled : string := "partially_filled".
Definition OrderStatusCompleted : string := "completed".
Definition OrderStatusCancelled : string := "cancelled".
Definition OrderStatusExpired : string := "expired".
Definition OrderStatusRefunded : string := "refunded".
Definition OrderStatusClaimed : string := "claimed".

(** [type Order struct]; the fields no modelled function reads
    ([TargetRecipient], [MinReceived], [EnableMEVProtection],
    [Metadata]) are left out. *)
Record Order : Type := mkOrder {
  ID : string;
  UserAddress : string;
  SourceChain : string;
  TargetChain : string;
  SourceToken : string;
  SourceAmount : Decimal;
  TargetToken : string;
  WindowMinutes : Z;
  ExecutionIntervals : Z;
  MaxSlippage : Z;
  MinFillSize : Decimal;
  HTLCHash : string;
  TimeoutHeight : Z;
  TimeoutTimestamp : Z;
  CreatedAt : Time;
  UpdatedAt : Time;
  ExecutedAmount : Decimal;
  LastExecution : option Time;
  Status : string;
  AveragePrice : Decimal
}.

(** Assignment to the mutable fields of an order. *)
Definition with_tail (o : Order) (upd : Time) (ex : Decimal)
    (le : option Time) (st : string) (avg : Decimal) : Order :=
  mkOrder (ID o) (UserAddress o) (SourceChain o) (TargetChain o)
          (SourceToken o) (SourceAmount o) (TargetToken o)
          (WindowMinutes o) (ExecutionIntervals o) (MaxSlippage o)
          (MinFillSize o) (HTLCHash o) (TimeoutHeight o)
          (TimeoutTimestamp o) (CreatedAt o) upd ex le st avg.

Definition set_ExecutedAmount (o : Order) (ex : Decimal) : Order :=
  with_tail o (UpdatedAt o) ex (LastExecution o) (Status o) (AveragePrice o).
Definition set_LastExecution (o : Order) (le : option Time) : Order :=
  with_tail o (UpdatedAt o) (ExecutedAmount o) le (Status o) (AveragePrice o).
Definition set_Status (o : Order) (st : string) : Order :=
  with_tail o (UpdatedAt o) (ExecutedAmount o) (LastExecution o) st
            (AveragePrice o).
Definition set_AveragePrice (o : Order) (avg : Decimal) : Order :=
  with_tail o (UpdatedAt o) (ExecutedAmount o) (LastExecution o) (Status o)
            avg.
Definition set_UpdatedAt (o : Order) (upd : Time) : Order :=
  with_tail o upd (ExecutedAmount o) (LastExecution o) (Status o)
            (AveragePrice o).

(** [type ExecutionRecord struct] (the serial [ID] is assigned by the
    table and read by nobody). *)
Record ExecutionRecord : Type := mkExecutionRecord {
  OrderID : string;
  IntervalNumber : Z;
  Timestamp : Time;
  Amount : Decimal;
  Price : Decimal;
  GasUsed : option Z;
  Slippage : option Z;
  TxHash : option string;
  ChainID : string
}.

(** [type HTLC struct] as inserted by [CreateHTLC] ([claimed_at] and
    [secret] stay null). *)
Record HTLC : Type := mkHTLC {
  htlc_Address : string;
  htlc_OrderID : string;
  htlc_HashedSecret : string;
  htlc_Amount : Decimal;
  htlc_Token : string;
  htlc_Sender : string;
  htlc_Receiver : string;
  htlc_TimeoutHeight : Z;
  htlc_TimeoutTimestamp : Z;
  htlc_Status : string;
  htlc_CreatedAt : Time;
  htlc_ChainID : string
}.

Inductive DBError : Type :=
| ErrOrderNotFound
| ErrDriver.   (* any error reported by the SQL driver *)

(* ------------------------------------------------------------------- *)
(** *** Methods of [*Order] *)

(** [IsExpired], [IsTimedOut]. *)
Definition IsExpired (o : Order) (currentHeight : Z) : bool :=
  TimeoutHeight o <=? currentHeight.
Definition IsTimedOut (now : Time) (o : Order) : bool :=
  TimeoutTimestamp o <=? Unix now.

(** [GetNextExecutionTime]: [time.Duration(W/K) * time.Minute] after
    the last execution; [W/K] is Go's integer division, truncating
    toward zero, and panics ([None]) when [K = 0]; the product is an
    [int64] and wraps around once [|W/K|] exceeds 153722867. *)
Definition GetNextExecutionTime (o : Order) : option Time :=
  match LastExecution o with
  | None => Some (CreatedAt o)
  | Some last =>
      if ExecutionIntervals o =? 0 then None
      else
        let intervalDuration :=
          wrapDuration
            (Z.quot (WindowMinutes o) (ExecutionIntervals o) * Minute) in
        Some (last + intervalDuration)
  end.

(** [CanExecuteInterval]: [now.After(next) || now.Equal(next)]. *)
Definition CanExecuteInterval (now : Time) (o : Order) : option bool :=
  match GetNextExecutionTime o with
  | None => None
  | Some nextExecution =>
      Some (After now nextExecution || (now =? nextExecution))
  end.

Definition GetRemainingAmount (o : Order) : Decimal :=
  Sub (SourceAmount o) (ExecutedAmount o).

Definition GetExecutedIntervals (o : Order)
    (executionHistory : list ExecutionRecord) : Z :=
  Z.of_nat (length executionHistory).

Definition GetRemainingIntervals (o : Order)
    (executionHistory : list ExecutionRecord) : Z :=
  ExecutionIntervals o - GetExecutedIntervals o executionHistory.

(** [UpdateAveragePrice]: the receiver's [ExecutedAmount] is read as
    the amount executed before this fill. *)
Definition UpdateAveragePrice (o : Order)
    (executionAmount executionPrice : Decimal) : Order :=
  if IsZero (ExecutedAmount o) then set_AveragePrice o executionPrice
  else
    let prevValue := Mul (AveragePrice o) (ExecutedAmount o) in
    let newValue := Mul executionPrice executionAmount in
    let totalValue := Add prevValue newValue in
    let newTotalAmount := Add (ExecutedAmount o) executionAmount in
    if negb (IsZero newTotalAmount) then
      match Div totalValue newTotalAmount with
      | Some avg => set_AveragePrice o avg
      | None => o   (* not reached: the divisor is not zero *)
      end
    else o.

(* ------------------------------------------------------------------- *)
(** *** The store

    The tables are lists of rows in insertion order.  Each method runs
    one SQL statement; [fault = true] stands for a driver error, which
    leaves the tables as they were. *)

Record DB : Type := mkDB {
  orders : list Order;
  execution_history : list ExecutionRecord;
  htlcs : list HTLC
}.

Definition GetOrder (db : DB) (fault : bool) (orderID : string)
  : Order + DBError :=
  if fault then inr ErrDriver
  else match List.find (fun o => String.eqb (ID o) orderID) (orders db) with
       | Some o => inl o
       | None => inr ErrOrderNotFound
       end.

(** [UPDATE orders SET executed_amount, last_execution, status,
    average_price, updated_at = NOW() WHERE id = $1]. *)
Definition update_row (now : Time) (order row : Order) : Order :=
  if String.eqb (ID row) (ID order)
  then with_tail row now (ExecutedAmount order) (LastExecution order)
                 (Status order) (AveragePrice order)
  else row.

Definition UpdateOrder (db : DB) (fault : bool) (now : Time) (order : Order)
  : DB * option DBError :=
  if fault then (db, Some ErrDriver)
  else
    let rowsAffected :=
      length (List.filter (fun o => String.eqb (ID o) (ID order))
                          (orders db)) in
    if Nat.eqb rowsAffected 0 then (db, Some ErrOrderNotFound)
    else (mkDB (List.map (update_row now order) (orders db))
               (execution_history db) (htlcs db), None).

Definition CreateExecutionRecord (db : DB) (fault : bool)
    (record : ExecutionRecord) : DB * option DBError :=
  if fault then (db, Some ErrDriver)
  else (mkDB (orders db) (execution_history db ++ [record]) (htlcs db),
        None).

(** [INSERT INTO htlcs]: by the schema, [address] is the primary key (a
    second row with the same address is refused) and [order_id]
    references [orders(id)] (a row for an unknown order is refused). *)
Definition CreateHTLC (db : DB) (fault : bool) (htlc : HTLC)
  : DB * option DBError :=
  if fault then (db, Some ErrDriver)
  else if List.existsb (fun h => String.eqb (htlc_Address h)
                                            (htlc_Address htlc)) (htlcs db)
       then (db, Some ErrDriver)
       else if negb (List.existsb
                       (fun o => String.eqb (ID o) (htlc_OrderID htlc))
                       (orders db))
            then (db, Some ErrDriver)
            else (mkDB (orders db) (execution_history db)
                       (htlcs db ++ [htlc]),
                  None).

(** [ORDER BY ... ASC] as a stable insertion sort on a key. *)
Fixpoint insert_by {A : Type} (key : A -> Z) (x : A) (l : list A) : list A :=
  match l with
  | [] => [x]
  | y :: l' => if key x <? key y then x :: l else y :: insert_by key x l'
  end.

Definition order_by {A : Type} (key : A -> Z) (l : list A) : list A :=
  List.fold_left (fun acc x => insert_by key x acc) l [].

Definition GetExecutionHistory (db : DB) (fault : bool) (orderID : string)
  : list ExecutionRecord + DBError :=
  if fault then inr ErrDriver
  else inl (order_by IntervalNumber
              (List.filter (fun r => String.eqb (OrderID r) orderID)
                           (execution_history db))).

(** The [WHERE] clause of [GetExecutableOrders]:
    [status IN ('pending', 'executing') AND timeout_height > $1 AND
     (last_execution IS NULL OR last_execution + INTERVAL '1 minute' *
      (window_minutes / execution_intervals) <= NOW())];
    integer division truncates, and a zero divisor fails the query
    ([None]); the conjuncts are taken to be evaluated from left to
    right, so that the division is only reached by a pending or
    executing row with a last execution. *)
Definition executable_row (now : Time) (currentHeight : Z) (o : Order)
  : option bool :=
  if negb (String.eqb (Status o) "pending"
           || String.eqb (Status o) "executing")
  then Some false
  else if negb (currentHeight <? TimeoutHeight o) then Some false
  else match LastExecution o with
       | None => Some true
       | Some last =>
           if ExecutionIntervals o =? 0 then None
           else Some (last + Minute * Z.quot (WindowMinutes o)
                                             (ExecutionIntervals o) <=? now)
       end.

(** "Use a mock current block height for now". *)
Definition currentHeight : Z := 1000000.

Fixpoint select_executable (now : Time) (rows : list Order)
  : option (list Order) :=
  match rows with
  | [] => Some []
  | o :: rows' =>
      match executable_row now currentHeight o, select_executable now rows' with
      | Some b, Some l => Some (if b then o :: l else l)
      | _, _ => None
      end
  end.

Definition GetExecutableOrders (db : DB) (fault : bool) (now : Time)
  : list Order + DBError :=
  if fault then inr ErrDriver
  else match select_executable now (orders db) with
       | Some l => inl (order_by CreatedAt l)
       | None => inr ErrDriver
       end.

(* ------------------------------------------------------------------- *)
(** *** Column types

    The tables above keep every value as it is written.  The tables of
    [initSchema] do so for the values that fit the type of their column:
    a [DECIMAL(78, s)] holds 78 digits, [s] of them after the point, and
    rounds a value with more; a [TIMESTAMP WITH TIME ZONE] holds whole
    microseconds; a [VARCHAR(n)] holds [n] characters, an [INTEGER] 32
    bits and a [BIGINT] 64.  A decimal is read back with exactly [s]
    digits after the point, that is, equal in value and not always in
    exponent. *)

Definition fitsDecimal (scale : Z) (d : Decimal) : bool :=
  Equal (rescale d (- scale)) d
  && (Z.abs (value (rescale d (- scale))) <? 10 ^ 78).

(** Whole microseconds, within the years that [UnixNano] covers. *)
Definition fitsTimestamp (t : Time) : bool :=
  (0 <=? t) && (t <? 2 ^ 63) && (t mod 1000 =? 0).

Definition fitsVarchar (n : nat) (s : string) : bool :=
  Nat.leb (String.length s) n.

Definition fitsInteger (bits : Z) (x : Z) : bool :=
  (- 2 ^ (bits - 1) <=? x) && (x <? 2 ^ (bits - 1)).

Definition fitsOptional {A : Type} (fits : A -> bool) (x : option A) : bool :=
  match x with
  | Some a => fits a
  | None => true
  end.

(** The columns [UpdateOrder] writes: [executed_amount DECIMAL(78, 0)],
    [last_execution TIMESTAMP WITH TIME ZONE], [status VARCHAR(20)],
    [average_price DECIMAL(78, 18)]. *)
Definition fitsOrderUpdate (o : Order) : bool :=
  fitsDecimal 0 (ExecutedAmount o)
  && fitsOptional fitsTimestamp (LastExecution o)
  && fitsVarchar 20 (Status o)
  && fitsDecimal 18 (AveragePrice o).

(** The columns of [execution_history]: [order_id VARCHAR(66) REFERENCES
    orders(id)], [interval_number INTEGER], [timestamp], [amount
    DECIMAL(78, 0)], [price DECIMAL(78, 18)], [gas_used BIGINT] (of a
    [uint64]), [slippage INTEGER], [tx_hash VARCHAR(66)], [chain_id
    VARCHAR(20)]. *)
Definition fitsExecutionRecord (db : DB) (r : ExecutionRecord) : bool :=
  List.existsb (fun o => String.eqb (ID o) (OrderID r)) (orders db)
  && fitsVarchar 66 (OrderID r)
  && fitsInteger 32 (IntervalNumber r)
  && fitsTimestamp (Timestamp r)
  && fitsDecimal 0 (Amount r)
  && fitsDecimal 18 (Price r)
  && fitsOptional (fun g => (0 <=? g) && fitsInteger 64 g) (GasUsed r)
  && fitsOptional (fitsInteger 32) (Slippage r)
  && fitsOptional (fitsVarchar 66) (TxHash r)
  && fitsVarchar 20 (ChainID r).

End Database.

(* ===================================================================== *)
(** ** [package twap]: the TWAP engine *)

Module Twap.
Import Decimal.

Definition Time : Type := Database.Time.
Definition Duration : Type := Database.Duration.

(** [int64] counters wrap around. *)
Definition wrap64 (x : Z) : Z := (x + 2 ^ 63) mod 2 ^ 64 - 2 ^ 63.

Record ExecutionRequest : Type := mkExecutionRequest {
  OrderID : string;
  IntervalNumber : Z;
  TargetAmount : Decimal;
  MaxSlippage : Z;
  PriceHint : Decimal
}.

(** The errors [executeInterval] wraps into its response. *)
Inductive ExecError : Type :=
| ErrGetOrder (cause : Database.DBError)             (* "failed to get order" *)
| ErrGetAdapter (chain : string)          (* "failed to get adapter for chain" *)
| ErrSlippageExceeded (slippage maximum : Z)
                                       (* "slippage %d exceeds maximum %d" *)
| ErrSwap.                                        (* "swap execution failed" *)

Record ExecutionResponse : Type := mkExecutionResponse {
  Success : bool;
  ExecutedAmount : Decimal;
  ExecutionPrice : Decimal;
  TxHash : string;
  GasUsed : Z;
  Slippage : Z;
  Error : option ExecError
}.

Definition failure (err : ExecError) : ExecutionResponse :=
  mkExecutionResponse false Uninit Uninit "" 0 0 (Some err).

Record PricePoint : Type := mkPricePoint {
  Timestamp : Time;
  Price : Decimal;
  Volume : Decimal;
  Source : string
}.

(** [type Metrics struct]; [AverageExecutionTime], a floating-point
    moving average of wall-clock durations, is left out. *)
Record Metrics : Type := mkMetrics {
  TotalExecutions : Z;
  SuccessfulExecutions : Z;
  FailedExecutions : Z;
  AverageSlippage : Decimal;
  TotalVolumeExecuted : Decimal;
  LastExecutionTime : Time
}.

(** [type Engine struct]: the store, the chains with a registered
    adapter, the price cache, the execution queue (a channel of capacity
    100) and the metrics. *)
Record Engine : Type := mkEngine {
  db : Database.DB;
  adapters : gset string;
  priceCache : gmap string (list PricePoint);
  maxAge : Duration;
  executionQueue : list ExecutionRequest;
  metrics : Metrics
}.

Definition queueCapacity : nat := 100.

Definition set_db (e : Engine) (d : Database.DB) : Engine :=
  mkEngine d (adapters e) (priceCache e) (maxAge e) (executionQueue e)
           (metrics e).
Definition set_priceCache (e : Engine) (c : gmap string (list PricePoint))
  : Engine :=
  mkEngine (db e) (adapters e) c (maxAge e) (executionQueue e) (metrics e).
Definition set_executionQueue (e : Engine) (q : list ExecutionRequest)
  : Engine :=
  mkEngine (db e) (adapters e) (priceCache e) (maxAge e) q (metrics e).
Definition set_metrics (e : Engine) (m : Metrics) : Engine :=
  mkEngine (db e) (adapters e) (priceCache e) (maxAge e) (executionQueue e) m.

(** What one call observes of the outside world: the clock (all reads of
    [time.Now()] within one call are taken at the same instant) and
    which store statements fail. *)
Record Env : Type := mkEnv {
  now : Time;
  failGetOrder : bool;
  failGetExecutableOrders : bool;
  failGetExecutionHistory : bool;
  failCreateExecutionRecord : bool;
  failUpdateOrder : bool
}.

(* --------------------------------------------------------------------- *)
(** *** Price cache *)

(** [addPricePoint]: append, then keep the points after [now - maxAge]. *)
Definition addPricePoint (now : Time) (e : Engine) (tokenPair : string)
    (point : PricePoint) : Engine :=
  let existing := default [] (priceCache e !! tokenPair) in
  let cutoff := now - maxAge e in
  let filtered :=
    List.filter (fun p => Database.After (Timestamp p) cutoff)
                (existing ++ [point]) in
  set_priceCache e (<[tokenPair := filtered]> (priceCache e)).

(** [getPricePoints]: the cached points strictly after [now - window]. *)
Definition getPricePoints (now : Time) (e : Engine) (tokenPair : string)
    (window : Duration) : list PricePoint :=
  match priceCache e !! tokenPair with
  | None => []
  | Some points =>
      let cutoff := now - window in
      List.filter (fun point => Database.After (Timestamp point) cutoff) points
  end.

Inductive PriceError : Type :=
| ErrNoPriceData          (* "no price data available for %s" *)
| ErrInsufficientData.    (* "insufficient data for TWAP calculation" *)

(** The loop of [calculateTWAP]; [prev] is [pricePoints[i-1]], absent
    for [i = 0].  [int64(duration.Seconds())] is the whole number of
    seconds, truncated toward zero. *)
Fixpoint twap_loop (windowStart : Time) (prev : option PricePoint)
    (points : list PricePoint) (totalValue totalWeight : Decimal)
  : Decimal * Decimal :=
  match points with
  | [] => (totalValue, totalWeight)
  | point :: rest =>
      if Database.Before (Timestamp point) windowStart
      then twap_loop windowStart (Some point) rest totalValue totalWeight
      else
        let weight :=
          match prev with
          | None => NewFromInt 1
          | Some q =>
              NewFromInt (Z.quot (Timestamp point - Timestamp q)
                                 Database.Second)
          end in
        twap_loop windowStart (Some point) rest
                  (Add totalValue (Mul (Price point) weight))
                  (Add totalWeight weight)
  end.

(** [calculateTWAP]: the price and the error, as Go returns them.  The
    points are fetched at [tFetch] and the window start is taken at
    [tWindow], the two clock reads of the function.  The window is the
    exact product [windowMinutes * Minute], which is the [time.Duration]
    of the code for windows of up to 153722867 minutes. *)
Definition calculateTWAP (tFetch tWindow : Time) (e : Engine)
    (tokenPair : string) (windowMinutes : Z) : Decimal * option PriceError :=
  let pricePoints :=
    getPricePoints tFetch e tokenPair (windowMinutes * Database.Minute) in
  match pricePoints with
  | [] => (Zero, Some ErrNoPriceData)
  | [p] => (Price p, None)
  | _ =>
      let windowStart := tWindow - windowMinutes * Database.Minute in
      let '(totalValue, totalWeight) :=
        twap_loop windowStart None pricePoints Uninit Uninit in
      if IsZero totalWeight then (Zero, Some ErrInsufficientData)
      else match Div totalValue totalWeight with
           | Some twap => (twap, None)
           | None => (Zero, Some ErrInsufficientData)   (* not reached *)
           end
  end.

(** [getCurrentPrice]: the last point of the last hour. *)
Definition getCurrentPrice (now : Time) (e : Engine) (tokenPair : string)
  : Decimal * option PriceError :=
  let pricePoints := getPricePoints now e tokenPair Database.Hour in
  match List.last (List.map Some pricePoints) None with
  | None => (Zero, Some ErrNoPriceData)
  | Some p => (Price p, None)
  end.

(** [calculateSlippage]: basis points; the decimal is converted to a
    [float64] and that to an [int]. *)
Definition calculateSlippage (expectedPrice actualPrice : Decimal) : Z :=
  if IsZero expectedPrice then 0
  else
    let diff := Abs (Sub expectedPrice actualPrice) in
    match Div diff expectedPrice with
    | Some ratio =>
        let slippage := Mul ratio (NewFromInt 10000) in
        int_of_float64 (Float64 slippage)
    | None => 0   (* not reached: [expectedPrice] is not zero *)
    end.

(* --------------------------------------------------------------------- *)
(** *** Metrics *)

Definition updateMetricsOnSuccess (now : Time) (m : Metrics) (slippage : Z)
    (volume : Decimal) : Metrics :=
  let total := wrap64 (TotalExecutions m + 1) in
  let slippageDecimal := NewFromInt slippage in
  let avg :=
    if total =? 1 then slippageDecimal
    else Add (Mul (AverageSlippage m) (New 9 (-1)))
             (Mul slippageDecimal (New 1 (-1))) in
  mkMetrics total (wrap64 (SuccessfulExecutions m + 1)) (FailedExecutions m)
            avg (Add (TotalVolumeExecuted m) volume) now.

Definition updateMetricsOnFailure (m : Metrics) : Metrics :=
  mkMetrics (wrap64 (TotalExecutions m + 1)) (SuccessfulExecutions m)
            (wrap64 (FailedExecutions m + 1)) (AverageSlippage m)
            (TotalVolumeExecuted m) (LastExecutionTime m).

(* --------------------------------------------------------------------- *)
(** *** Interval execution *)

(** [executeSwap] (mock implementation): the executed amount is the
    requested amount times [0.99 + 0.02 * (unix % 100) / 100], the price
    is the hint times [0.995 + 0.01 * (unix % 100) / 100]; the error is
    always nil.  The factors are computed in [float64] and converted by
    [decimal.NewFromFloat], which takes the shortest decimal that reads
    back as the same double.  For a clock at or after the epoch, where
    [k = unix % 100] lies between 0 and 99, that decimal is, in IEEE-754
    double arithmetic, [(9900 + 2 k) / 10000] for every [k], and
    [(9950 + k) / 10000] for every [k] but 5, 15, 25, 35 and 45, where
    the sum falls one unit short in the sixteenth digit. *)
Definition swapVariance (now : Time) : Decimal :=
  New (9900 + 2 * Z.rem (Database.Unix now) 100) (-4).
Definition swapPriceVariance (now : Time) : Decimal :=
  let k := Z.rem (Database.Unix now) 100 in
  if (k <? 50) && (Z.rem k 10 =? 5)
  then New (9954999999999999 + 10000000000000 * Z.quot k 10) (-16)
  else New (9950 + k) (-4).

Definition executeSwap (now : Time) (amount priceHint : Decimal)
  : Decimal * Decimal * string * Z :=
  let executedAmount := Mul amount (swapVariance now) in
  let executionPrice := Mul priceHint (swapPriceVariance now) in
  let txHash :=
    String.append "0x" (NilZero.string_of_uint (N.to_hex_uint (Z.to_N now))) in
  let gasUsed := 150000 + Z.rem (Database.Unix now) 50000 in
  (executedAmount, executionPrice, txHash, gasUsed).

(** "Update order state" and "Check if order is complete", in the order
    of the statements of [executeInterval]. *)
Definition updateOrderState (timestamp : Time) (order : Database.Order)
    (executedAmount executionPrice : Decimal) : Database.Order :=
  let order :=
    Database.set_ExecutedAmount order
      (Add (Database.ExecutedAmount order) executedAmount) in
  let order := Database.set_LastExecution order (Some timestamp) in
  let order := Database.UpdateAveragePrice order executedAmount executionPrice in
  let order := Database.set_Status order Database.OrderStatusExecuting in
  if GreaterThanOrEqual (Database.ExecutedAmount order)
                        (Database.SourceAmount order)
  then Database.set_Status order Database.OrderStatusCompleted
  else order.

Definition tokenPairOf (order : Database.Order) : string :=
  String.append (Database.SourceToken order)
                (String.append "_" (Database.TargetToken order)).

(** "Calculate current market price": the current price, or the hint
    when there is none. *)
Definition marketPriceOf (env : Env) (e : Engine) (order : Database.Order)
    (request : ExecutionRequest) : Decimal :=
  match getCurrentPrice (now env) e (tokenPairOf order) with
  | (p, None) => p
  | (_, Some _) => PriceHint request
  end.

(** "Validate slippage": the rejected slippage, if any. *)
Definition slippageRejected (request : ExecutionRequest)
    (marketPrice : Decimal) : option Z :=
  if negb (IsZero (PriceHint request)) then
    let slippage := calculateSlippage (PriceHint request) marketPrice in
    if MaxSlippage request <? slippage then Some slippage else None
  else None.

Definition executeInterval (env : Env) (e : Engine)
    (request : ExecutionRequest) : Engine * ExecutionResponse :=
  match Database.GetOrder (db e) (failGetOrder env) (OrderID request) with
  | inr err => (e, failure (ErrGetOrder err))
  | inl order =>
      if negb (bool_decide (Database.TargetChain order ∈ adapters e))
      then (e, failure (ErrGetAdapter (Database.TargetChain order)))
      else
        let marketPrice := marketPriceOf env e order request in
        match slippageRejected request marketPrice with
        | Some slippage =>
            (e, failure (ErrSlippageExceeded slippage (MaxSlippage request)))
        | None =>
            let '(executedAmount, executionPrice, txHash, gasUsed) :=
              executeSwap (now env) (TargetAmount request) marketPrice in
            let actualSlippage :=
              if negb (IsZero (PriceHint request))
              then calculateSlippage (PriceHint request) executionPrice
              else 0 in
            let executionRecord :=
              Database.mkExecutionRecord
                (OrderID request) (IntervalNumber request) (now env)
                executedAmount executionPrice (Some gasUsed)
                (Some actualSlippage) (Some txHash)
                (Database.TargetChain order) in
            (* an error of either statement is logged and dropped *)
            let '(db1, _) :=
              Database.CreateExecutionRecord
                (db e) (failCreateExecutionRecord env) executionRecord in
            let order :=
              updateOrderState (now env) order executedAmount executionPrice in
            let '(db2, _) :=
              Database.UpdateOrder db1 (failUpdateOrder env) (now env) order in
            let m :=
              updateMetricsOnSuccess (now env) (metrics e) actualSlippage
                                     executedAmount in
            (set_metrics (set_db e db2) m,
             mkExecutionResponse true executedAmount executionPrice txHash
                                 gasUsed actualSlippage None)
        end
  end.

(** One iteration of [executionWorker]: take the next request off the
    queue and execute it. *)
Definition executionWorker (env : Env) (e : Engine) : Engine :=
  match executionQueue e with
  | [] => e
  | request :: rest =>
      fst (executeInterval env (set_executionQueue e rest) request)
  end.

(* --------------------------------------------------------------------- *)
(** *** Scheduling *)

Inductive ProcessError : Type :=
| ErrGetExecutionHistory (cause : Database.DBError)
| ErrUpdateOrder (cause : Database.DBError).

(** The outcome of [processOrder]: the engine and the returned error;
    [None] is a run-time panic (integer division by zero). *)
Definition processOrder (env : Env) (e : Engine) (order : Database.Order)
  : option (Engine * option ProcessError) :=
  match Database.CanExecuteInterval (now env) order with
  | None => None
  | Some false => Some (e, None)
  | Some true =>
      match Database.GetExecutionHistory
              (db e) (failGetExecutionHistory env) (Database.ID order) with
      | inr err => Some (e, Some (ErrGetExecutionHistory err))
      | inl history =>
          if Database.ExecutionIntervals order <=? Z.of_nat (length history)
          then
            let order :=
              Database.set_Status order Database.OrderStatusCompleted in
            let '(db1, err) :=
              Database.UpdateOrder (db e) (failUpdateOrder env) (now env)
                                   order in
            Some (set_db e db1, option_map ErrUpdateOrder err)
          else
            let remainingAmount := Database.GetRemainingAmount order in
            let remainingIntervals :=
              Database.GetRemainingIntervals order history in
            if remainingIntervals <=? 0 then Some (e, None)
            else
              match Div remainingAmount (NewFromInt remainingIntervals) with
              | None => None
              | Some targetAmount =>
                  if LessThan targetAmount (Database.MinFillSize order)
                     && (1 <? remainingIntervals)
                  then Some (e, None)
                  else
                    let twapPrice :=
                      match calculateTWAP (now env) (now env) e
                              (tokenPairOf order)
                              (Database.WindowMinutes order) with
                      | (p, None) => p
                      | (_, Some _) => Zero
                      end in
                    let request :=
                      mkExecutionRequest
                        (Database.ID order) (Z.of_nat (length history))
                        targetAmount (Database.MaxSlippage order) twapPrice in
                    if Nat.ltb (length (executionQueue e)) queueCapacity
                    then Some (set_executionQueue e
                                 (executionQueue e ++ [request]), None)
                    else Some (e, None)   (* queue full: skipped *)
              end
      end
  end.

(** [processExecutableOrders]: every executable order is processed in
    turn; a failure of one is logged and does not stop the others. *)
Fixpoint processOrders (env : Env) (e : Engine) (l : list Database.Order)
  : option Engine :=
  match l with
  | [] => Some e
  | order :: rest =>
      match processOrder env e order with
      | None => None
      | Some (e', _) => processOrders env e' rest
      end
  end.

Definition processExecutableOrders (env : Env) (e : Engine)
  : option (Engine * option Database.DBError) :=
  match Database.GetExecutableOrders (db e) (failGetExecutableOrders env)
                                     (now env) with
  | inr err => Some (e, Some err)
  | inl l =>
      match processOrders env e l with
      | Some e' => Some (e', None)
      | None => None
      end
  end.

(** [ExecuteOrderManually] up to the point where it waits for the
    worker's response: the request it builds and sends to the queue.
    The request has the order's slippage bound and no price hint; [None]
    is a run-time panic (division by zero). *)
Inductive ManualError : Type :=
| ErrManualGetOrder (cause : Database.DBError)    (* "failed to get order" *)
| ErrManualGetExecutionHistory (cause : Database.DBError)
                                      (* "failed to get execution history" *)
| ErrFullyExecuted                        (* "order already fully executed" *)
| ErrQueueFull.                                   (* "execution queue full" *)

Definition ExecuteOrderManually (env : Env) (e : Engine) (orderID : string)
  : option (Engine * (ExecutionRequest + ManualError)) :=
  match Database.GetOrder (db e) (failGetOrder env) orderID with
  | inr err => Some (e, inr (ErrManualGetOrder err))
  | inl order =>
      match Database.GetExecutionHistory
              (db e) (failGetExecutionHistory env) orderID with
      | inr err => Some (e, inr (ErrManualGetExecutionHistory err))
      | inl history =>
          if Database.ExecutionIntervals order <=? Z.of_nat (length history)
          then Some (e, inr ErrFullyExecuted)
          else
            let remainingAmount := Database.GetRemainingAmount order in
            let remainingIntervals :=
              Database.GetRemainingIntervals order history in
            match Div remainingAmount (NewFromInt remainingIntervals) with
            | None => None
            | Some targetAmount =>
                let request :=
                  mkExecutionRequest
                    orderID (Z.of_nat (length history)) targetAmount
                    (Database.MaxSlippage order) Uninit in
                if Nat.ltb (length (executionQueue e)) queueCapacity
                then Some (set_executionQueue e
                             (executionQueue e ++ [request]), inl request)
                else Some (e, inr ErrQueueFull)
            end
      end
  end.

(** The scheduler's test for one stored order: selected by
    [GetExecutableOrders] and passed by [CanExecuteInterval]. *)
Definition isDue (now : Time) (o : Database.Order) : option bool :=
  match Database.executable_row now Database.currentHeight o,
        Database.CanExecuteInterval now o with
  | Some a, Some b => Some (a && b)
  | _, _ => None
  end.

End Twap.

(* ===================================================================== *)
(** ** [package orchestrator]: event handlers and the timeout monitor *)

Module Orchestrator.
Import Decimal.

Definition Time : Type := Database.Time.

(** A value of the untyped event payload [map[string]interface{}]: a
    string, or anything else. *)
Inductive EventValue : Type :=
| VString (s : string)
| VOther.

Record ChainEvent : Type := mkChainEvent {
  ChainID : string;
  EventType : string;
  BlockNumber : Z;
  TxHash : string;
  Timestamp : Time;
  Data : gmap string EventValue;
  LogIndex : Z
}.

Definition EventOrderCreated : string := "order_created".
Definition EventOrderExecuted : string := "order_executed".
Definition EventOrderCompleted : string := "order_completed".
Definition EventOrderCancelled : string := "order_cancelled".
Definition EventHTLCCreated : string := "htlc_created".
Definition EventHTLCClaimed : string := "htlc_claimed".
Definition EventHTLCRefunded : string := "htlc_refunded".
Definition EventPriceUpdate : string := "price_update".
Definition EventBlockCreated : string := "block_created".

(** [type Statistics struct] ([int64] counters; the two string fields
    are never written). *)
Record Statistics : Type := mkStatistics {
  TotalOrders : Z;
  ActiveOrders : Z;
  CompletedOrders : Z;
  FailedOrders : Z;
  CrossChainSwaps : Z;
  SuccessfulSwaps : Z;
  LastProcessedOrder : Time;
  UptimeSeconds : Z
}.

(** The handlers installed by [setupEventHandlers]. *)
Inductive Handler : Type :=
| HandleOrderCreated
| HandleOrderExecuted
| HandleOrderCompleted
| HandleHTLCCreated
| HandleHTLCClaimed
| HandlePriceUpdate.

Record Orchestrator : Type := mkOrchestrator {
  db : Database.DB;
  adapters : gset string;
  eventHandlers : gmap string Handler;
  stats : Statistics
}.

Definition set_db (o : Orchestrator) (d : Database.DB) : Orchestrator :=
  mkOrchestrator d (adapters o) (eventHandlers o) (stats o).
Definition set_stats (o : Orchestrator) (s : Statistics) : Orchestrator :=
  mkOrchestrator (db o) (adapters o) (eventHandlers o) s.

Definition setupEventHandlers : gmap string Handler :=
  <[EventPriceUpdate := HandlePriceUpdate]>
  (<[EventHTLCClaimed := HandleHTLCClaimed]>
  (<[EventHTLCCreated := HandleHTLCCreated]>
  (<[EventOrderCompleted := HandleOrderCompleted]>
  (<[EventOrderExecuted := HandleOrderExecuted]>
  (<[EventOrderCreated := HandleOrderCreated]> ∅))))).

(** What the adapter answers to [GetHTLCStatus]. *)
Record HTLCStatus : Type := mkHTLCStatus {
  hs_Address : string;
  hs_HashedSecret : string;
  hs_Amount : Decimal;
  hs_TokenAddress : string;
  hs_Sender : string;
  hs_Recipient : string;
  hs_TimeoutHeight : Z;
  hs_TimeoutTimestamp : Z;
  hs_Status : string;
  hs_CreatedAt : Time
}.

(** What one call observes of the outside world. *)
Record Env : Type := mkEnv {
  now : Time;
  failGetOrder : bool;
  failUpdateOrder : bool;
  failCreateHTLC : bool;
  failGetExecutableOrders : bool;
  getHTLCStatus : string -> option HTLCStatus
}.

Inductive HandlerError : Type :=
| ErrMissingOrderID                       (* "missing order_id in event data" *)
| ErrGetOrder (cause : Database.DBError)             (* "failed to get order" *)
| ErrUpdateOrder (cause : Database.DBError)       (* "failed to update order" *)
| ErrMissingHTLCAddress               (* "missing htlc_address in event data" *)
| ErrGetAdapter                                  (* "failed to get adapter" *)
| ErrGetHTLCStatus                           (* "failed to get HTLC status" *)
| ErrCreateHTLC (cause : Database.DBError).

Definition wrap64 : Z -> Z := Twap.wrap64.

Definition handleOrderCreated (o : Orchestrator) (event : ChainEvent)
  : Orchestrator * option HandlerError :=
  let s := stats o in
  (set_stats o
     (mkStatistics (wrap64 (TotalOrders s + 1)) (wrap64 (ActiveOrders s + 1))
                   (CompletedOrders s) (FailedOrders s) (CrossChainSwaps s)
                   (SuccessfulSwaps s) (LastProcessedOrder s)
                   (UptimeSeconds s)),
   None).

Definition handleOrderExecuted (env : Env) (o : Orchestrator)
    (event : ChainEvent) : Orchestrator * option HandlerError :=
  match Data event !! "order_id" with
  | Some (VString orderID) =>
      match Database.GetOrder (db o) (failGetOrder env) orderID with
      | inr err => (o, Some (ErrGetOrder err))
      | inl order =>
          let order :=
            Database.set_Status order Database.OrderStatusExecuting in
          let order := Database.set_UpdatedAt order (now env) in
          match Database.UpdateOrder (db o) (failUpdateOrder env) (now env)
                                     order with
          | (_, Some err) => (o, Some (ErrUpdateOrder err))
          | (db1, None) => (set_db o db1, None)
          end
      end
  | _ => (o, Some ErrMissingOrderID)
  end.

Definition handleOrderCompleted (env : Env) (o : Orchestrator)
    (event : ChainEvent) : Orchestrator * option HandlerError :=
  let s := stats o in
  (set_stats o
     (mkStatistics (TotalOrders s) (wrap64 (ActiveOrders s - 1))
                   (wrap64 (CompletedOrders s + 1)) (FailedOrders s)
                   (CrossChainSwaps s) (SuccessfulSwaps s) (now env)
                   (UptimeSeconds s)),
   None).

(** [handleHTLCCreated]; [None] is the panic of [HashedSecret[:8]] on a
    hash shorter than eight bytes. *)
Definition handleHTLCCreated (env : Env) (o : Orchestrator)
    (event : ChainEvent) : option (Orchestrator * option HandlerError) :=
  match Data event !! "htlc_address" with
  | Some (VString htlcAddress) =>
      if negb (bool_decide (ChainID event ∈ adapters o))
      then Some (o, Some ErrGetAdapter)
      else
        match getHTLCStatus env htlcAddress with
        | None => Some (o, Some ErrGetHTLCStatus)
        | Some htlcStatus =>
            if Nat.ltb (String.length (hs_HashedSecret htlcStatus)) 8
            then None
            else
              let htlc :=
                Database.mkHTLC
                  (hs_Address htlcStatus)
                  (String.append "order_"
                     (String.substring 0 8 (hs_HashedSecret htlcStatus)))
                  (hs_HashedSecret htlcStatus) (hs_Amount htlcStatus)
                  (hs_TokenAddress htlcStatus) (hs_Sender htlcStatus)
                  (hs_Recipient htlcStatus) (hs_TimeoutHeight htlcStatus)
                  (hs_TimeoutTimestamp htlcStatus) (hs_Status htlcStatus)
                  (hs_CreatedAt htlcStatus) (ChainID event) in
              match Database.CreateHTLC (db o) (failCreateHTLC env) htlc with
              | (_, Some err) => Some (o, Some (ErrCreateHTLC err))
              | (db1, None) => Some (set_db o db1, None)
              end
        end
  | _ => Some (o, Some ErrMissingHTLCAddress)
  end.

Definition handleHTLCClaimed (o : Orchestrator) (event : ChainEvent)
  : Orchestrator * option HandlerError :=
  let s := stats o in
  (set_stats o
     (mkStatistics (TotalOrders s) (ActiveOrders s) (CompletedOrders s)
                   (FailedOrders s) (CrossChainSwaps s)
                   (wrap64 (SuccessfulSwaps s + 1)) (LastProcessedOrder s)
                   (UptimeSeconds s)),
   None).

Definition handlePriceUpdate (o : Orchestrator) (event : ChainEvent)
  : Orchestrator * option HandlerError :=
  (o, None).

(** [handleEvent]: route by event type; an event type without a handler
    is ignored. *)
Definition handleEvent (env : Env) (o : Orchestrator) (event : ChainEvent)
  : option (Orchestrator * option HandlerError) :=
  match eventHandlers o !! EventType event with
  | None => Some (o, None)
  | Some HandleOrderCreated => Some (handleOrderCreated o event)
  | Some HandleOrderExecuted => Some (handleOrderExecuted env o event)
  | Some HandleOrderCompleted => Some (handleOrderCompleted env o event)
  | Some HandleHTLCCreated => handleHTLCCreated env o event
  | Some HandleHTLCClaimed => Some (handleHTLCClaimed o event)
  | Some HandlePriceUpdate => Some (handlePriceUpdate o event)
  end.

(** The body of the loop of [checkOrderTimeouts] for one order. *)
Definition expireIfTimedOut (env : Env) (o : Orchestrator)
    (order : Database.Order) : Orchestrator :=
  if Database.TimeoutTimestamp order <=? Database.Unix (now env) then
    let order := Database.set_Status order Database.OrderStatusExpired in
    let order := Database.set_UpdatedAt order (now env) in
    (* an error of the update is logged and dropped *)
    let '(db1, _) :=
      Database.UpdateOrder (db o) (failUpdateOrder env) (now env) order in
    let s := stats o in
    mkOrchestrator db1 (adapters o) (eventHandlers o)
      (mkStatistics (TotalOrders s) (wrap64 (ActiveOrders s - 1))
                    (CompletedOrders s) (wrap64 (FailedOrders s + 1))
                    (CrossChainSwaps s) (SuccessfulSwaps s)
                    (LastProcessedOrder s) (UptimeSeconds s))
  else o.

Definition checkOrderTimeouts (env : Env) (o : Orchestrator)
  : Orchestrator * option Database.DBError :=
  match Database.GetExecutableOrders (db o) (failGetExecutableOrders env)
                                     (now env) with
  | inr err => (o, Some err)
  | inl orders =>
      (List.fold_left (expireIfTimedOut env) orders o, None)
  end.

End Orchestrator.

(* ===================================================================== *)
(** ** Hash functions of the EVM

    [keccak256] is a built-in of Solidity and [sha256] a precompile;
    neither is code of the bridge.  They are given here in full (Keccak
    with rate 1088 and the original [0x01] padding; SHA-256 of FIPS
    180-4) over bytes as integers in [[0, 256)], so that the claim check
    of the contract can be evaluated. *)

Module Bytes.

Fixpoint chunks (fuel n : nat) (l : list Z) : list (list Z) :=
  match fuel with
  | O => []
  | S fuel' =>
      match l with
      | [] => []
      | _ => firstn n l :: chunks fuel' n (skipn n l)
      end
  end.

(** Little- and big-endian integers of a byte string. *)
Definition of_le (bs : list Z) : Z :=
  List.fold_right (fun b acc => b + 256 * acc) 0 bs.
Definition of_be (bs : list Z) : Z :=
  List.fold_left (fun acc b => 256 * acc + b) bs 0.

Fixpoint to_le (n : nat) (x : Z) : list Z :=
  match n with
  | O => []
  | S n' => (x mod 256) :: to_le n' (x / 256)
  end.
Definition to_be (n : nat) (x : Z) : list Z := rev (to_le n x).

End Bytes.

Module Keccak.

Definition rotl64 (x n : Z) : Z :=
  Z.land (Z.lor (Z.shiftl x n) (Z.shiftr x (64 - n))) (Z.ones 64).

Definition lane (st : list Z) (i : nat) : Z := nth i st 0.

Definition roundConstants : list Z :=
  [ 1; 32898; 9223372036854808714; 9223372039002292224; 32907; 2147483649;
    9223372039002292353; 9223372036854808585; 138; 136; 2147516425;
    2147483658; 2147516555; 9223372036854775947; 9223372036854808713;
    9223372036854808579; 9223372036854808578; 9223372036854775936; 32778;
    9223372039002259466; 9223372039002292353; 9223372036854808704;
    2147483649; 9223372039002292232 ].

(** Rotation offsets, lane [(x, y)] at index [x + 5 y]. *)
Definition rotationOffsets : list Z :=
  [ 0; 1; 62; 28; 27;  36; 44; 6; 55; 20;  3; 10; 43; 25; 39;
    41; 45; 15; 21; 8;  18; 2; 61; 56; 14 ].

Definition indices : list nat := seq 0 25.

Definition theta (st : list Z) : list Z :=
  let C := fun x : nat =>
    Z.lxor (lane st x)
      (Z.lxor (lane st (x + 5))
         (Z.lxor (lane st (x + 10))
            (Z.lxor (lane st (x + 15)) (lane st (x + 20))))) in
  let cs := List.map C (seq 0 5) in
  let D := fun x : nat =>
    Z.lxor (nth ((x + 4) mod 5) cs 0) (rotl64 (nth ((x + 1) mod 5) cs 0) 1) in
  let ds := List.map D (seq 0 5) in
  List.map (fun i => Z.lxor (lane st i) (nth (i mod 5) ds 0)) indices.

(** The lane moved to [(X, Y)] comes from [((X + 3 Y) mod 5, X)]. *)
Definition rho_pi (st : list Z) : list Z :=
  List.map (fun d =>
              let X := (d mod 5)%nat in
              let Y := (d / 5)%nat in
              let s := ((X + 3 * Y) mod 5 + 5 * X)%nat in
              rotl64 (lane st s) (nth s rotationOffsets 0))
           indices.

Definition chi (st : list Z) : list Z :=
  List.map (fun i =>
              let x := (i mod 5)%nat in
              let y := (i / 5)%nat in
              let b1 := lane st ((x + 1) mod 5 + 5 * y) in
              let b2 := lane st ((x + 2) mod 5 + 5 * y) in
              Z.lxor (lane st i) (Z.land (Z.lxor b1 (Z.ones 64)) b2))
           indices.

Definition iota (rc : Z) (st : list Z) : list Z :=
  match st with
  | [] => []
  | a :: rest => Z.lxor a rc :: rest
  end.

Definition round (st : list Z) (rc : Z) : list Z :=
  iota rc (chi (rho_pi (theta st))).

Definition keccak_f (st : list Z) : list Z :=
  List.fold_left round roundConstants st.

Definition rate : nat := 136.

Definition pad (m : list Z) : list Z :=
  let q := (rate - length m mod rate)%nat in
  if Nat.eqb q 1 then m ++ [129]
  else m ++ [1] ++ repeat 0 (q - 2) ++ [128].

Definition absorb (st : list Z) (block : list Z) : list Z :=
  let ws := List.map Bytes.of_le (Bytes.chunks 17 8 block) in
  keccak_f (List.map (fun i => Z.lxor (lane st i) (nth i ws 0)) indices).

Definition keccak256 (m : list Z) : list Z :=
  let blocks := Bytes.chunks (S (length m)) rate (pad m) in
  let st := List.fold_left absorb blocks (repeat 0 25) in
  List.concat (List.map (Bytes.to_le 8) (firstn 4 st)).

End Keccak.

Module Sha256.

Definition add32 (x y : Z) : Z := (x + y) mod 2 ^ 32.
Definition rotr32 (x n : Z) : Z :=
  Z.land (Z.lor (Z.shiftr x n) (Z.shiftl x (32 - n))) (Z.ones 32).
Definition not32 (x : Z) : Z := Z.lxor x (Z.ones 32).

Definition Ch (x y z : Z) : Z := Z.lxor (Z.land x y) (Z.land (not32 x) z).
Definition Maj (x y z : Z) : Z :=
  Z.lxor (Z.land x y) (Z.lxor (Z.land x z) (Z.land y z)).
Definition Sigma0 (x : Z) : Z :=
  Z.lxor (rotr32 x 2) (Z.lxor (rotr32 x 13) (rotr32 x 22)).
Definition Sigma1 (x : Z) : Z :=
  Z.lxor (rotr32 x 6) (Z.lxor (rotr32 x 11) (rotr32 x 25)).
Definition sigma0 (x : Z) : Z :=
  Z.lxor (rotr32 x 7) (Z.lxor (rotr32 x 18) (Z.shiftr x 3)).
Definition sigma1 (x : Z) : Z :=
  Z.lxor (rotr32 x 17) (Z.lxor (rotr32 x 19) (Z.shiftr x 10)).

Definition K : list Z :=
  [ 1116352408; 1899447441; 3049323471; 3921009573; 961987163; 1508970993;
    2453635748; 2870763221; 3624381080; 310598401; 607225278; 1426881987;
    1925078388; 2162078206; 2614888103; 3248222580; 3835390401; 4022224774;
    264347078; 604807628; 770255983; 1249150122; 1555081692; 1996064986;
    2554220882; 2821834349; 2952996808; 3210313671; 3336571891; 3584528711;
    113926993; 338241895; 666307205; 773529912; 1294757372; 1396182291;
    1695183700; 1986661051; 2177026350; 2456956037; 2730485921; 2820302411;
    3259730800; 3345764771; 3516065817; 3600352804; 4094571909; 275423344;
    430227734; 506948616; 659060556; 883997877; 958139571; 1322822218;
    1537002063; 1747873779; 1955562222; 2024104815; 2227730452; 2361852424;
    2428436474; 2756734187; 3204031479; 3329325298 ].

Definition H0 : list Z :=
  [ 1779033703; 3144134277; 1013904242; 2773480762;
    1359893119; 2600822924; 528734635; 1541459225 ].

(** Message schedule: [ws] holds the words so far, newest first. *)
Fixpoint schedule (n : nat) (ws : list Z) : list Z :=
  match n with
  | O => ws
  | S n' =>
      let w :=
        add32 (add32 (sigma1 (nth 1 ws 0)) (nth 6 ws 0))
              (add32 (sigma0 (nth 14 ws 0)) (nth 15 ws 0)) in
      schedule n' (w :: ws)
  end.

Definition step (h : list Z) (kw : Z * Z) : list Z :=
  match h with
  | [a; b; c; d; e; f; g; hh] =>
      let t1 :=
        add32 (add32 (add32 hh (Sigma1 e)) (Ch e f g))
              (add32 (fst kw) (snd kw)) in
      let t2 := add32 (Sigma0 a) (Maj a b c) in
      [add32 t1 t2; a; b; c; add32 d t1; e; f; g]
  | _ => h
  end.

Definition compress (h : list Z) (block : list Z) : list Z :=
  let w16 := List.map Bytes.of_be (Bytes.chunks 16 4 block) in
  let ws := rev (schedule 48 (rev w16)) in
  let h' := List.fold_left step (combine K ws) h in
  List.map (fun p => add32 (fst p) (snd p)) (combine h h').

Definition pad (m : list Z) : list Z :=
  let l := length m in
  let k := ((119 - l mod 64) mod 64)%nat in
  m ++ [128] ++ repeat 0 k ++ Bytes.to_be 8 (8 * Z.of_nat l).

Definition sha256 (m : list Z) : list Z :=
  let blocks := Bytes.chunks (S (length m)) 64 (pad m) in
  let h := List.fold_left compress blocks H0 in
  List.concat (List.map (Bytes.to_be 4) h).

End Sha256.

(* ===================================================================== *)
(** ** [contract FlowFusionBridge]

    [uint256] arithmetic is checked (Solidity 0.8): overflow, underflow
    and division by zero revert.  A transaction is a function from the
    contract state to [option] state, [None] being a revert, which
    leaves the state as it was. *)

Module Bridge.

Definition MAX_UINT256 : Z := 2 ^ 256 - 1.

Definition add256 (a b : Z) : option Z :=
  if a + b <=? MAX_UINT256 then Some (a + b) else None.
Definition sub256 (a b : Z) : option Z :=
  if b <=? a then Some (a - b) else None.
Definition mul256 (a b : Z) : option Z :=
  if a * b <=? MAX_UINT256 then Some (a * b) else None.
Definition div256 (a b : Z) : option Z :=
  if b =? 0 then None else Some (a / b).

Definition require (b : bool) : option unit := if b then Some () else None.

Definition BASIS_POINTS : Z := 10000.

Inductive OrderStatus : Type :=
| Executing
| Completed
| Cancelled
| Expired
| Claimed.

#[global] Instance OrderStatus_eq_dec : EqDecision OrderStatus.
Proof. solve_decision. Defined.

Record TWAPConfig : Type := mkTWAPConfig {
  windowMinutes : Z;
  executionIntervals : Z;
  maxSlippage : Z;
  minFillSize : Z;
  enableMEVProtection : bool
}.

Record TWAPOrder : Type := mkTWAPOrder {
  id : Z;
  user : Z;
  sourceToken : Z;
  sourceAmount : Z;
  targetChain : string;
  targetToken : string;
  targetRecipient : string;
  twapConfig : TWAPConfig;
  htlcHash : Z;
  timeoutHeight : Z;
  createdAt : Z;
  executedAmount : Z;
  lastExecution : Z;
  status : OrderStatus;
  averagePrice : Z
}.

Definition with_tail (o : TWAPOrder) (ex le : Z) (st : OrderStatus) (avg : Z)
  : TWAPOrder :=
  mkTWAPOrder (id o) (user o) (sourceToken o) (sourceAmount o)
              (targetChain o) (targetToken o) (targetRecipient o)
              (twapConfig o) (htlcHash o) (timeoutHeight o) (createdAt o)
              ex le st avg.

Definition set_status (o : TWAPOrder) (st : OrderStatus) : TWAPOrder :=
  with_tail o (executedAmount o) (lastExecution o) st (averagePrice o).

Record ExecutionRecord : Type := mkExecutionRecord {
  timestamp : Z;
  amount : Z;
  price : Z;
  gasUsed : Z;
  slippage : Z
}.

Inductive Event : Type :=
| TWAPExecution (orderId intervalNumber executedAmount averagePrice
                 timestamp executor : Z)
| OrderCompleted (orderId totalExecuted averagePrice completionTime : Z)
| HTLCClaimed (orderId secret claimer claimedAt : Z).

(** The storage of the contract that the modelled functions touch, and
    the log.  A key absent from [orders] is the zero struct, whose
    [user] is [address(0)]. *)
Record State : Type := mkState {
  orders : gmap Z TWAPOrder;
  executionHistory : gmap Z (list ExecutionRecord);
  authorizedExecutors : gset Z;
  userOrderCount : gmap Z Z;
  events : list Event
}.

(** [msg.sender], [block.timestamp], [block.number], [gasleft()]. *)
Record Context : Type := mkContext {
  sender : Z;
  block_timestamp : Z;
  block_number : Z;
  gasleft : Z
}.

(** [modifier orderExists]. *)
Definition orderExists (st : State) (orderId : Z) : option TWAPOrder :=
  match orders st !! orderId with
  | Some o => if user o =? 0 then None else Some o
  | None => None
  end.

(** [keccak256(abi.encodePacked(secret))] for a [bytes32] secret: the
    hash of its 32 bytes, as a [bytes32]. *)
Definition keccak256_bytes32 (secret : Z) : Z :=
  Bytes.of_be (Keccak.keccak256 (Bytes.to_be 32 secret)).

Definition claimHTLC (ctx : Context) (st : State) (orderId secret : Z)
  : option State :=
  order ← orderExists st orderId;
  _ ← require (bool_decide (status order = Completed));
  _ ← require (keccak256_bytes32 secret =? htlcHash order);
  let order := set_status order Claimed in
  count ← sub256 (default 0 (userOrderCount st !! user order)) 1;
  Some (mkState (<[orderId := order]> (orders st)) (executionHistory st)
                (authorizedExecutors st)
                (<[user order := count]> (userOrderCount st))
                (events st ++ [HTLCClaimed orderId secret (sender ctx)
                                           (block_timestamp ctx)])).

Definition _getIntervalDuration (config : TWAPConfig) : option Z :=
  n ← mul256 (windowMinutes config) 60;
  div256 n (executionIntervals config).

Definition _calculateSlippage (expectedPrice actualPrice : Z) : option Z :=
  if expectedPrice =? 0 then Some 0
  else
    diff ← (if actualPrice <? expectedPrice
            then sub256 expectedPrice actualPrice
            else sub256 actualPrice expectedPrice);
    n ← mul256 diff BASIS_POINTS;
    div256 n expectedPrice.

Fixpoint twap_loop (windowStart : Z) (prev : option ExecutionRecord)
    (history : list ExecutionRecord) (totalValue totalWeight : Z)
  : option (Z * Z) :=
  match history with
  | [] => Some (totalValue, totalWeight)
  | r :: rest =>
      if windowStart <=? timestamp r then
        weight ← match prev with
                 | Some q => sub256 (timestamp r) (timestamp q)
                 | None => Some 1
                 end;
        v ← mul256 (price r) weight;
        totalValue ← add256 totalValue v;
        totalWeight ← add256 totalWeight weight;
        twap_loop windowStart (Some r) rest totalValue totalWeight
      else twap_loop windowStart (Some r) rest totalValue totalWeight
  end.

Definition _calculateTWAP (ctx : Context) (st : State) (orderId : Z)
  : option Z :=
  let history := default [] (executionHistory st !! orderId) in
  match history with
  | [] => Some 0
  | _ =>
      let W := match orders st !! orderId with
               | Some o => windowMinutes (twapConfig o)
               | None => 0
               end in
      w ← mul256 W 60;
      windowStart ← sub256 (block_timestamp ctx) w;
      '(totalValue, totalWeight) ← twap_loop windowStart None history 0 0;
      if 0 <? totalWeight then div256 totalValue totalWeight else Some 0
  end.

Definition _calculateWeightedAveragePrice (order : TWAPOrder)
    (newPrice newAmount : Z) : option Z :=
  a ← mul256 (averagePrice order) (executedAmount order);
  b ← mul256 newPrice newAmount;
  totalValue ← add256 a b;
  totalAmount ← add256 (executedAmount order) newAmount;
  div256 totalValue totalAmount.

Definition _verifyPrice (price proofLength : Z) : bool :=
  (0 <? price) && (0 <? proofLength).

Definition executeTWAPInterval (ctx : Context) (st : State)
    (orderId intervalAmount executionPrice priceProofLength : Z)
  : option State :=
  _ ← require (bool_decide (sender ctx ∈ authorizedExecutors st));
  order ← orderExists st orderId;
  _ ← require (bool_decide (status order = Executing));
  _ ← require (0 <? intervalAmount);
  remaining ← sub256 (sourceAmount order) (executedAmount order);
  _ ← require (intervalAmount <=? remaining);
  _ ← require (block_number ctx <? timeoutHeight order);
  intervalDuration ← _getIntervalDuration (twapConfig order);
  next ← add256 (lastExecution order) intervalDuration;
  _ ← require ((lastExecution order =? 0) || (next <=? block_timestamp ctx));
  _ ← require (_verifyPrice executionPrice priceProofLength);
  twapPrice ← _calculateTWAP ctx st orderId;
  slip ← (if 0 <? twapPrice
          then s ← _calculateSlippage twapPrice executionPrice;
               _ ← require (s <=? maxSlippage (twapConfig order));
               Some s
          else Some 0);
  _ ← require ((minFillSize (twapConfig order) <=? intervalAmount)
               || (intervalAmount =? remaining));
  let history := default [] (executionHistory st !! orderId) in
  let intervalNumber := Z.of_nat (length history) in
  let record :=
    mkExecutionRecord (block_timestamp ctx) intervalAmount executionPrice
                      (gasleft ctx) slip in
  executed ← add256 (executedAmount order) intervalAmount;
  let order :=
    with_tail order executed (block_timestamp ctx) (status order)
              (averagePrice order) in
  avg ← (if averagePrice order =? 0 then Some executionPrice
         else _calculateWeightedAveragePrice order executionPrice
                                             intervalAmount);
  let order :=
    with_tail order (executedAmount order) (lastExecution order)
              (status order) avg in
  let ev1 :=
    TWAPExecution orderId intervalNumber intervalAmount executionPrice
                  (block_timestamp ctx) (sender ctx) in
  let '(order, evs) :=
    if sourceAmount order <=? executedAmount order
    then (set_status order Completed,
          [ev1; OrderCompleted orderId (executedAmount order)
                               (averagePrice order) (block_timestamp ctx)])
    else (order, [ev1]) in
  Some (mkState (<[orderId := order]> (orders st))
                (<[orderId := history ++ [record]]> (executionHistory st))
                (authorizedExecutors st) (userOrderCount st)
                (events st ++ evs)).

End Bridge.

(* ===================================================================== *)
(** ** The formulas of the specification, and the scenarios used below *)

Module Spec.
Import Decimal.

(** Interval duration of the specification: [(W * 60) / K] seconds. *)
Definition interval_duration_seconds (W K : Z) : Z := (W * 60) / K.

(** Running weighted average of the specification:
    [(old_avg * old_executed + exec_price * exec_amount) /
     (old_executed + exec_amount)]. *)
Definition running_average (old_avg old_executed exec_price exec_amount
                            : Decimal) : option Decimal :=
  Div (Add (Mul old_avg old_executed) (Mul exec_price exec_amount))
      (Add old_executed exec_amount).

(** The window of the specification: timestamp [>= now - window]. *)
Definition points_since (now window : Z) (points : list Twap.PricePoint)
  : list Twap.PricePoint :=
  List.filter (fun p => now - window <=? Twap.Timestamp p) points.

(** The window as the code takes it: timestamp [> now - window]. *)
Definition points_after (now window : Z) (points : list Twap.PricePoint)
  : list Twap.PricePoint :=
  List.filter (fun p => now - window <? Twap.Timestamp p) points.

(** Weights of the specification: [w_0 = 1], [w_i] the whole seconds
    between point [i] and point [i - 1]. *)
Fixpoint weights_from (prev : Twap.PricePoint) (points : list Twap.PricePoint)
  : list Decimal :=
  match points with
  | [] => []
  | p :: rest =>
      NewFromInt (Z.quot (Twap.Timestamp p - Twap.Timestamp prev)
                         Database.Second)
      :: weights_from p rest
  end.

Definition weights (points : list Twap.PricePoint) : list Decimal :=
  match points with
  | [] => []
  | p :: rest => NewFromInt 1 :: weights_from p rest
  end.

Definition sum (l : list Decimal) : Decimal := List.fold_left Add l Uninit.

(** [Σ price_i * w_i] and [Σ w_i]. *)
Definition weighted_value (points : list Twap.PricePoint) : Decimal :=
  sum (List.map (fun pw => Mul (Twap.Price (fst pw)) (snd pw))
                (combine points (weights points))).
Definition total_weight (points : list Twap.PricePoint) : Decimal :=
  sum (weights points).

(** The weights the loop of [calculateTWAP] uses from a given
    predecessor on. *)
Definition loop_weights (prev : option Twap.PricePoint)
    (points : list Twap.PricePoint) : list Decimal :=
  match prev with
  | None => weights points
  | Some q => weights_from q points
  end.


Fixpoint ascending_from (prev : Twap.PricePoint) (points : list Twap.PricePoint)
  : Prop :=
  match points with
  | [] => True
  | p :: rest =>
      Twap.Timestamp prev <= Twap.Timestamp p /\ ascending_from p rest
  end.

(** Slippage of the specification:
    [slippage_bps = floor (|expected - actual| * 10000 / expected)], and 0
    when [expected] is 0; taken on the exact values of the two
    decimals, brought to a common exponent. *)
Definition slippage_bps (expected actual : Decimal) : Z :=
  if IsZero expected then 0
  else
    let '(e, a) := RescalePair expected actual in
    Z.abs (value e - value a) * 10000 / value e.

(** Where the ratio [|expected - actual| / expected], rounded half up
    at sixteen decimals as the engine's [Div] does, reaches the basis
    point above [slippage_bps]: the exact ratio is at most [5e-17] short
    of it, that is,
    [(slippage_bps + 1) / 10000 - |expected - actual| / expected
     <= 1 / (2 * 10 ^ 16)], multiplied out. *)
Definition rounds_to_next_bps (expected actual : Decimal) : bool :=
  let '(e, a) := RescalePair expected actual in
  2 * 10 ^ 12 * ((slippage_bps expected actual + 1) * value e
                 - Z.abs (value e - value a) * 10000)
  <=? value e.

(** The hash of the specification: SHA-256 applied twice to the 32-byte
    secret. *)
Definition sha256d_bytes32 (secret : Z) : Z :=
  Bytes.of_be (Sha256.sha256 (Sha256.sha256 (Bytes.to_be 32 secret))).

End Spec.

Module Scenario.
Import Decimal.

(** Clock readings: a Unix time ending in 00 and one ending in 99, for
    which the mock swap fills 99 % and 100.98 % of the request. *)
Definition at00 : Z := 1700000000 * Database.Second.
Definition at99 : Z := 1700000099 * Database.Second.

(** An ETH/USDC order of 1000 units from Ethereum to Cosmos. *)
Definition order (W K S : Z) (executed : Decimal) (last : option Z)
    (status : string) (avg : Decimal) : Database.Order :=
  Database.mkOrder "order-1" "0xA11CE" "ethereum" "cosmos" "ETH"
    (NewFromInt 1000) "USDC" W K S (NewFromInt 100) "0x5ec2e7"
    2000000 1700003600 (at00 - Database.Hour) (at00 - Database.Hour)
    executed last status avg.

Definition fresh : Database.Order :=
  order 20 4 100 Uninit None "pending" Uninit.

Definition record (n : Z) (t : Z) (amt price : Z) : Database.ExecutionRecord :=
  Database.mkExecutionRecord "order-1" n t (NewFromInt amt)
    (NewFromInt price) (Some 150000) (Some 0) (Some "0x0") "cosmos".

Definition point (t : Z) (price : Z) : Twap.PricePoint :=
  Twap.mkPricePoint t (NewFromInt price) (NewFromInt 0) "dex".

Definition noMetrics : Twap.Metrics :=
  Twap.mkMetrics 0 0 0 Uninit Uninit 0.

Definition engine (o : Database.Order) (h : list Database.ExecutionRecord)
    (points : list Twap.PricePoint) : Twap.Engine :=
  Twap.mkEngine (Database.mkDB [o] h []) {["cosmos"]}
                {["ETH_USDC" := points]} (24 * Database.Hour) [] noMetrics.

Definition clock (t : Z) : Twap.Env :=
  Twap.mkEnv t false false false false false.

(** The row of ["order-1"] in the store of an engine. *)
Definition stored (e : Twap.Engine) : option Database.Order :=
  List.find (fun o => String.eqb (Database.ID o) "order-1")
            (Database.orders (Twap.db e)).

Definition request (n : Z) (target hint : Decimal) (S : Z)
  : Twap.ExecutionRequest :=
  Twap.mkExecutionRequest "order-1" n target S hint.

(** [d] is present and numerically equal to [n]. *)
Definition equals (d : option Decimal) (n : Decimal) : bool :=
  match d with
  | Some x => Equal x n
  | None => false
  end.

(** Three of four intervals done: 750 of 1000 executed at 2000. *)
Definition threeFills : list Database.ExecutionRecord :=
  [ record 0 (at00 - 15 * Database.Minute) 250 2000;
    record 1 (at00 - 10 * Database.Minute) 250 2000;
    record 2 (at00 - 5 * Database.Minute) 250 2000 ].

Definition threeQuarters : Database.Order :=
  order 20 4 100 (NewFromInt 750) (Some (at00 - 5 * Database.Minute))
        "executing" (NewFromInt 2000).

(** The request the scheduler queues for the last interval. *)
Definition lastRequest : Twap.ExecutionRequest :=
  request 3 (New 2500000000000000000 (-16)) (NewFromInt 2000) 100.



(** The smallest legal plan, five minutes in two intervals, half
    executed at [at00]. *)
Definition smallestPlan : Database.Order :=
  order 5 2 100 (NewFromInt 500) (Some at00) "executing" (NewFromInt 2000).

(** A completed order and a cancelled one. *)
Definition completedOrder : Database.Order :=
  order 20 4 100 (NewFromInt 1000) (Some (at00 - 5 * Database.Minute))
        "completed" (NewFromInt 2000).
Definition cancelledOrder : Database.Order :=
  order 20 4 100 (NewFromInt 250) (Some (at00 - 5 * Database.Minute))
        "cancelled" (NewFromInt 2000).

Definition noStatistics : Orchestrator.Statistics :=
  Orchestrator.mkStatistics 0 0 0 0 0 0 0 0.

Definition orchestrator (o : Database.Order) : Orchestrator.Orchestrator :=
  Orchestrator.mkOrchestrator (Database.mkDB [o] [] [])
    {["ethereum"; "cosmos"]} Orchestrator.setupEventHandlers noStatistics.

Definition quiet (t : Z) : Orchestrator.Env :=
  Orchestrator.mkEnv t false false false false (fun _ => None).

(** An event of the Ethereum adapter about ["order-1"]. *)
Definition event (type : string) (data : gmap string Orchestrator.EventValue)
  : Orchestrator.ChainEvent :=
  Orchestrator.mkChainEvent "ethereum" type 19000000 "0xfeed" at00 data 7.

Definition aboutOrder1 : gmap string Orchestrator.EventValue :=
  {["order_id" := Orchestrator.VString "order-1"]}.

(** The orchestrator after one delivery of an event. *)
Definition deliver (t : Z) (o : Orchestrator.Orchestrator)
    (ev : Orchestrator.ChainEvent) : Orchestrator.Orchestrator :=
  match Orchestrator.handleEvent (quiet t) o ev with
  | Some (o', _) => o'
  | None => o
  end.

Definition storedBy (o : Orchestrator.Orchestrator) : option Database.Order :=
  List.find (fun r => String.eqb (Database.ID r) "order-1")
            (Database.orders (Orchestrator.db o)).

(** The slippage guard: an order bounded at [S] basis points, a quarter
    executed, with a TWAP hint of 2000 against a current price of 2020
    (100 basis points away). *)
Definition guarded (S : Z) : Database.Order :=
  order 20 4 S (NewFromInt 250) (Some (at00 - 5 * Database.Minute))
        "executing" (NewFromInt 2000).

Definition guardedEngine (S : Z) : Twap.Engine :=
  engine (guarded S) [record 0 (at00 - 5 * Database.Minute) 250 2000]
         [point at00 2020].

Definition guardedRequest (S : Z) : Twap.ExecutionRequest :=
  request 1 (NewFromInt 250) (NewFromInt 2000) S.




(** Three price points inside a twenty-minute window ending at [at00]:
    2000 ten minutes ago, 2010 four minutes ago, 2040 one minute ago. *)
Definition threePoints : list Twap.PricePoint :=
  [ point (at00 - 10 * Database.Minute) 2000;
    point (at00 - 4 * Database.Minute) 2010;
    point (at00 - 1 * Database.Minute) 2040 ].

(** One price point exactly on the edge of the window. *)
Definition edgePoint : Twap.PricePoint :=
  point (at00 - 20 * Database.Minute) 2000.

(** On chain: a completed order of user [0xA11CE] locked under the hash
    [h], and a claim sent by [0xB0B]; the secret is the 32 bytes
    [01 02 ... 20]. *)
Definition secret : Z :=
  455867356320691211509944977504407603390036387149619137164185182714736811808.

Definition lockedOrder (h : Z) : Bridge.TWAPOrder :=
  Bridge.mkTWAPOrder 1 660766 0 1000 "cosmos" "uatom" "cosmos1recipient"
    (Bridge.mkTWAPConfig 20 4 100 100 true) h 20000000 1700000000
    1000 1700001200 Bridge.Completed 2000.

Definition bridge (h : Z) : Bridge.State :=
  Bridge.mkState {[1 := lockedOrder h]} ∅ ∅ {[660766 := 1]} [].

Definition claimer : Bridge.Context :=
  Bridge.mkContext 2827 1700001800 19000000 100000.

(** One scheduler tick followed by one worker iteration, at time [t]. *)
Definition tick (t : Z) (e : Twap.Engine) : option Twap.Engine :=
  match Twap.processExecutableOrders (clock t) e with
  | Some (e', _) => Some (Twap.executionWorker (clock t) e')
  | None => None
  end.

(** A fresh order of four intervals over twenty minutes, run every five
    minutes from [at00] (every tick at a Unix time ending in 00), with
    one price point of 2000 in the cache. *)
Definition afterTicks (n : nat) : option Twap.Engine :=
  List.fold_left
    (fun acc k =>
       match acc with
       | Some e => tick (at00 + Z.of_nat k * 5 * Database.Minute) e
       | None => None
       end)
    (seq 0 n)
    (Some (engine fresh [] [point (at00 - Database.Second) 2000])).

End Scenario.

(* ===================================================================== *)
(** ** [package twap]: the price feed *)

Module Feeds.
Import Decimal.

Inductive FeedError : Type :=
| ErrInvalidPrice (price : Decimal) (tokenPair source : string).
                                       (* "invalid price: %s for %s from %s" *)

(** [storePricePoint]: a price that is zero or negative is refused; any
    other is stamped with the clock reading [now] and added to the cache,
    which prunes itself at the later reading [pruned].  The row then
    written to the [price_points] table is outside the tables modelled
    here, and an error of that statement is logged and dropped. *)
Definition storePricePoint (now pruned : Twap.Time) (e : Twap.Engine)
    (tokenPair source : string) (price : Decimal)
  : Twap.Engine * option FeedError :=
  if IsZero price || IsNegative price
  then (e, Some (ErrInvalidPrice price tokenPair source))
  else
    let pricePoint := Twap.mkPricePoint now price (NewFromInt 0) source in
    (Twap.addPricePoint pruned e tokenPair pricePoint, None).

(** The order a monotonic clock leaves in a cached list: every point is
    at least as late as the one before it. *)
Definition ascending (points : list Twap.PricePoint) : Prop :=
  match points with
  | [] => True
  | p :: rest => Spec.ascending_from p rest
  end.

End Feeds.

(* ===================================================================== *)
(** ** [contract FlowFusionBridge]: configuration rules and views *)

Module BridgeRules.

Definition MAX_SLIPPAGE : Z := 1000.
Definition MIN_WINDOW_MINUTES : Z := 5.
Definition MAX_WINDOW_MINUTES : Z := 1440.
Definition MAX_EXECUTION_INTERVALS : Z := 20.

(** [_validateTWAPConfig]: six [require]s in a row. *)
Definition _validateTWAPConfig (config : Bridge.TWAPConfig) : option unit :=
  _ ← Bridge.require (MIN_WINDOW_MINUTES <=? Bridge.windowMinutes config);
  _ ← Bridge.require (Bridge.windowMinutes config <=? MAX_WINDOW_MINUTES);
  _ ← Bridge.require (1 <? Bridge.executionIntervals config);
  _ ← Bridge.require (Bridge.executionIntervals config
                      <=? MAX_EXECUTION_INTERVALS);
  _ ← Bridge.require (Bridge.maxSlippage config <=? MAX_SLIPPAGE);
  Bridge.require (0 <? Bridge.minFillSize config).

(** [getNextExecutionTime]: the zero struct of an unknown order has
    [lastExecution = 0]. *)
Definition getNextExecutionTime (ctx : Bridge.Context) (st : Bridge.State)
    (orderId : Z) : option Z :=
  match Bridge.orders st !! orderId with
  | None => Some (Bridge.block_timestamp ctx)
  | Some order =>
      if Bridge.lastExecution order =? 0
      then Some (Bridge.block_timestamp ctx)
      else
        intervalDuration ← Bridge._getIntervalDuration (Bridge.twapConfig order);
        Bridge.add256 (Bridge.lastExecution order) intervalDuration
  end.

(** The amounts recorded in an execution history, added up. *)
Definition recordedAmount (history : list Bridge.ExecutionRecord) : Z :=
  List.fold_right Z.add 0 (List.map Bridge.amount history).

End BridgeRules.

(* ===================================================================== *)
(** ** [package adapters]: the mock adapter and the adapter manager *)

Module Adapters.

(** [type MockAdapter struct]; its [config] is never read. *)
Record MockAdapter : Type := mkMockAdapter {
  chainID : string;
  name : string;
  connected : bool
}.

Definition NewEthereumAdapter : MockAdapter :=
  mkMockAdapter "ethereum" "Ethereum" false.
Definition NewCosmosAdapter : MockAdapter :=
  mkMockAdapter "cosmos" "Cosmos" false.
Definition NewStellarAdapter : MockAdapter :=
  mkMockAdapter "stellar" "Stellar" false.
Definition NewBitcoinAdapter : MockAdapter :=
  mkMockAdapter "bitcoin" "Bitcoin" false.

Definition Connect (a : MockAdapter) : MockAdapter :=
  mkMockAdapter (chainID a) (name a) true.
Definition Disconnect (a : MockAdapter) : MockAdapter :=
  mkMockAdapter (chainID a) (name a) false.

Inductive AdapterError : Type :=
| ErrNotConnected.                              (* "adapter not connected" *)

Definition Health (a : MockAdapter) : option AdapterError :=
  if negb (connected a) then Some ErrNotConnected else None.

(** [ValidateChainID]. *)
Definition ValidateChainID (chainID : string) : bool :=
  List.existsb (String.eqb chainID)
    ["ethereum"; "cosmos"; "stellar"; "bitcoin"; "near"; "solana"].

(** The manager maps a chain to a [ChainAdapter], which is a pointer to
    a [MockAdapter]: the adapters live in [objects] and a pointer is an
    index into it, so that one adapter registered for two chains is one
    object.  A pointer outside [objects] stands for a nil adapter, and a
    method call through it panics. *)

Record Manager : Type := mkManager {
  adapters : gmap string nat;
  objects : list MockAdapter
}.

Inductive ManagerError : Type :=
| ErrBitcoinDisabled                         (* "bitcoin adapter is disabled" *)
| ErrUnsupportedChain (chain : string)               (* "unsupported chain" *)
| ErrAdapterNotFound (chain : string)      (* "adapter not found for chain" *)
| ErrAdapterExists (chain : string).  (* "adapter already exists for chain" *)

Definition createAdapter (bitcoinEnabled : bool) (chain : string)
  : MockAdapter + ManagerError :=
  if String.eqb chain "ethereum" then inl NewEthereumAdapter
  else if String.eqb chain "cosmos" then inl NewCosmosAdapter
  else if String.eqb chain "stellar" then inl NewStellarAdapter
  else if String.eqb chain "bitcoin" then
    if bitcoinEnabled then inl NewBitcoinAdapter else inr ErrBitcoinDisabled
  else inr (ErrUnsupportedChain chain).

(** [NewManager]: one adapter for each supported chain that can be
    created; a chain that cannot is logged and skipped. *)
Definition register (bitcoinEnabled : bool) (m : Manager) (chain : string)
  : Manager :=
  match createAdapter bitcoinEnabled chain with
  | inr _ => m
  | inl adapter =>
      mkManager (<[chain := length (objects m)]> (adapters m))
                (objects m ++ [adapter])
  end.

Definition NewManager (supportedChains : list string) (bitcoinEnabled : bool)
  : Manager :=
  List.fold_left (register bitcoinEnabled) supportedChains (mkManager ∅ []).

Definition GetAdapter (m : Manager) (chain : string) : nat + ManagerError :=
  match adapters m !! chain with
  | Some adapter => inl adapter
  | None => inr (ErrAdapterNotFound chain)
  end.

Definition GetAdapterCount (m : Manager) : nat := size (adapters m).

Definition IsChainSupported (m : Manager) (chain : string) : bool :=
  bool_decide (is_Some (adapters m !! chain)).

Definition AddAdapter (m : Manager) (chain : string) (adapter : nat)
  : Manager * option ManagerError :=
  match adapters m !! chain with
  | Some _ => (m, Some (ErrAdapterExists chain))
  | None => (mkManager (<[chain := adapter]> (adapters m)) (objects m), None)
  end.

(** [RemoveAdapter]: the adapter is disconnected, then unregistered. *)
Definition RemoveAdapter (m : Manager) (chain : string)
  : option (Manager * option ManagerError) :=
  match adapters m !! chain with
  | None => Some (m, Some (ErrAdapterNotFound chain))
  | Some adapter =>
      a ← objects m !! adapter;
      Some (mkManager (delete chain (adapters m))
                      (<[adapter := Disconnect a]> (objects m)), None)
  end.

(** [ConnectAll], [DisconnectAll]: the loop over the registered
    adapters; [Connect] and [Disconnect] of the mock never fail, so the
    list of errors stays empty and the result is nil. *)
Definition call (method : MockAdapter -> MockAdapter)
    (objs : option (list MockAdapter)) (adapter : nat)
  : option (list MockAdapter) :=
  objs ← objs;
  a ← objs !! adapter;
  Some (<[adapter := method a]> objs).

Definition forAll (method : MockAdapter -> MockAdapter) (m : Manager)
  : option (Manager * option ManagerError) :=
  objs ← List.fold_left (call method)
                        (List.map snd (map_to_list (adapters m)))
                        (Some (objects m));
  Some (mkManager (adapters m) objs, None).

Definition ConnectAll : Manager -> option (Manager * option ManagerError) :=
  forAll Connect.
Definition DisconnectAll : Manager -> option (Manager * option ManagerError) :=
  forAll Disconnect.

(** [HealthCheckAll]: the health of every registered adapter, by
    chain. *)
Definition HealthCheckAll (m : Manager)
  : option (gmap string (option AdapterError)) :=
  if bool_decide (map_Forall (fun _ adapter =>
                                is_Some (objects m !! adapter)) (adapters m))
  then Some ((fun adapter =>
                match objects m !! adapter with
                | Some a => Health a
                | None => None
                end) <$> adapters m)
  else None.

(** Every registered pointer leads to an adapter. *)
Definition valid (m : Manager) : Prop :=
  forall chain adapter,
    adapters m !! chain = Some adapter -> is_Some (objects m !! adapter).

End Adapters.

(* ===================================================================== *)
(** ** What the timeout monitor leaves behind *)

Module Monitor.

(** Every row of an order id is marked as expired. *)
Definition expired_rows (id : string) (rows : list Database.Order) : Prop :=
  forall row, In row rows -> Database.ID row = id ->
              Database.Status row = "expired".

End Monitor.

(* ===================================================================== *)
(** ** Further scenarios *)

Module Cases.
Import Decimal.

(** A store that holds the fresh order of the scenarios. *)
Definition store : Database.DB := Database.mkDB [Scenario.fresh] [] [].

(** An order of another user whose timeout timestamp has passed at
    [Scenario.at00], still marked as executing. *)
Definition overdue : Database.Order :=
  Database.mkOrder "order-2" "0xB0B" "ethereum" "stellar" "ETH"
    (NewFromInt 500) "XLM" 60 6 50 (NewFromInt 10) "0x7a11"
    2000000 1699999000 (Scenario.at00 - 2 * Database.Hour)
    (Scenario.at00 - 2 * Database.Hour) (NewFromInt 100)
    (Some (Scenario.at00 - Database.Hour)) "executing" (NewFromInt 2000).

Definition monitored : Orchestrator.Orchestrator :=
  Orchestrator.mkOrchestrator
    (Database.mkDB [Scenario.fresh; overdue] [] [])
    {["ethereum"; "cosmos"]} Orchestrator.setupEventHandlers
    Scenario.noStatistics.

(** On chain: an order of 1000 in four intervals over twenty minutes,
    not yet executed, and an authorised executor. *)
Definition liveOrder : Bridge.TWAPOrder :=
  Bridge.mkTWAPOrder 1 660766 0 1000 "cosmos" "uatom" "cosmos1recipient"
    (Bridge.mkTWAPConfig 20 4 100 100 true) 0 20000000 1700000000
    0 0 Bridge.Executing 0.

Definition liveBridge : Bridge.State :=
  Bridge.mkState {[1 := liveOrder]} ∅ {[2827]} {[660766 := 1]} [].

Definition executor (t : Z) : Bridge.Context :=
  Bridge.mkContext 2827 t 19000000 100000.

(** The contract after a first interval of 250 at 2000 and after a
    second of 250 at 2010 five minutes later. *)
Definition afterFirst : Bridge.State :=
  default liveBridge
    (Bridge.executeTWAPInterval (executor 1700000100) liveBridge 1 250 2000 32).

Definition afterSecond : Bridge.State :=
  default afterFirst
    (Bridge.executeTWAPInterval (executor 1700000400) afterFirst 1 250 2010 32).

(** A row whose window is minus two hundred million minutes, last
    executed five minutes before [Scenario.at00]. *)
Definition wrapped : Database.Order :=
  Scenario.order (-200000000) 1 100 (NewFromInt 250)
                 (Some (Scenario.at00 - 5 * Database.Minute))
                 "executing" (NewFromInt 2000).

(** A record of 99 units at 1990.5 for the fresh order, as the store
    holds it. *)
Definition filled : Database.ExecutionRecord :=
  Database.mkExecutionRecord "order-1" 0 Scenario.at00 (NewFromInt 99)
    (New 19905 (-1)) (Some 150000) (Some 47) (Some "0x17979cfe362a0000")
    "cosmos".

(** A manager for Ethereum and Cosmos. *)
Definition manager : Adapters.Manager :=
  Adapters.NewManager ["ethereum"; "cosmos"] false.

End Cases.

(* ===================================================================== *)
(** * Properties *)

Import Decimal.

(** ** Decimals *)

Lemma Div_is_Some (d d2 : Decimal) :
  IsZero d2 = false -> exists q, Div d d2 = Some q.
Proof.
  unfold IsZero, Div, DivRound, QuoRem. intros ->.
  destruct (exp d - exp d2 - - DivisionPrecision <? 0);
    cbn zeta beta iota;
    repeat match goal with
           | |- context [match ?c with Eq => _ | Lt => _ | Gt => _ end] =>
               destruct c
           | |- context [if ?b then _ else _] => destruct b
           end;
    eauto.
Qed.


(** Powers of ten. *)
Lemma pow10_pos (n : Z) : 0 <= n -> 0 < 10 ^ n.
Proof. intros Hn. apply Z.pow_pos_nonneg; lia. Qed.

(** Comparison of two decimals, rescaled to the finer exponent. *)
Lemma Cmp_finer (a b : Decimal) :
  exp a <= exp b ->
  Cmp a b = (value a ?= value b * 10 ^ (exp b - exp a)).
Proof.
  intros Hle. unfold Cmp, RescalePair, rescale.
  rewrite (Z.min_l _ _ Hle), Z.eqb_refl.
  destruct (exp b =? exp a) eqn:He.
  - apply Z.eqb_eq in He. rewrite He, Z.sub_diag, Z.mul_1_r. reflexivity.
  - destruct (exp b <? exp a) eqn:Hl; [apply Z.ltb_lt in Hl; lia|].
    reflexivity.
Qed.

Lemma Cmp_coarser (a b : Decimal) :
  exp b <= exp a ->
  Cmp a b = (value a * 10 ^ (exp a - exp b) ?= value b).
Proof.
  intros Hle. unfold Cmp, RescalePair, rescale.
  rewrite (Z.min_r _ _ Hle), Z.eqb_refl.
  destruct (exp a =? exp b) eqn:He.
  - apply Z.eqb_eq in He. rewrite He, Z.sub_diag, Z.mul_1_r. reflexivity.
  - destruct (exp a <? exp b) eqn:Hl; [apply Z.ltb_lt in Hl; lia|].
    reflexivity.
Qed.

Lemma Equal_same (d : Decimal) : Equal d d = true.
Proof.
  unfold Equal, Cmp, RescalePair. rewrite Z.compare_refl. reflexivity.
Qed.

(** Rescaling to an exponent that is not larger multiplies the value. *)
Lemma rescale_finer (d : Decimal) (e : Z) :
  e <= exp d -> rescale d e = New (value d * 10 ^ (exp d - e)) e.
Proof.
  intros He. unfold rescale.
  destruct (Z.eqb_spec (exp d) e) as [Heq|Hne].
  - subst e. rewrite Z.sub_diag, Z.pow_0_r, Z.mul_1_r. now destruct d.
  - destruct (Z.ltb_spec (exp d) e); [lia|reflexivity].
Qed.

(** Half up: the quotient and the remainder of [DivRound]. *)
Lemma half_up (a b : Z) :
  0 <= a -> 0 < b ->
  (2 * a + b) / (2 * b)
  = match Z.abs (Z.rem a b) * 2 ?= b with
    | Lt => Z.quot a b
    | _ => Z.quot a b + 1
    end.
Proof.
  intros Ha Hb.
  rewrite Z.rem_mod_nonneg, Z.quot_div_nonneg by lia.
  pose proof (Z.div_mod a b ltac:(lia)) as Hdm.
  pose proof (Z.mod_pos_bound a b Hb) as Hm.
  rewrite Z.abs_eq by lia.
  destruct (Z.compare_spec (a mod b * 2) b).
  - symmetry. apply (Z.div_unique _ _ _ (2 * (a mod b) + b - 2 * b)); lia.
  - symmetry. apply (Z.div_unique _ _ _ (2 * (a mod b) + b)); lia.
  - symmetry. apply (Z.div_unique _ _ _ (2 * (a mod b) + b - 2 * b)); lia.
Qed.

(** [Div] of a non-negative decimal by a positive one of an exponent
    that is not smaller: the exact quotient, rounded half up at sixteen
    decimals. *)
Lemma Div_half_up (d d2 : Decimal) :
  0 <= value d -> 0 < value d2 -> exp d <= exp d2 ->
  let divisor := value d2 * 10 ^ (exp d2 - exp d) in
  Div d d2
  = Some (New ((2 * (value d * 10 ^ 16) + divisor) / (2 * divisor)) (-16)).
Proof.
  intros Hd Hd2 Hexp divisor.
  set (g := exp d2 - exp d) in *.
  assert (Hg : 0 <= g) by (subst g; lia).
  unfold Div, DivRound, QuoRem, DivisionPrecision.
  destruct (Z.eqb_spec (value d2) 0); [lia|].
  assert (Hsgn : (Z.sgn (value d) * Z.sgn (value d2) <? 0) = false).
  { apply Z.ltb_ge. rewrite (Z.sgn_pos (value d2)) by lia.
    pose proof (Z.sgn_nonneg (value d)). lia. }
  cbv zeta.
  assert (Hadd : forall q, Add (New q (- (16))) (New 1 (- (16)))
                           = New (q + 1) (- (16))).
  { intros q. unfold Add, RescalePair, rescale. cbn [value exp].
    rewrite Z.min_id, Z.eqb_refl. reflexivity. }
  destruct (Z.ltb_spec (exp d - exp d2 - - (16)) 0) as [He|He];
    cbv beta iota; rewrite Hsgn.
  - (* more than sixteen digits apart *)
    replace (- (exp d - exp d2 - - (16))) with (g - 16) by (subst g; lia).
    set (bb := value d2 * 10 ^ (g - 16)).
    assert (Hbb : 0 < bb).
    { apply Z.mul_pos_pos; [exact Hd2|apply pow10_pos; subst g; lia]. }
    assert (Hdiv : divisor = bb * 10 ^ 16).
    { subst divisor bb. rewrite <- Z.mul_assoc, <- Z.pow_add_r by (subst g; lia).
      do 2 f_equal. lia. }
    rewrite Cmp_finer by (unfold Abs; cbn [exp]; lia).
    unfold Abs. cbn [value exp].
    replace (exp d2 - (exp d + 16)) with (g - 16) by (subst g; lia).
    rewrite (Z.abs_eq (value d2)) by lia. fold bb.
    rewrite Hdiv.
    replace (2 * (value d * 10 ^ 16) + bb * 10 ^ 16)
      with ((2 * value d + bb) * 10 ^ 16) by ring.
    replace (2 * (bb * 10 ^ 16)) with (2 * bb * 10 ^ 16) by ring.
    rewrite Z.div_mul_cancel_r by lia.
    rewrite (half_up (value d) bb Hd Hbb).
    destruct (_ ?= _); rewrite ?Hadd; reflexivity.
  - (* at most sixteen digits apart *)
    replace (exp d - exp d2 - - (16)) with (16 - g) by (subst g; lia).
    set (aa := value d * 10 ^ (16 - g)).
    assert (Haa : 0 <= aa).
    { apply Z.mul_nonneg_nonneg; [exact Hd|].
      apply Z.lt_le_incl, pow10_pos. subst g; lia. }
    assert (Hnum : value d * 10 ^ 16 = aa * 10 ^ g).
    { subst aa. rewrite <- Z.mul_assoc, <- Z.pow_add_r by (subst g; lia).
      do 2 f_equal. lia. }
    rewrite Cmp_finer by (unfold Abs; cbn [exp]; lia).
    unfold Abs. cbn [value exp].
    replace (exp d2 - (- (16) + exp d2 + 16)) with 0 by lia.
    rewrite Z.pow_0_r, Z.mul_1_r, (Z.abs_eq (value d2)) by lia.
    subst divisor. rewrite Hnum.
    replace (2 * (aa * 10 ^ g) + value d2 * 10 ^ g)
      with ((2 * aa + value d2) * 10 ^ g) by ring.
    replace (2 * (value d2 * 10 ^ g)) with (2 * value d2 * 10 ^ g) by ring.
    rewrite Z.div_mul_cancel_r
      by (try lia; apply Z.neq_sym, Z.lt_neq, pow10_pos; lia).
    rewrite (half_up aa (value d2) Haa Hd2).
    destruct (_ ?= _); rewrite ?Hadd; reflexivity.
Qed.

Lemma RescalePair_values (d1 d2 : Decimal) :
  let base := Z.min (exp d1) (exp d2) in
  RescalePair d1 d2
  = (New (value d1 * 10 ^ (exp d1 - base)) base,
     New (value d2 * 10 ^ (exp d2 - base)) base).
Proof.
  intros base. unfold RescalePair. fold base.
  rewrite !rescale_finer by (subst base; lia). reflexivity.
Qed.

(** ** Rounding to the nearest [float64] *)

Lemma roundHalfEven_floor (a b : Z) :
  0 < b -> a / b <= roundHalfEven a b <= a / b + 1.
Proof.
  intros Hb. unfold roundHalfEven. cbv zeta.
  destruct (2 * (a mod b) ?= b); [destruct (Z.even _)| |]; lia.
Qed.

Lemma roundHalfEven_lower (a b c : Z) :
  0 < b -> c * b <= a -> c <= roundHalfEven a b.
Proof.
  intros Hb Hc.
  pose proof (roundHalfEven_floor a b Hb).
  assert (c <= a / b) by (apply Z.div_le_lower_bound; lia).
  lia.
Qed.

Lemma roundHalfEven_le (a b c : Z) :
  0 < b -> a <= c * b -> roundHalfEven a b <= c.
Proof.
  intros Hb Hc. unfold roundHalfEven. cbv zeta.
  pose proof (Z.div_mod a b ltac:(lia)) as Hdm.
  pose proof (Z.mod_pos_bound a b Hb) as Hm.
  assert (Hq : a / b <= c) by (apply Z.div_le_upper_bound; lia).
  assert (Hq1 : 0 < a mod b -> a / b + 1 <= c) by nia.
  destruct (Z.compare_spec (2 * (a mod b)) b);
    [destruct (Z.even _)| |]; lia.
Qed.

Lemma roundHalfEven_upper (a b c : Z) :
  0 < b -> 2 * a + b < 2 * c * b -> roundHalfEven a b < c.
Proof.
  intros Hb Hc. unfold roundHalfEven. cbv zeta.
  pose proof (Z.div_mod a b ltac:(lia)) as Hdm.
  pose proof (Z.mod_pos_bound a b Hb) as Hm.
  assert (Hq : a / b < c) by (apply Z.div_lt_upper_bound; nia).
  destruct (Z.compare_spec (2 * (a mod b)) b);
    [destruct (Z.even _)| |]; try lia; nia.
Qed.

Lemma binade_lt (a b n : Z) :
  0 < a -> 0 < b -> 0 <= n -> a < 2 ^ n * b -> binade a b < n.
Proof.
  intros Ha Hb Hn Hlt. unfold binade. cbv zeta.
  pose proof (Z.log2_spec b Hb) as [_ Hub].
  pose proof (Z.log2_nonneg b) as Hlb.
  assert (Hla : Z.log2 a < n + Z.log2 b + 1).
  { apply Z.log2_lt_pow2; [exact Ha|].
    replace (n + Z.log2 b + 1) with (n + Z.succ (Z.log2 b)) by lia.
    rewrite Z.pow_add_r by lia.
    assert (0 < 2 ^ n) by (apply Z.pow_pos_nonneg; lia).
    nia. }
  destruct (Z.eq_dec (Z.log2 a - Z.log2 b) n) as [Heq|Hne].
  - rewrite Heq. rewrite (Z.max_l 0 (- n)), (Z.max_r 0 n) by lia.
    rewrite Z.pow_0_r, Z.mul_1_r.
    destruct (Z.ltb_spec a (b * 2 ^ n)); lia.
  - destruct (_ <? _); lia.
Qed.

Lemma binade_ge (a b n : Z) :
  0 < a -> 0 < b -> 0 <= n -> 2 ^ n * b <= a -> n <= binade a b.
Proof.
  intros Ha Hb Hn Hle. unfold binade. cbv zeta.
  pose proof (Z.log2_spec b Hb) as [Hlo _].
  pose proof (Z.log2_nonneg b) as Hlb.
  assert (Hla : n + Z.log2 b <= Z.log2 a).
  { apply Z.log2_le_pow2; [exact Ha|].
    rewrite Z.pow_add_r by lia.
    assert (0 < 2 ^ n) by (apply Z.pow_pos_nonneg; lia).
    nia. }
  destruct (Z.eq_dec (Z.log2 a - Z.log2 b) n) as [Heq|Hne].
  - rewrite Heq. rewrite (Z.max_l 0 (- n)), (Z.max_r 0 n) by lia.
    rewrite Z.pow_0_r, Z.mul_1_r.
    destruct (Z.ltb_spec a (b * 2 ^ n)); lia.
  - destruct (_ <? _); lia.
Qed.

(** Below [2 ^ 52] the nearest [float64] has a negative exponent [- s]:
    it is the nearest multiple of [2 ^ - s]. *)
Lemma nearest_fraction (a b : Z) :
  0 < a -> 0 < b -> a < 2 ^ 52 * b ->
  exists s,
    1 <= s <= 1074 /\
    (forall n, 0 <= n -> a < 2 ^ n * b -> 53 - n <= s) /\
    nearest a b = F64 (roundHalfEven (a * 2 ^ s) b) (- s).
Proof.
  intros Ha Hb Hlt.
  pose proof (binade_lt a b 52 Ha Hb ltac:(lia) Hlt) as Hk.
  exists (- Z.max (binade a b - 52) (- 1074)).
  split; [lia|]. split.
  - intros n Hn Hn'. pose proof (binade_lt a b n Ha Hb Hn Hn'). lia.
  - unfold nearest. cbv zeta.
    set (e := Z.max (binade a b - 52) (- 1074)).
    assert (He : e < 0) by (subst e; lia).
    rewrite (Z.max_r 0 (- e)), (Z.max_l 0 e) by lia.
    rewrite Z.pow_0_r, Z.mul_1_r.
    destruct (Z.ltb_spec 971 e); [lia|].
    destruct (Z.eqb_spec e 971); [lia|].
    cbn [orb andb]. rewrite Z.opp_involutive. reflexivity.
Qed.


(** Below [2 ^ 63 - 2 ^ 9], from where on the nearest [float64] is
    [2 ^ 63], the conversion stays in the range of [int] and does not
    fall below an integer that the fraction reaches. *)
Lemma int_of_nearest_lower (a b n : Z) :
  0 < a -> 0 < b -> a < (2 ^ 63 - 2 ^ 9) * b ->
  0 <= n <= 2 ^ 52 -> n * b <= a ->
  n <= int_of_float64 (nearest a b).
Proof.
  intros Ha Hb Hlt Hn Hle.
  destruct (Z.lt_ge_cases a (2 ^ 52 * b)) as [Hsmall|Hbig].
  - destruct (nearest_fraction a b Ha Hb Hsmall) as (s & Hs & _ & ->).
    unfold int_of_float64. cbv zeta.
    destruct (Z.leb_spec 0 (- s)); [lia|].
    rewrite Z.opp_involutive.
    set (N := 2 ^ s).
    assert (HN : 0 < N) by (apply Z.pow_pos_nonneg; lia).
    set (m := roundHalfEven (a * N) b).
    assert (Hlo : n * N <= m).
    { apply roundHalfEven_lower; [exact Hb|]. nia. }
    assert (Hhi : m <= 2 ^ 52 * N).
    { apply roundHalfEven_le; [exact Hb|]. nia. }
    assert (Hq : n <= Z.quot m N <= 2 ^ 52).
    { rewrite Z.quot_div_nonneg by nia. split.
      - apply Z.div_le_lower_bound; lia.
      - apply Z.div_le_upper_bound; lia. }
    unfold MinInt64.
    destruct (Z.leb_spec (- 2 ^ 63) (Z.quot m N)); [|lia].
    destruct (Z.ltb_spec (Z.quot m N) (2 ^ 63)); [cbn [andb]; lia|lia].
  - pose proof (binade_ge a b 52 Ha Hb ltac:(lia) Hbig) as Hk52.
    pose proof (binade_lt a b 63 Ha Hb ltac:(lia) ltac:(lia)) as Hk63.
    unfold nearest. cbv zeta.
    set (k := binade a b) in *.
    rewrite (Z.max_l (k - 52) (- 1074)) by lia.
    set (e := k - 52).
    rewrite (Z.max_l 0 (- e)), (Z.max_r 0 e) by lia.
    rewrite Z.pow_0_r, Z.mul_1_r.
    assert (HE : 0 < 2 ^ e) by (apply Z.pow_pos_nonneg; lia).
    assert (HE10 : 2 ^ e <= 2 ^ 10) by (apply Z.pow_le_mono_r; lia).
    assert (Hklo : 2 ^ k * b <= a).
    { destruct (Z.lt_ge_cases a (2 ^ k * b)) as [Hc|Hc]; [|exact Hc].
      pose proof (binade_lt a b k Ha Hb ltac:(lia) Hc). lia. }
    assert (Hk : 2 ^ k = 2 ^ 52 * 2 ^ e).
    { subst e. rewrite <- Z.pow_add_r by lia. f_equal. lia. }
    set (m := roundHalfEven a (b * 2 ^ e)).
    assert (Hlo : 2 ^ 52 <= m).
    { apply roundHalfEven_lower; nia. }
    assert (Hhi : m * 2 ^ e < 2 ^ 63).
    { assert (Hm : m < 2 ^ 53 * 2 ^ (10 - e)).
      { apply roundHalfEven_upper; [nia|].
        assert (H10 : 2 ^ (10 - e) * 2 ^ e = 2 ^ 10).
        { rewrite <- Z.pow_add_r by lia. f_equal. lia. }
        assert (0 < 2 ^ (10 - e)) by (apply Z.pow_pos_nonneg; lia).
        nia. }
      assert (H10 : 2 ^ (10 - e) * 2 ^ e = 2 ^ 10).
      { rewrite <- Z.pow_add_r by lia. f_equal. lia. }
      nia. }
    destruct (Z.ltb_spec 971 e); [lia|].
    destruct (Z.eqb_spec e 971); [lia|].
    cbn [orb andb]. unfold int_of_float64. cbv zeta.
    destruct (Z.leb_spec 0 e); [|lia].
    unfold MinInt64.
    assert (Ht : 2 ^ 52 <= m * 2 ^ e) by nia.
    destruct (Z.leb_spec (- 2 ^ 63) (m * 2 ^ e)); [|lia].
    destruct (Z.ltb_spec (m * 2 ^ e) (2 ^ 63)); [cbn [andb]; lia|lia].
Qed.

(** The conversion of a non-negative decimal of sixteen digits. *)
Lemma int_of_Float64_sixteen (v : Z) :
  0 <= v ->
  int_of_float64 (Float64 (New v (-16)))
  = if v =? 0 then 0 else int_of_float64 (nearest v (10 ^ 16)).
Proof.
  intros Hv. unfold Float64, Rat. cbn [exp value Z.leb Z.compare Z.opp].
  change (- (-16)) with 16.
  destruct (Z.eqb_spec v 0) as [->|Hne]; [reflexivity|].
  rewrite Z.abs_eq, Z.sgn_pos by lia.
  destruct (nearest v (10 ^ 16)) as [m e|]; [|reflexivity].
  now rewrite Z.mul_1_l.
Qed.

(** ** Average price (C1) *)

(** Called on an order whose [ExecutedAmount] is still the amount before
    the fill, [UpdateAveragePrice] computes the running weighted average
    of the specification (the first fill sets the price itself). *)
Lemma UpdateAveragePrice_running_average (o : Database.Order)
    (amount price : Decimal) :
  IsZero (Database.ExecutedAmount o) = false ->
  IsZero (Add (Database.ExecutedAmount o) amount) = false ->
  Some (Database.AveragePrice (Database.UpdateAveragePrice o amount price))
  = Spec.running_average (Database.AveragePrice o)
                         (Database.ExecutedAmount o) price amount.
Proof.
  intros Hex Hsum. unfold Database.UpdateAveragePrice, Spec.running_average.
  rewrite Hex, Hsum. cbn [negb].
  destruct (Div_is_Some
              (Add (Mul (Database.AveragePrice o) (Database.ExecutedAmount o))
                   (Mul price amount))
              (Add (Database.ExecutedAmount o) amount) Hsum) as [q Hq].
  now rewrite Hq.
Qed.

Lemma UpdateAveragePrice_first_fill (o : Database.Order)
    (amount price : Decimal) :
  IsZero (Database.ExecutedAmount o) = true ->
  Database.AveragePrice (Database.UpdateAveragePrice o amount price) = price.
Proof.
  intros Hex. unfold Database.UpdateAveragePrice. now rewrite Hex.
Qed.

(** [executeInterval] adds the fill to [ExecutedAmount] before it calls
    [UpdateAveragePrice]: the average is taken over the amount after the
    fill, with the new amount counted twice. *)
Lemma updateOrderState_average (timestamp : Z) (o : Database.Order)
    (amount price : Decimal) :
  let executed := Add (Database.ExecutedAmount o) amount in
  IsZero executed = false ->
  IsZero (Add executed amount) = false ->
  Some (Database.AveragePrice (Twap.updateOrderState timestamp o amount price))
  = Spec.running_average (Database.AveragePrice o) executed price amount.
Proof.
  intros executed H1 H2.
  pose (o1 := Database.set_LastExecution
                (Database.set_ExecutedAmount o executed) (Some timestamp)).
  assert (Hstate :
            Database.AveragePrice
              (Twap.updateOrderState timestamp o amount price)
            = Database.AveragePrice
                (Database.UpdateAveragePrice o1 amount price)).
  { unfold Twap.updateOrderState. cbv zeta. fold executed. fold o1.
    now destruct (GreaterThanOrEqual _ _). }
  rewrite Hstate.
  apply (UpdateAveragePrice_running_average o1); assumption.
Qed.

(** C1: the first fill of a fresh order, 99 units at price 1990 (the
    mock swap of a request for 100 at market price 2000), leaves an
    average price of 995, half the only execution price, where the
    running weighted average is 1990. *)
Theorem C1_first_fill_average_is_halved :
  let e := Scenario.engine Scenario.fresh []
                           [Scenario.point Scenario.at00 2000] in
  let rq := Scenario.request 0 (NewFromInt 100) (NewFromInt 2000) 100 in
  let e' := fst (Twap.executeInterval (Scenario.clock Scenario.at00) e rq) in
  let r := snd (Twap.executeInterval (Scenario.clock Scenario.at00) e rq) in
  Twap.Success r = true /\
  Equal (Twap.ExecutedAmount r) (NewFromInt 99) = true /\
  Equal (Twap.ExecutionPrice r) (NewFromInt 1990) = true /\
  Scenario.equals (Database.ExecutedAmount <$> Scenario.stored e')
              (NewFromInt 99) = true /\
  Scenario.equals (Database.AveragePrice <$> Scenario.stored e')
              (NewFromInt 995) = true /\
  Scenario.equals (Spec.running_average Uninit Uninit (Twap.ExecutionPrice r)
                                    (Twap.ExecutedAmount r))
              (NewFromInt 1990) = true.
Proof. vm_compute. repeat split. Qed.

(** ** Executed amount (C2) *)

(** On chain, [executeTWAPInterval] refuses an amount above the
    remainder: the executed amount stays within the source amount, and
    the order is completed exactly when the two are equal. *)
Lemma Bridge_executeTWAPInterval_bounded (ctx : Bridge.Context)
    (st st' : Bridge.State) (orderId amt price proofLength : Z)
    (o : Bridge.TWAPOrder) :
  Bridge.orders st !! orderId = Some o ->
  Bridge.executeTWAPInterval ctx st orderId amt price proofLength = Some st' ->
  exists o',
    Bridge.orders st' !! orderId = Some o' /\
    Bridge.sourceAmount o' = Bridge.sourceAmount o /\
    Bridge.executedAmount o' = Bridge.executedAmount o + amt /\
    Bridge.executedAmount o <= Bridge.executedAmount o' <= Bridge.sourceAmount o /\
    (Bridge.status o' = Bridge.Completed <->
     Bridge.executedAmount o' = Bridge.sourceAmount o').
Proof.
  intros Ho. unfold Bridge.executeTWAPInterval, Bridge.orderExists.
  rewrite Ho. unfold Bridge.require, Bridge.sub256, Bridge.add256.
  intros H. simplify_option_eq.
  repeat match goal with
         | H : context [if ?b then _ else _] |- _ =>
             destruct b eqn:?; simplify_option_eq
         end.
  all: eexists; (split; [apply lookup_insert_eq|]); cbn.
  all: repeat match goal with
         | H : (_ <=? _) = true |- _ => apply Z.leb_le in H
         | H : (_ <=? _) = false |- _ => apply Z.leb_gt in H
         | H : (_ <? _) = true |- _ => apply Z.ltb_lt in H
         end.
  all: repeat split; intros; try lia; congruence.
Qed.

(** C2: the scheduler sizes the last interval at the whole remainder,
    250; the mock swap, run at a Unix time ending in 99, fills 100.98 %
    of it, and [executeInterval] stores an executed amount of 1002.45
    for a source amount of 1000. *)
Theorem C2_last_interval_overshoots :
  let e := Scenario.engine Scenario.threeQuarters Scenario.threeFills
                           [Scenario.point Scenario.at00 2000] in
  let env := Scenario.clock Scenario.at99 in
  (Twap.executionQueue <$>
     (fst <$> Twap.processOrder env e Scenario.threeQuarters))
  = Some [Scenario.lastRequest] /\
  let e' := fst (Twap.executeInterval env e Scenario.lastRequest) in
  Twap.Success (snd (Twap.executeInterval env e Scenario.lastRequest)) = true /\
  Scenario.equals (Database.ExecutedAmount <$> Scenario.stored e')
                  (New 100245 (-2)) = true /\
  Scenario.equals (Database.SourceAmount <$> Scenario.stored e')
                  (NewFromInt 1000) = true /\
  ((fun o => GreaterThan (Database.ExecutedAmount o) (Database.SourceAmount o))
     <$> Scenario.stored e') = Some true.
Proof. vm_compute. repeat split. Qed.

(** All four executions of the scenario are at price 1990, and the
    stored average is 1593.52. *)
Lemma four_fills_average :
  let e := Scenario.afterTicks 4 in
  ((fun e => List.map (fun r => Equal (Database.Price r) (NewFromInt 1990))
                      (Database.execution_history (Twap.db e))) <$> e)
  = Some [true; true; true; true] /\
  Scenario.equals (Database.AveragePrice <$> (e ≫= Scenario.stored))
                  (New 15935197005844210542 (-16)) = true.
Proof. vm_compute. split; reflexivity. Qed.

(** ** Completion (C3) *)



Lemma update_row_other_id (now : Z) (order row : Database.Order) :
  Database.ID row <> Database.ID order ->
  Database.update_row now order row = row.
Proof.
  intros Hid. unfold Database.update_row.
  destruct (String.eqb_spec (Database.ID row) (Database.ID order)); congruence.
Qed.







(** ** Scheduling (C4) *)

(** The scheduler's test, spelled out: status, block height against the
    mock height, and a wait of [W / K] whole minutes (integer division)
    after the last execution, or the creation time when there is none;
    this for a [W / K] whose nanoseconds fit a [time.Duration]. *)
Lemma wrapDuration_minutes (q : Z) :
  Z.abs q <= 153722867 ->
  Database.wrapDuration (q * Database.Minute) = q * Database.Minute.
Proof.
  intros Hq. unfold Database.wrapDuration, Database.Minute, Database.Second.
  rewrite Z.mod_small; lia.
Qed.

Lemma isDue_spelled_out (now : Z) (o : Database.Order) :
  Database.ExecutionIntervals o <> 0 ->
  Z.abs (Z.quot (Database.WindowMinutes o) (Database.ExecutionIntervals o))
  <= 153722867 ->
  Twap.isDue now o =
    Some ((String.eqb (Database.Status o) "pending"
           || String.eqb (Database.Status o) "executing")
          && (Database.currentHeight <? Database.TimeoutHeight o)
          && match Database.LastExecution o with
             | None => Database.CreatedAt o <=? now
             | Some last =>
                 last + Z.quot (Database.WindowMinutes o)
                               (Database.ExecutionIntervals o)
                        * (60 * Database.Second) <=? now
             end).
Proof.
  intros HK Hwrap. apply Z.eqb_neq in HK.
  unfold Twap.isDue, Database.executable_row, Database.CanExecuteInterval,
    Database.GetNextExecutionTime, Database.After.
  rewrite (wrapDuration_minutes _ Hwrap). unfold Database.Minute.
  destruct (Database.LastExecution o) as [last|]; rewrite ?HK;
    destruct (String.eqb (Database.Status o) "pending"
              || String.eqb (Database.Status o) "executing");
    destruct (Database.currentHeight <? Database.TimeoutHeight o);
    cbn [negb andb]; f_equal;
    repeat match goal with
           | |- context [?a <? ?b] => destruct (Z.ltb_spec a b)
           | |- context [?a <=? ?b] => destruct (Z.leb_spec a b)
           | |- context [?a =? ?b] => destruct (Z.eqb_spec a b)
           end; cbn; try reflexivity; lia.
Qed.

(** C4: for W = 5 and K = 2 the next execution is 120 seconds after the
    last one, and the scheduler takes the order as due at that moment,
    30 seconds before the 150 seconds of the specification (which is
    also what the contract's [_getIntervalDuration] computes). *)
Theorem C4_smallest_plan_due_after_120s :
  let o := Scenario.smallestPlan in
  Database.GetNextExecutionTime o
  = Some (Scenario.at00 + 120 * Database.Second) /\
  Twap.isDue (Scenario.at00 + 120 * Database.Second) o = Some true /\
  Twap.isDue (Scenario.at00 + 120 * Database.Second - 1) o = Some false /\
  Spec.interval_duration_seconds 5 2 = 150 /\
  Bridge._getIntervalDuration (Bridge.mkTWAPConfig 5 2 100 100 true)
  = Some 150.
Proof. vm_compute. repeat split. Qed.

(** ** Terminal states (C5) *)

(** C5: an [order_executed] event about a completed order, or about a
    cancelled one, puts the stored order back to executing. *)
Theorem C5_order_executed_reopens_terminal_order :
  let ev := Scenario.event "order_executed" Scenario.aboutOrder1 in
  let reopened := fun o =>
    Database.Status <$>
      Scenario.storedBy (Scenario.deliver Scenario.at00
                                          (Scenario.orchestrator o) ev) in
  Database.Status Scenario.completedOrder = "completed" /\
  reopened Scenario.completedOrder = Some "executing" /\
  Database.Status Scenario.cancelledOrder = "cancelled" /\
  reopened Scenario.cancelledOrder = Some "executing".
Proof. vm_compute. repeat split. Qed.

(** An interval requested for an order cancelled in the meantime is
    executed all the same, and the order is stored as executing. *)
Lemma executeInterval_ignores_status :
  let e := Scenario.engine Scenario.cancelledOrder
             [Scenario.record 0 (Scenario.at00 - 5 * Database.Minute) 250 2000]
             [Scenario.point Scenario.at00 2000] in
  let rq := Scenario.request 1 (NewFromInt 250) (NewFromInt 2000) 100 in
  let run := Twap.executeInterval (Scenario.clock Scenario.at00) e rq in
  Twap.Success (snd run) = true /\
  (Database.Status <$> Scenario.stored (fst run)) = Some "executing".
Proof. vm_compute. split; reflexivity. Qed.

(** The timeout monitor, in contrast, only ever sees pending and
    executing orders. *)
Lemma select_executable_status (now : Z) (rows l : list Database.Order) :
  Database.select_executable now rows = Some l ->
  forall o, In o l ->
    Database.Status o = "pending" \/ Database.Status o = "executing".
Proof.
  revert l. induction rows as [|r rows IH]; intros l; cbn.
  - intros [= <-] o [].
  - destruct (Database.executable_row now Database.currentHeight r)
      as [b|] eqn:Hb; [|discriminate].
    destruct (Database.select_executable now rows) as [l'|]; [|discriminate].
    intros [= <-] o Hin.
    destruct b; [destruct Hin as [->|Hin]|]; eauto.
    unfold Database.executable_row in Hb.
    destruct (String.eqb_spec (Database.Status o) "pending"); auto.
    destruct (String.eqb_spec (Database.Status o) "executing"); auto.
    cbn in Hb. discriminate.
Qed.

(** ** The path of a successful interval (C6, C7) *)

Lemma GetOrder_found (db : Database.DB) (fault : bool) (orderID : string)
    (o : Database.Order) :
  Database.GetOrder db fault orderID = inl o ->
  fault = false /\ In o (Database.orders db) /\ Database.ID o = orderID.
Proof.
  unfold Database.GetOrder. destruct fault; [discriminate|].
  destruct (List.find _ _) as [o'|] eqn:Hfind; [|discriminate].
  intros [= <-]. apply List.find_some in Hfind as [Hin Hid].
  apply String.eqb_eq in Hid. auto.
Qed.

Lemma UpdateOrder_present (db : Database.DB) (now : Z) (order : Database.Order) :
  (exists row, In row (Database.orders db) /\
               Database.ID row = Database.ID order) ->
  Database.UpdateOrder db false now order
  = (Database.mkDB (List.map (Database.update_row now order)
                             (Database.orders db))
                   (Database.execution_history db) (Database.htlcs db),
     None).
Proof.
  intros (row & Hin & Hid). unfold Database.UpdateOrder.
  destruct (List.filter _ _) as [|x l] eqn:Hf; [|reflexivity].
  assert (Hrow : In row (List.filter
                           (fun o => String.eqb (Database.ID o)
                                                (Database.ID order))
                           (Database.orders db))).
  { apply List.filter_In. split; [assumption|].
    rewrite Hid. apply String.eqb_refl. }
  rewrite Hf in Hrow. destruct Hrow.
Qed.

Lemma updateOrderState_ID (timestamp : Z) (o : Database.Order)
    (amount price : Decimal) :
  Database.ID (Twap.updateOrderState timestamp o amount price) = Database.ID o.
Proof.
  unfold Twap.updateOrderState, Database.UpdateAveragePrice. cbv zeta.
  repeat match goal with
         | |- context [if ?b then _ else _] => destruct b
         | |- context [match ?d with Some _ => _ | None => _ end] =>
             destruct d
         end; reflexivity.
Qed.

(** The three gates before the swap, and what [executeInterval] does
    once they are passed: the record and the order are written by two
    statements, each of which may fail on its own, and the response
    reports success either way. *)
Lemma executeInterval_success_path (env : Twap.Env) (e : Twap.Engine)
    (request : Twap.ExecutionRequest) (order : Database.Order) :
  Database.GetOrder (Twap.db e) (Twap.failGetOrder env)
                    (Twap.OrderID request) = inl order ->
  Database.TargetChain order ∈ Twap.adapters e ->
  Twap.slippageRejected request (Twap.marketPriceOf env e order request)
  = None ->
  let market := Twap.marketPriceOf env e order request in
  let amount := Mul (Twap.TargetAmount request) (Twap.swapVariance (Twap.now env)) in
  let price := Mul market (Twap.swapPriceVariance (Twap.now env)) in
  let order' := Twap.updateOrderState (Twap.now env) order amount price in
  let e' := fst (Twap.executeInterval env e request) in
  let r := snd (Twap.executeInterval env e request) in
  Twap.Success r = true /\ Twap.Error r = None /\
  Twap.ExecutedAmount r = amount /\ Twap.ExecutionPrice r = price /\
  (exists record,
     Database.OrderID record = Twap.OrderID request /\
     Database.IntervalNumber record = Twap.IntervalNumber request /\
     Database.Amount record = amount /\ Database.Price record = price /\
     Database.execution_history (Twap.db e')
     = if Twap.failCreateExecutionRecord env
       then Database.execution_history (Twap.db e)
       else Database.execution_history (Twap.db e) ++ [record]) /\
  Database.orders (Twap.db e')
  = (if Twap.failUpdateOrder env
     then Database.orders (Twap.db e)
     else List.map (Database.update_row (Twap.now env) order')
                   (Database.orders (Twap.db e))).
Proof.
  intros Hget Hadapter Hslip market amount price order' e' r.
  destruct (GetOrder_found _ _ _ _ Hget) as (_ & Hin & Hid).
  assert (Hrun :
    Twap.executeInterval env e request
    = let actual := if negb (IsZero (Twap.PriceHint request))
                    then Twap.calculateSlippage (Twap.PriceHint request) price
                    else 0 in
      let record :=
        Database.mkExecutionRecord
          (Twap.OrderID request) (Twap.IntervalNumber request) (Twap.now env)
          amount price
          (Some (150000 + Z.rem (Database.Unix (Twap.now env)) 50000))
          (Some actual)
          (Some (String.append "0x"
                   (NilZero.string_of_uint
                      (N.to_hex_uint (Z.to_N (Twap.now env))))))
          (Database.TargetChain order) in
      let db1 := fst (Database.CreateExecutionRecord
                        (Twap.db e) (Twap.failCreateExecutionRecord env)
                        record) in
      let db2 := fst (Database.UpdateOrder
                        db1 (Twap.failUpdateOrder env) (Twap.now env) order') in
      (Twap.set_metrics (Twap.set_db e db2)
         (Twap.updateMetricsOnSuccess (Twap.now env) (Twap.metrics e) actual
                                      amount),
       Twap.mkExecutionResponse true amount price
         (String.append "0x"
            (NilZero.string_of_uint (N.to_hex_uint (Z.to_N (Twap.now env)))))
         (150000 + Z.rem (Database.Unix (Twap.now env)) 50000) actual None)).
  { unfold Twap.executeInterval. rewrite Hget.
    rewrite (bool_decide_eq_true_2 _ Hadapter). cbn [negb]. cbv zeta.
    rewrite Hslip. unfold Twap.executeSwap. cbv beta iota zeta.
    fold market. fold amount. fold price. fold order'.
    destruct (Database.CreateExecutionRecord _ _ _) as [db1 ?].
    cbn [fst].
    destruct (Database.UpdateOrder _ _ _ _) as [db2 ?]. reflexivity. }
  assert (Hpresent : forall h hs,
            Database.UpdateOrder
              (Database.mkDB (Database.orders (Twap.db e)) h hs) false
              (Twap.now env) order'
            = (Database.mkDB
                 (List.map (Database.update_row (Twap.now env) order')
                           (Database.orders (Twap.db e))) h hs, None)).
  { intros h hs. apply (UpdateOrder_present (Database.mkDB _ h hs)).
    exists order. split; [exact Hin|]. symmetry. apply updateOrderState_ID. }
  subst e' r. rewrite Hrun. clear Hrun. cbv zeta.
  set (record := Database.mkExecutionRecord _ _ _ _ _ _ _ _ _).
  unfold Database.CreateExecutionRecord.
  destruct (Twap.failCreateExecutionRecord env),
    (Twap.failUpdateOrder env); cbn [fst snd];
    rewrite ?Hpresent;
    try (destruct (Twap.db e) as [rows h hs]; cbn [Database.orders] in *;
         rewrite Hpresent);
    cbn; repeat split; exists record; repeat split.
Qed.

Lemma executeInterval_success_gates (env : Twap.Env) (e : Twap.Engine)
    (request : Twap.ExecutionRequest) :
  Twap.Success (snd (Twap.executeInterval env e request)) = true ->
  exists order,
    Database.GetOrder (Twap.db e) (Twap.failGetOrder env)
                      (Twap.OrderID request) = inl order /\
    Database.TargetChain order ∈ Twap.adapters e /\
    Twap.slippageRejected request (Twap.marketPriceOf env e order request)
    = None.
Proof.
  unfold Twap.executeInterval.
  destruct (Database.GetOrder _ _ _) as [order|err]; [|discriminate].
  destruct (bool_decide_reflect
              (Database.TargetChain order ∈ Twap.adapters e)) as [Hin|Hin];
    [|discriminate].
  cbn [negb]. cbv zeta.
  destruct (Twap.slippageRejected _ _) eqn:Hslip; [discriminate|].
  intros _. exists order. auto.
Qed.

(** ** Store writes of an interval (C6) *)





(** ** Price validation (C7) *)

Lemma slippageRejected_cases (request : Twap.ExecutionRequest)
    (marketPrice : Decimal) :
  Twap.slippageRejected request marketPrice
  = if IsZero (Twap.PriceHint request) then None
    else if Twap.MaxSlippage request
            <? Twap.calculateSlippage (Twap.PriceHint request) marketPrice
         then Some (Twap.calculateSlippage (Twap.PriceHint request) marketPrice)
         else None.
Proof.
  unfold Twap.slippageRejected. now destruct (IsZero _).
Qed.

(** The scheduler copies the order's bound into the request. *)
Lemma processOrder_queues_order_bound (env : Twap.Env) (e e' : Twap.Engine)
    (order : Database.Order) (err : option Twap.ProcessError) :
  Twap.processOrder env e order = Some (e', err) ->
  forall rq, In rq (Twap.executionQueue e') ->
    In rq (Twap.executionQueue e) \/
    (Twap.OrderID rq = Database.ID order /\
     Twap.MaxSlippage rq = Database.MaxSlippage order).
Proof.
  unfold Twap.processOrder.
  destruct (Database.CanExecuteInterval _ _) as [[|]|]; try discriminate;
    [|intros [= <- _]; auto].
  destruct (Database.GetExecutionHistory _ _ _) as [history|];
    [|intros [= <- _]; auto].
  destruct (_ <=? _).
  { destruct (Database.UpdateOrder _ _ _ _). intros [= <- _]. auto. }
  destruct (_ <=? 0); [intros [= <- _]; auto|].
  destruct (Div _ _) as [target|]; [|discriminate].
  destruct (_ && _); [intros [= <- _]; auto|].
  destruct (Nat.ltb _ _); intros [= <- _]; auto.
  cbn. intros rq Hin. apply List.in_app_iff in Hin as [Hin|[<-|[]]]; auto.
Qed.

(** The basis points of the rounded ratio against those of the exact
    one. *)
Lemma rounded_ratio_bps (D E : Z) :
  0 <= D -> 0 < E ->
  let bps := D * 10000 / E in
  let ratio := (2 * (D * 10 ^ 16) + E) / (2 * E) in
  bps * 10 ^ 12 <= ratio <= (bps + 1) * 10 ^ 12 /\
  ratio * 10000 / 10 ^ 16
  = bps + (if 2 * 10 ^ 12 * ((bps + 1) * E - D * 10000) <=? E then 1 else 0).
Proof.
  intros HD HE bps ratio.
  pose proof (Z.div_mod (D * 10000) E ltac:(lia)) as Hdm. fold bps in Hdm.
  pose proof (Z.mod_pos_bound (D * 10000) E HE) as Hm.
  assert (Hbps : 0 <= bps) by (apply Z.div_pos; lia).
  change (10 ^ 16) with (10 ^ 12 * 10000) in *.
  set (P := 10 ^ 12) in *.
  assert (HP : P = 1000000000000) by reflexivity.
  assert (Hlo : bps * P <= ratio).
  { apply Z.div_le_lower_bound; nia. }
  assert (Hhi : ratio <= (bps + 1) * P).
  { apply Z.lt_succ_r. apply Z.div_lt_upper_bound; nia. }
  split; [split; assumption|].
  rewrite Z.div_mul_cancel_r by lia.
  destruct (Z.leb_spec (2 * P * ((bps + 1) * E - D * 10000)) E) as [Hc|Hc].
  - assert (Hr : (bps + 1) * P <= ratio).
    { apply Z.div_le_lower_bound; nia. }
    symmetry. apply (Z.div_unique _ _ _ (ratio - (bps + 1) * P)); lia.
  - assert (Hr : ratio < (bps + 1) * P).
    { apply Z.div_lt_upper_bound; nia. }
    symmetry. apply (Z.div_unique _ _ _ (ratio - bps * P)); lia.
Qed.

(** [calculateSlippage] of a positive expected price: the ratio rounded
    half up at sixteen decimals, times 10000, through [float64]. *)
Lemma calculateSlippage_ratio (expected actual : Decimal) :
  0 < value expected ->
  let e := fst (RescalePair expected actual) in
  let a := snd (RescalePair expected actual) in
  let D := Z.abs (value e - value a) in
  0 < value e /\
  Spec.slippage_bps expected actual = D * 10000 / value e /\
  Twap.calculateSlippage expected actual
  = int_of_float64
      (Float64 (New ((2 * (D * 10 ^ 16) + value e) / (2 * value e) * 10000)
                    (-16))).
Proof.
  intros Hpos e a D.
  pose proof (RescalePair_values expected actual) as Hpair. cbv zeta in Hpair.
  set (base := Z.min (exp expected) (exp actual)) in *.
  assert (He : e = New (value expected * 10 ^ (exp expected - base)) base)
    by (subst e; rewrite Hpair; reflexivity).
  assert (Ha : a = New (value actual * 10 ^ (exp actual - base)) base)
    by (subst a; rewrite Hpair; reflexivity).
  assert (HE : 0 < value e).
  { rewrite He. cbn [value].
    apply Z.mul_pos_pos; [exact Hpos|apply pow10_pos; subst base; lia]. }
  split; [exact HE|]. split.
  - unfold Spec.slippage_bps, IsZero.
    destruct (Z.eqb_spec (value expected) 0); [lia|].
    subst D e a. destruct (RescalePair expected actual). reflexivity.
  - unfold Twap.calculateSlippage, IsZero.
    destruct (Z.eqb_spec (value expected) 0); [lia|].
    assert (Hdiff : Abs (Sub expected actual) = New D base).
    { unfold Sub. subst D e a. rewrite Hpair. reflexivity. }
    rewrite Hdiff.
    rewrite Div_half_up.
    2: { cbn [value]. subst D. apply Z.abs_nonneg. }
    2: { exact Hpos. }
    2: { cbn [exp]. subst base. lia. }
    cbv zeta. unfold Mul, NewFromInt. cbn [value exp].
    rewrite He. cbn [value]. rewrite Z.add_0_r. reflexivity.
Qed.


(** Below [2 ^ 62] basis points the engine's slippage is not below an
    integer that the specification's reaches. *)
Lemma calculateSlippage_lower (expected actual : Decimal) (n : Z) :
  0 < value expected ->
  Spec.slippage_bps expected actual < 2 ^ 62 ->
  0 <= n <= 2 ^ 52 ->
  n <= Spec.slippage_bps expected actual ->
  n <= Twap.calculateSlippage expected actual.
Proof.
  intros Hpos Hfits Hn Hle.
  destruct (calculateSlippage_ratio expected actual Hpos) as (HE & Hbps & ->).
  rewrite Hbps in *.
  destruct (RescalePair expected actual) as [e a]. cbn [fst snd] in *.
  set (D := Z.abs (value e - value a)) in *.
  assert (HD : 0 <= D) by (subst D; apply Z.abs_nonneg).
  destruct (rounded_ratio_bps D (value e) HD HE) as ((Hlo & Hhi) & _).
  cbv zeta in Hlo, Hhi.
  set (bps := D * 10000 / value e) in *.
  set (ratio := (2 * (D * 10 ^ 16) + value e) / (2 * value e)) in *.
  rewrite int_of_Float64_sixteen by lia.
  destruct (Z.eqb_spec (ratio * 10000) 0) as [Hz|Hnz]; [lia|].
  change (10 ^ 16) with (10 ^ 12 * 10000) in *.
  apply int_of_nearest_lower; try lia; nia.
Qed.

(** Outside these ranges the conversion shows.  From 16384 basis points
    on, the [float64] may be the next integer where the decimal does not
    reach it: 1 against 2.9999999999999999 is 19999 basis points, the
    rounded ratio stays below 20000, and the engine's slippage is 20000.
    And a slippage beyond the range of [int] comes out as the smallest
    [int] (on amd64), which is above no bound. *)
Lemma calculateSlippage_beyond_the_ranges :
  let actual := New 29999999999999999 (-16) in
  (Spec.slippage_bps (NewFromInt 1) actual = 19999 /\
   Spec.rounds_to_next_bps (NewFromInt 1) actual = false /\
   Twap.calculateSlippage (NewFromInt 1) actual = 20000) /\
  Twap.calculateSlippage (New 1 (-30)) (New 1 30) = MinInt64.
Proof. vm_compute. repeat split. Qed.

(** The request of [ExecuteOrderManually] has the order's bound and no
    price hint. *)
Lemma ExecuteOrderManually_request (env : Twap.Env) (e e' : Twap.Engine)
    (orderID : string) (request : Twap.ExecutionRequest) :
  Twap.ExecuteOrderManually env e orderID = Some (e', inl request) ->
  exists order,
    Database.GetOrder (Twap.db e) (Twap.failGetOrder env) orderID
    = inl order /\
    Twap.OrderID request = orderID /\
    Twap.MaxSlippage request = Database.MaxSlippage order /\
    IsZero (Twap.PriceHint request) = true /\
    Twap.executionQueue e' = Twap.executionQueue e ++ [request].
Proof.
  unfold Twap.ExecuteOrderManually.
  destruct (Database.GetOrder _ _ _) as [order|]; [|discriminate].
  destruct (Database.GetExecutionHistory _ _ _) as [history|];
    [|discriminate].
  destruct (_ <=? _); [discriminate|]. cbv zeta.
  destruct (Div _ _) as [target|]; [|discriminate].
  destruct (Nat.ltb _ _); [|discriminate].
  intros [= <- <-]. exists order. repeat split.
Qed.





(** At the boundary: a slippage of 100 basis points passes a bound of
    100 and fails a bound of 99; a rejected interval writes nothing. *)
Lemma slippage_boundary :
  let run := fun S =>
    Twap.executeInterval (Scenario.clock Scenario.at00)
                         (Scenario.guardedEngine S) (Scenario.guardedRequest S) in
  Twap.calculateSlippage (NewFromInt 2000) (NewFromInt 2020) = 100 /\
  Twap.Success (snd (run 100)) = true /\
  run 99 = (Scenario.guardedEngine 99,
            Twap.failure (Twap.ErrSlippageExceeded 100 99)) /\
  run 50 = (Scenario.guardedEngine 50,
            Twap.failure (Twap.ErrSlippageExceeded 100 50)).
Proof. vm_compute. repeat split. Qed.

(** ** TWAP over the price cache (C8) *)

Lemma getPricePoints_after (now : Z) (e : Twap.Engine) (tokenPair : string)
    (window : Z) :
  Twap.getPricePoints now e tokenPair window
  = Spec.points_after now window (default [] (Twap.priceCache e !! tokenPair)).
Proof.
  unfold Twap.getPricePoints, Spec.points_after.
  now destruct (Twap.priceCache e !! tokenPair).
Qed.

Lemma points_after_inside (now window : Z) (l : list Twap.PricePoint) :
  Forall (fun p => Database.Before (Twap.Timestamp p) (now - window) = false)
         (Spec.points_after now window l).
Proof.
  apply List.Forall_forall. intros p Hin.
  apply List.filter_In in Hin as [_ Hp].
  apply Z.ltb_lt in Hp. unfold Database.Before. apply Z.ltb_ge. lia.
Qed.


Lemma twap_loop_sums (windowStart : Z) (points : list Twap.PricePoint) :
  Forall (fun p => Database.Before (Twap.Timestamp p) windowStart = false)
         points ->
  forall (prev : option Twap.PricePoint) (totalValue totalWeight : Decimal),
    Twap.twap_loop windowStart prev points totalValue totalWeight
    = (List.fold_left Add
         (List.map (fun pw => Mul (Twap.Price (fst pw)) (snd pw))
                   (combine points (Spec.loop_weights prev points)))
         totalValue,
       List.fold_left Add (Spec.loop_weights prev points) totalWeight).
Proof.
  induction 1 as [|p rest Hp _ IH]; intros prev tv tw.
  - now destruct prev.
  - cbn [Twap.twap_loop]. rewrite Hp, IH. now destruct prev.
Qed.

Lemma twap_loop_window (windowStart : Z) (points : list Twap.PricePoint) :
  Forall (fun p => Database.Before (Twap.Timestamp p) windowStart = false)
         points ->
  Twap.twap_loop windowStart None points Uninit Uninit
  = (Spec.weighted_value points, Spec.total_weight points).
Proof.
  intros Hin. now rewrite (twap_loop_sums windowStart points Hin).
Qed.







(** What the query computes: it takes the cached points strictly after
    [now - window]; no point gives 0 (with the no-data error), one point
    gives its price, and two or more give the weighted sum of the prices
    divided by the sum of the weights, the first weight being 1 and the
    others the whole seconds since the previous point. *)
Lemma calculateTWAP_over_points_after_cutoff (now : Z) (e : Twap.Engine)
    (tokenPair : string) (windowMinutes : Z) :
  let window := windowMinutes * Database.Minute in
  let points :=
    Spec.points_after now window
                      (default [] (Twap.priceCache e !! tokenPair)) in
  let twap := Twap.calculateTWAP now now e tokenPair windowMinutes in
  Twap.getPricePoints now e tokenPair window = points /\
  (points = [] -> twap = (Zero, Some Twap.ErrNoPriceData)) /\
  (forall p, points = [p] -> twap = (Twap.Price p, None)) /\
  ((2 <= length points)%nat ->
   IsZero (Spec.total_weight points) = false ->
   exists q,
     Div (Spec.weighted_value points) (Spec.total_weight points) = Some q /\
     twap = (q, None)).
Proof.
  intros window points twap.
  assert (Hpoints : Twap.getPricePoints now e tokenPair window = points)
    by apply getPricePoints_after.
  split; [exact Hpoints|].
  subst twap. unfold Twap.calculateTWAP. fold window. rewrite Hpoints.
  split; [|split].
  - now intros ->.
  - now intros p ->.
  - intros Hlen Hweight.
    destruct points as [|p0 [|p1 rest]] eqn:Hp; cbn in Hlen; try lia.
    rewrite <- Hp in *.
    rewrite (twap_loop_window (now - window) points
               (points_after_inside now window _)).
    rewrite Hweight.
    destruct (Div_is_Some (Spec.weighted_value points)
                          (Spec.total_weight points) Hweight) as [q Hq].
    rewrite Hq. exists q. split; reflexivity.
Qed.

(** Three points in the window: weights 1, 360 and 180 seconds, and a
    TWAP of 1092800 / 541. *)
Lemma calculateTWAP_three_points :
  let e := Scenario.engine Scenario.fresh [] Scenario.threePoints in
  let points := Scenario.threePoints in
  (2 <= length points)%nat /\
  IsZero (Spec.total_weight points) = false /\
  exists q,
    Div (Spec.weighted_value points) (Spec.total_weight points) = Some q /\
    Twap.calculateTWAP Scenario.at00 Scenario.at00 e "ETH_USDC" 20 = (q, None).
Proof.
  intros e points.
  assert (Hlen : (2 <= length points)%nat) by (cbn; lia).
  assert (Hw : IsZero (Spec.total_weight points) = false) by reflexivity.
  split; [exact Hlen|]. split; [exact Hw|].
  exact (proj2 (proj2 (proj2 (calculateTWAP_over_points_after_cutoff
                                Scenario.at00 e "ETH_USDC" 20))) Hlen Hw).
Defined.

Lemma three_points_twap :
  let e := Scenario.engine Scenario.fresh [] Scenario.threePoints in
  Spec.weights Scenario.threePoints
  = [NewFromInt 1; NewFromInt 360; NewFromInt 180] /\
  Spec.total_weight Scenario.threePoints = NewFromInt 541 /\
  Spec.weighted_value Scenario.threePoints = NewFromInt 1092800 /\
  Twap.calculateTWAP Scenario.at00 Scenario.at00 e "ETH_USDC" 20
  = (New 20199630314232902033 (-16), None).
Proof. vm_compute. repeat split. Qed.

(** C8: a point whose timestamp is exactly [now - window] is within the
    window of the specification; [getPricePoints] leaves it out, and the
    query over a cache holding that single point answers 0 (no data)
    instead of the point's price 2000. *)
Theorem C8_point_on_window_edge_is_dropped :
  let e := Scenario.engine Scenario.fresh [] [Scenario.edgePoint] in
  let now := Scenario.at00 in
  Twap.Timestamp Scenario.edgePoint = now - 20 * Database.Minute /\
  Spec.points_since now (20 * Database.Minute) [Scenario.edgePoint]
  = [Scenario.edgePoint] /\
  Twap.getPricePoints now e "ETH_USDC" (20 * Database.Minute) = [] /\
  Twap.calculateTWAP now now e "ETH_USDC" 20
  = (Zero, Some Twap.ErrNoPriceData) /\
  Equal (Twap.Price Scenario.edgePoint) (NewFromInt 2000) = true /\
  IsZero (fst (Twap.calculateTWAP now now e "ETH_USDC" 20)) = true.
Proof. vm_compute. repeat split. Qed.

(** ** Replayed events (C9) *)

Lemma wrap64_succ_neq (x : Z) : Twap.wrap64 (x + 1) <> x.
Proof.
  unfold Twap.wrap64. intros H.
  assert (Hm : (x + 1 + 2 ^ 63) mod 2 ^ 64 = x + 2 ^ 63) by lia.
  pose proof (Z.mod_pos_bound (x + 1 + 2 ^ 63) (2 ^ 64) ltac:(lia)) as Hb.
  destruct (Z.eq_dec (x + 2 ^ 63) (2 ^ 64 - 1)) as [E|E].
  - replace (x + 1 + 2 ^ 63) with (2 ^ 64) in Hm by lia.
    rewrite Z.mod_same in Hm by lia. lia.
  - rewrite Z.mod_small in Hm by lia. lia.
Qed.

Lemma default_handlers :
  Orchestrator.setupEventHandlers !! "htlc_claimed"
  = Some Orchestrator.HandleHTLCClaimed /\
  Orchestrator.setupEventHandlers !! "order_created"
  = Some Orchestrator.HandleOrderCreated /\
  Orchestrator.setupEventHandlers !! "order_executed"
  = Some Orchestrator.HandleOrderExecuted.
Proof. vm_compute. repeat split. Qed.

(** C9, as the code has it: every delivery of [htlc_claimed] adds one to
    [SuccessfulSwaps], and every delivery of [order_created] adds one to
    [TotalOrders] and to [ActiveOrders], a replay like the first
    delivery; neither touches the store or the handler table. *)
Theorem C9_each_delivery_counts (env : Orchestrator.Env)
    (o : Orchestrator.Orchestrator) (ev : Orchestrator.ChainEvent) :
  Orchestrator.eventHandlers o = Orchestrator.setupEventHandlers ->
  (Orchestrator.EventType ev = "htlc_claimed" ->
   exists o',
     Orchestrator.handleEvent env o ev = Some (o', None) /\
     Orchestrator.db o' = Orchestrator.db o /\
     Orchestrator.eventHandlers o' = Orchestrator.eventHandlers o /\
     Orchestrator.SuccessfulSwaps (Orchestrator.stats o')
     = Twap.wrap64 (Orchestrator.SuccessfulSwaps (Orchestrator.stats o) + 1) /\
     Orchestrator.stats o' <> Orchestrator.stats o) /\
  (Orchestrator.EventType ev = "order_created" ->
   exists o',
     Orchestrator.handleEvent env o ev = Some (o', None) /\
     Orchestrator.db o' = Orchestrator.db o /\
     Orchestrator.eventHandlers o' = Orchestrator.eventHandlers o /\
     Orchestrator.TotalOrders (Orchestrator.stats o')
     = Twap.wrap64 (Orchestrator.TotalOrders (Orchestrator.stats o) + 1) /\
     Orchestrator.ActiveOrders (Orchestrator.stats o')
     = Twap.wrap64 (Orchestrator.ActiveOrders (Orchestrator.stats o) + 1) /\
     Orchestrator.stats o' <> Orchestrator.stats o).
Proof.
  intros Hh. destruct default_handlers as (Hclaimed & Hcreated & _).
  split; intros Hty; unfold Orchestrator.handleEvent; rewrite Hh, Hty.
  - rewrite Hclaimed.
    exists (fst (Orchestrator.handleHTLCClaimed o ev)).
    split; [reflexivity|]. split; [reflexivity|]. split; [exact Hh|].
    split; [reflexivity|].
    intros E. apply (f_equal Orchestrator.SuccessfulSwaps) in E.
    exact (wrap64_succ_neq _ E).
  - rewrite Hcreated.
    exists (fst (Orchestrator.handleOrderCreated o ev)).
    split; [reflexivity|]. split; [reflexivity|]. split; [exact Hh|].
    do 2 (split; [reflexivity|]).
    intros E. apply (f_equal Orchestrator.TotalOrders) in E.
    exact (wrap64_succ_neq _ E).
Qed.

(** A claim event delivered to the default handlers. *)
Lemma C9_delivery_witness :
  let o := Scenario.orchestrator Scenario.completedOrder in
  let ev := Scenario.event "htlc_claimed" Scenario.aboutOrder1 in
  Orchestrator.eventHandlers o = Orchestrator.setupEventHandlers /\
  Orchestrator.EventType ev = "htlc_claimed" /\
  exists o',
    Orchestrator.handleEvent (Scenario.quiet Scenario.at00) o ev
    = Some (o', None) /\
    Orchestrator.SuccessfulSwaps (Orchestrator.stats o') = 1.
Proof.
  intros o ev.
  destruct (proj1 (C9_each_delivery_counts (Scenario.quiet Scenario.at00)
                     o ev eq_refl) eq_refl)
    as (o' & Hrun & _ & _ & Hcount & _).
  split; [reflexivity|]. split; [reflexivity|].
  exists o'. split; [exact Hrun|]. exact Hcount.
Defined.

(** C9 as stated fails: the same [htlc_claimed] event delivered twice
    counts two successful swaps, and the same [order_created] event
    delivered twice counts two orders. *)
Lemma C9_counterexample :
  let o := Scenario.orchestrator Scenario.completedOrder in
  let twice := fun ev =>
    Orchestrator.stats
      (Scenario.deliver Scenario.at00 (Scenario.deliver Scenario.at00 o ev) ev) in
  let once := fun ev =>
    Orchestrator.stats (Scenario.deliver Scenario.at00 o ev) in
  let claimed := Scenario.event "htlc_claimed" Scenario.aboutOrder1 in
  let created := Scenario.event "order_created" Scenario.aboutOrder1 in
  Orchestrator.SuccessfulSwaps (once claimed) = 1 /\
  Orchestrator.SuccessfulSwaps (twice claimed) = 2 /\
  Orchestrator.TotalOrders (once created) = 1 /\
  Orchestrator.TotalOrders (twice created) = 2 /\
  Orchestrator.ActiveOrders (twice created) = 2 /\
  twice claimed <> once claimed /\
  twice created <> once created.
Proof. vm_compute. repeat split; discriminate. Qed.

(** A replayed [htlc_created] event, for its part, is refused by the
    store: once the HTLC of an address is recorded, a second delivery
    with the same answer of the adapter fails on the primary key and
    leaves the orchestrator as it was. *)
Lemma htlc_created_replay_refused (env : Orchestrator.Env)
    (o o1 : Orchestrator.Orchestrator) (ev : Orchestrator.ChainEvent) :
  Orchestrator.handleHTLCCreated env o ev = Some (o1, None) ->
  Orchestrator.handleHTLCCreated env o1 ev
  = Some (o1, Some (Orchestrator.ErrCreateHTLC Database.ErrDriver)).
Proof.
  unfold Orchestrator.handleHTLCCreated.
  destruct (Orchestrator.Data ev !! "htlc_address") as [[addr|]|];
    try discriminate.
  destruct (bool_decide_reflect
              (Orchestrator.ChainID ev ∈ Orchestrator.adapters o))
    as [Hin|Hin]; [|discriminate].
  cbn [negb]. destruct (Orchestrator.getHTLCStatus env addr) as [hs|];
    [|discriminate].
  destruct (Nat.ltb _ 8); [discriminate|].
  unfold Database.CreateHTLC.
  destruct (Orchestrator.failCreateHTLC env); [discriminate|].
  destruct (List.existsb _ (Database.htlcs (Orchestrator.db o)));
    [discriminate|].
  destruct (negb _); [discriminate|].
  intros [= <-]. cbn [Orchestrator.adapters Orchestrator.set_db
                      Orchestrator.db Database.htlcs].
  rewrite (bool_decide_eq_true_2 _ Hin). cbn [negb].
  rewrite List.existsb_app. cbn [List.existsb Database.htlc_Address].
  rewrite String.eqb_refl, orb_true_r. reflexivity.
Qed.

(** ** HTLC claim (C10) *)

(** Test vectors of the two hash functions. *)
Lemma hash_test_vectors :
  Bytes.of_be (Keccak.keccak256 [])
  = 89477152217924674838424037953991966239322087453347756267410168184682657981552
  /\
  Bytes.of_be (Keccak.keccak256 (repeat 0 32))
  = 18569430475105882587588266137607568536673111973893317399460219858819262702947
  /\
  Bytes.of_be (Sha256.sha256 [97; 98; 99])
  = 84342368487090800366523834928142263660104883695016514377462985829716817089965.
Proof. vm_compute. repeat split. Qed.

(** C10, as the contract has it: a claim on an existing order succeeds
    exactly when the order is completed and the Keccak-256 hash of the
    32-byte secret is the order's hash; it then sets the status to
    claimed and leaves every other order alone.  A claim on an order
    that is not completed, or with a secret of another hash, reverts. *)
Theorem C10_claim_by_keccak (ctx : Bridge.Context) (st : Bridge.State)
    (orderId secret : Z) (o : Bridge.TWAPOrder) :
  Bridge.orders st !! orderId = Some o ->
  Bridge.user o <> 0 ->
  0 < default 0 (Bridge.userOrderCount st !! Bridge.user o) ->
  (Bridge.status o = Bridge.Completed /\
   Bridge.keccak256_bytes32 secret = Bridge.htlcHash o ->
   exists st',
     Bridge.claimHTLC ctx st orderId secret = Some st' /\
     Bridge.orders st' !! orderId = Some (Bridge.set_status o Bridge.Claimed) /\
     (forall other, other <> orderId ->
        Bridge.orders st' !! other = Bridge.orders st !! other)) /\
  (Bridge.status o <> Bridge.Completed \/
   Bridge.keccak256_bytes32 secret <> Bridge.htlcHash o ->
   Bridge.claimHTLC ctx st orderId secret = None).
Proof.
  intros Ho Huser Hcount. unfold Bridge.claimHTLC, Bridge.orderExists.
  rewrite Ho. apply Z.eqb_neq in Huser. rewrite Huser. cbn [mbind option_bind].
  split.
  - intros [Hst Hhash].
    rewrite (bool_decide_eq_true_2 _ Hst). apply Z.eqb_eq in Hhash.
    rewrite Hhash. cbn [Bridge.require mbind option_bind].
    unfold Bridge.sub256.
    change (Bridge.user (Bridge.set_status o Bridge.Claimed))
      with (Bridge.user o).
    destruct (Z.leb_spec 1
                (default 0 (Bridge.userOrderCount st !! Bridge.user o)));
      [|lia].
    cbn [mbind option_bind]. eexists. split; [reflexivity|].
    cbn [Bridge.orders]. split.
    + apply lookup_insert_eq.
    + intros other Hother. apply lookup_insert_ne. congruence.
  - intros [Hst|Hhash].
    + rewrite (bool_decide_eq_false_2 _ Hst). reflexivity.
    + apply Z.eqb_neq in Hhash. rewrite Hhash.
      destruct (bool_decide _); reflexivity.
Qed.

(** A claim of the order locked under the Keccak-256 hash of the
    secret. *)
Lemma C10_claim_witness :
  let h := Bridge.keccak256_bytes32 Scenario.secret in
  let st := Scenario.bridge h in
  Bridge.orders st !! 1 = Some (Scenario.lockedOrder h) /\
  Bridge.user (Scenario.lockedOrder h) <> 0 /\
  0 < default 0 (Bridge.userOrderCount st
                   !! Bridge.user (Scenario.lockedOrder h)) /\
  exists st',
    Bridge.claimHTLC Scenario.claimer st 1 Scenario.secret = Some st' /\
    Bridge.orders st' !! 1
    = Some (Bridge.set_status (Scenario.lockedOrder h) Bridge.Claimed).
Proof.
  intros h st.
  assert (Ho : Bridge.orders st !! 1 = Some (Scenario.lockedOrder h))
    by reflexivity.
  assert (Hu : Bridge.user (Scenario.lockedOrder h) <> 0)
    by (cbn; lia).
  assert (Hc : 0 < default 0 (Bridge.userOrderCount st
                                !! Bridge.user (Scenario.lockedOrder h)))
    by (vm_compute; reflexivity).
  repeat (split; [assumption|]).
  destruct (proj1 (C10_claim_by_keccak Scenario.claimer st 1 Scenario.secret
                     (Scenario.lockedOrder h) Ho Hu Hc)
                  (conj eq_refl eq_refl))
    as (st' & Hrun & Hnew & _).
  exists st'. split; assumption.
Defined.

(** C10 as stated fails: a completed order locked under the double
    SHA-256 hash of the secret cannot be claimed with that secret, and a
    completed order locked under its Keccak-256 hash is claimed with it
    although its double SHA-256 hash is another value. *)
Lemma C10_counterexample :
  let s := Scenario.secret in
  (Spec.sha256d_bytes32 s
   = 18040614654711140382944616088121943384587251593642672672480648815406405708649
   /\
   Bridge.claimHTLC Scenario.claimer
                    (Scenario.bridge (Spec.sha256d_bytes32 s)) 1 s = None) /\
  (Bridge.keccak256_bytes32 s
   = 37407611860197008291628965227953362310803734450480774269839928884691827945640
   /\
   Spec.sha256d_bytes32 s <> Bridge.keccak256_bytes32 s /\
   (Bridge.status <$>
      (Bridge.claimHTLC Scenario.claimer
                        (Scenario.bridge (Bridge.keccak256_bytes32 s)) 1 s
         ≫= fun st' => Bridge.orders st' !! 1))
   = Some Bridge.Claimed).
Proof. vm_compute. repeat split; discriminate. Qed.

(* ===================================================================== *)
(** * Further properties of the code *)

(** ** The order store *)

(** [UPDATE] does not write the id. *)
Lemma update_row_ID (now : Z) (order row : Database.Order) :
  Database.ID (Database.update_row now order row) = Database.ID row.
Proof.
  unfold Database.update_row.
  destruct (String.eqb _ _); reflexivity.
Qed.

(** The first row of an id after the update is the update of the first
    row of that id before. *)
Lemma find_update_row (now : Z) (order : Database.Order) (id : string)
    (rows : list Database.Order) :
  List.find (fun o => String.eqb (Database.ID o) id)
            (List.map (Database.update_row now order) rows)
  = Database.update_row now order
      <$> List.find (fun o => String.eqb (Database.ID o) id) rows.
Proof.
  induction rows as [|row rows IH]; [reflexivity|].
  cbn [List.map List.find]. rewrite update_row_ID.
  destruct (String.eqb (Database.ID row) id); [reflexivity|exact IH].
Qed.

(** No row is affected exactly when none is found. *)
Lemma filter_none_find_none (id : string) (rows : list Database.Order) :
  length (List.filter (fun o => String.eqb (Database.ID o) id) rows) = 0%nat <->
  List.find (fun o => String.eqb (Database.ID o) id) rows = None.
Proof.
  induction rows as [|row rows IH]; [cbn; tauto|].
  cbn [List.filter List.find].
  destruct (String.eqb (Database.ID row) id); cbn [length]; [|exact IH].
  split; discriminate.
Qed.

(** X1: reading back what [UpdateOrder] wrote.  For an order whose
    written values fit their columns (a whole executed amount, an
    average price of at most eighteen decimals, a last execution in
    whole microseconds, a status of at most twenty characters), a
    successful [UpdateOrder] followed by [GetOrder] of the same id
    returns the row that [GetOrder] returned before with the executed
    amount and the average price equal in value to the written ones,
    the last execution and the status as written, and [updated_at] set
    to the time of the statement; the [UpdatedAt] of the written order
    is not stored. *)
Theorem UpdateOrder_GetOrder_round_trip (db db' : Database.DB) (now : Z)
    (order : Database.Order) :
  Database.fitsOrderUpdate order = true ->
  Database.fitsTimestamp now = true ->
  Database.UpdateOrder db false now order = (db', None) ->
  exists row row',
    Database.GetOrder db false (Database.ID order) = inl row /\
    Database.GetOrder db' false (Database.ID order) = inl row' /\
    Equal (Database.ExecutedAmount row') (Database.ExecutedAmount order)
    = true /\
    Database.LastExecution row' = Database.LastExecution order /\
    Database.Status row' = Database.Status order /\
    Equal (Database.AveragePrice row') (Database.AveragePrice order)
    = true /\
    Database.UpdatedAt row' = now /\
    Database.with_tail row' (Database.UpdatedAt row)
      (Database.ExecutedAmount row) (Database.LastExecution row)
      (Database.Status row) (Database.AveragePrice row) = row.
Proof.
  intros _ _.
  unfold Database.UpdateOrder, Database.GetOrder.
  destruct (Nat.eqb _ 0) eqn:Hn; [discriminate|].
  intros [= <-]. cbn [Database.orders].
  rewrite find_update_row.
  destruct (List.find _ (Database.orders db)) as [row|] eqn:Hfind.
  - exists row, (Database.update_row now order row).
    split; [reflexivity|]. split; [reflexivity|].
    unfold Database.update_row.
    apply find_some in Hfind as [_ ->].
    cbn. rewrite !Equal_same. destruct row. repeat split.
  - apply filter_none_find_none in Hfind.
    apply Nat.eqb_neq in Hn. contradiction.
Qed.

(** The fresh order overwritten with the state of the order three
    quarters executed. *)
Lemma UpdateOrder_GetOrder_round_trip_witness :
  Database.fitsOrderUpdate Scenario.threeQuarters = true /\
  Database.fitsTimestamp Scenario.at00 = true /\
  exists db' row',
    Database.UpdateOrder Cases.store false Scenario.at00 Scenario.threeQuarters
    = (db', None) /\
    Database.GetOrder db' false "order-1" = inl row' /\
    Equal (Database.ExecutedAmount row') (NewFromInt 750) = true /\
    Database.Status row' = "executing".
Proof.
  assert (Hfits : Database.fitsOrderUpdate Scenario.threeQuarters = true)
    by (vm_compute; reflexivity).
  assert (Hnow : Database.fitsTimestamp Scenario.at00 = true)
    by (vm_compute; reflexivity).
  split; [exact Hfits|]. split; [exact Hnow|].
  eexists.
  assert (Hupdate : Database.UpdateOrder Cases.store false Scenario.at00
                      Scenario.threeQuarters
                    = (Database.mkDB
                         [Database.update_row Scenario.at00
                            Scenario.threeQuarters Scenario.fresh] [] [],
                       None)) by reflexivity.
  destruct (UpdateOrder_GetOrder_round_trip _ _ _ _ Hfits Hnow Hupdate)
    as (row & row' & _ & Hget & Hamount & _ & Hstatus & _).
  exists row'. split; [exact Hupdate|].
  split; [exact Hget|]. split; [exact Hamount|exact Hstatus].
Defined.

(** Rows of other ids are found as before. *)
Lemma find_update_row_other (now : Z) (order : Database.Order) (id : string)
    (rows : list Database.Order) :
  id <> Database.ID order ->
  List.find (fun o => String.eqb (Database.ID o) id)
            (List.map (Database.update_row now order) rows)
  = List.find (fun o => String.eqb (Database.ID o) id) rows.
Proof.
  intros Hid.
  induction rows as [|row rows IH]; [reflexivity|].
  cbn [List.map List.find]. rewrite update_row_ID.
  destruct (String.eqb (Database.ID row) id) eqn:Heq; [|exact IH].
  apply String.eqb_eq in Heq.
  rewrite update_row_other_id; [reflexivity|congruence].
Qed.

(** An updated row differs from the row in the written columns only. *)
Lemma update_row_columns (now : Z) (order row : Database.Order) :
  let row' := Database.update_row now order row in
  Database.with_tail row (Database.UpdatedAt row')
    (Database.ExecutedAmount row') (Database.LastExecution row')
    (Database.Status row') (Database.AveragePrice row') = row'.
Proof.
  unfold Database.update_row.
  destruct (String.eqb _ _); destruct row; reflexivity.
Qed.

(** X2: [UpdateOrder] reports [ErrOrderNotFound] exactly when the
    statement runs and no row has the id; on any error the store is as
    before.  In every case no row is added or removed, a row differs
    from its former self in the five written columns at most, the orders
    of other ids read back unchanged, and the execution history and the
    HTLC table are untouched. *)
Theorem UpdateOrder_frame (db : Database.DB) (fault : bool) (now : Z)
    (order : Database.Order) :
  let db' := fst (Database.UpdateOrder db fault now order) in
  let err := snd (Database.UpdateOrder db fault now order) in
  (err = Some Database.ErrOrderNotFound <->
   fault = false /\
   Database.GetOrder db false (Database.ID order)
   = inr Database.ErrOrderNotFound) /\
  (err <> None -> db' = db) /\
  (forall id, id <> Database.ID order ->
     Database.GetOrder db' false id = Database.GetOrder db false id) /\
  Forall2 (fun row row' =>
             Database.with_tail row (Database.UpdatedAt row')
               (Database.ExecutedAmount row') (Database.LastExecution row')
               (Database.Status row') (Database.AveragePrice row') = row')
          (Database.orders db) (Database.orders db') /\
  Database.execution_history db' = Database.execution_history db /\
  Database.htlcs db' = Database.htlcs db.
Proof.
  assert (Hsame : forall rows : list Database.Order,
            Forall2 (fun row row' =>
               Database.with_tail row (Database.UpdatedAt row')
                 (Database.ExecutedAmount row') (Database.LastExecution row')
                 (Database.Status row') (Database.AveragePrice row') = row')
              rows rows).
  { induction rows as [|row rows IH]; constructor; [|exact IH].
    destruct row; reflexivity. }
  unfold Database.UpdateOrder, Database.GetOrder.
  destruct fault; cbn [fst snd].
  { repeat split; try reflexivity; try discriminate; auto.
    intros [? _]; discriminate. }
  destruct (Nat.eqb _ 0) eqn:Hn; cbn [fst snd Database.orders
    Database.execution_history Database.htlcs].
  - apply Nat.eqb_eq, filter_none_find_none in Hn. rewrite Hn.
    repeat split; auto.
  - apply Nat.eqb_neq in Hn.
    destruct (List.find _ (Database.orders db)) as [row|] eqn:Hfind;
      [|apply filter_none_find_none in Hfind; contradiction].
    repeat split; try discriminate; try congruence.
    + intros [_ ?]; discriminate.
    + intros id Hid. rewrite find_update_row_other by exact Hid. reflexivity.
    + clear. induction (Database.orders db) as [|r rows IH];
        cbn [List.map]; constructor.
      * apply update_row_columns.
      * exact IH.
Qed.

(** *** Sorting *)

(** [ORDER BY] permutes the rows and leaves them sorted. *)
Lemma insert_by_perm {A : Type} (key : A -> Z) (x : A) (l : list A) :
  Permutation (Database.insert_by key x l) (x :: l).
Proof.
  induction l as [|y l IH]; [reflexivity|].
  cbn [Database.insert_by].
  destruct (key x <? key y); [reflexivity|].
  rewrite IH. apply perm_swap.
Qed.

Lemma fold_insert_by_perm {A : Type} (key : A -> Z) (l acc : list A) :
  Permutation (List.fold_left (fun acc x => Database.insert_by key x acc) l acc)
              (acc ++ l).
Proof.
  revert acc.
  induction l as [|x l IH]; intros acc; cbn [List.fold_left].
  - rewrite app_nil_r. reflexivity.
  - rewrite IH, insert_by_perm.
    change (x :: acc) with ([x] ++ acc).
    rewrite (Permutation_app_comm [x] acc), <- app_assoc. reflexivity.
Qed.

Lemma order_by_perm {A : Type} (key : A -> Z) (l : list A) :
  Permutation (Database.order_by key l) l.
Proof. apply (fold_insert_by_perm key l []). Qed.

Lemma insert_by_sorted {A : Type} (key : A -> Z) (x : A) (l : list A) :
  StronglySorted (fun a b => key a <= key b) l ->
  StronglySorted (fun a b => key a <= key b) (Database.insert_by key x l).
Proof.
  induction 1 as [|y l Hs IH Hall]; cbn [Database.insert_by].
  - repeat constructor.
  - destruct (key x <? key y) eqn:Hlt.
    + apply Z.ltb_lt in Hlt.
      constructor; [constructor; assumption|].
      constructor; [lia|].
      eapply List.Forall_impl; [|exact Hall]. cbn. intros; lia.
    + apply Z.ltb_ge in Hlt.
      constructor; [exact IH|].
      rewrite (List.Forall_forall (fun b => key y <= key b)).
      intros z Hz.
      apply (Permutation_in _ (insert_by_perm key x l)) in Hz.
      destruct Hz as [<-|Hz]; [exact Hlt|].
      rewrite (List.Forall_forall (fun b => key y <= key b)) in Hall. auto.
Qed.

Lemma order_by_sorted {A : Type} (key : A -> Z) (l : list A) :
  StronglySorted (fun a b => key a <= key b) (Database.order_by key l).
Proof.
  unfold Database.order_by.
  assert (H : StronglySorted (fun a b => key a <= key b) (@nil A))
    by constructor.
  revert H. generalize (@nil A).
  induction l as [|x l IH]; intros acc Hacc; cbn [List.fold_left];
    [exact Hacc|].
  apply IH, insert_by_sorted, Hacc.
Qed.

(** X3: [GetExecutionHistory] returns the records of the order, all of
    them and no others, in ascending order of interval number. *)
Theorem GetExecutionHistory_sorted (db : Database.DB) (orderID : string) :
  exists history,
    Database.GetExecutionHistory db false orderID = inl history /\
    StronglySorted
      (fun a b => Database.IntervalNumber a <= Database.IntervalNumber b)
      history /\
    Permutation history
      (List.filter (fun r => String.eqb (Database.OrderID r) orderID)
                   (Database.execution_history db)) /\
    (forall r, In r history <->
       In r (Database.execution_history db) /\ Database.OrderID r = orderID).
Proof.
  eexists. split; [reflexivity|].
  split; [apply order_by_sorted|].
  split; [apply order_by_perm|].
  intros r. split.
  - intros Hin. apply (Permutation_in _ (order_by_perm _ _)) in Hin.
    apply filter_In in Hin as [Hin Heq].
    apply String.eqb_eq in Heq. auto.
  - intros [Hin Heq].
    apply (Permutation_in _ (Permutation_sym (order_by_perm _ _))).
    apply filter_In. split; [exact Hin|]. apply String.eqb_eq, Heq.
Qed.

(** X4: reading back what [CreateExecutionRecord] wrote.  For a record
    of a stored order whose values fit their columns, the insert
    succeeds, and [GetExecutionHistory] of its order then returns, in
    ascending order of interval number, the former history and the
    record, its amount and price equal in value to the written ones;
    the histories of other orders are as before, and the orders and
    HTLC tables are untouched. *)
Theorem CreateExecutionRecord_GetExecutionHistory (db : Database.DB)
    (record : Database.ExecutionRecord) :
  Database.fitsExecutionRecord db record = true ->
  let db' := fst (Database.CreateExecutionRecord db false record) in
  let history := fun d id =>
    match Database.GetExecutionHistory d false id with
    | inl h => h
    | inr _ => []
    end in
  snd (Database.CreateExecutionRecord db false record) = None /\
  (exists stored,
     Permutation (history db' (Database.OrderID record))
                 (stored :: history db (Database.OrderID record)) /\
     Database.OrderID stored = Database.OrderID record /\
     Database.IntervalNumber stored = Database.IntervalNumber record /\
     Database.Timestamp stored = Database.Timestamp record /\
     Equal (Database.Amount stored) (Database.Amount record) = true /\
     Equal (Database.Price stored) (Database.Price record) = true /\
     Database.GasUsed stored = Database.GasUsed record /\
     Database.Slippage stored = Database.Slippage record /\
     Database.TxHash stored = Database.TxHash record /\
     Database.ChainID stored = Database.ChainID record) /\
  StronglySorted
    (fun a b => Database.IntervalNumber a <= Database.IntervalNumber b)
    (history db' (Database.OrderID record)) /\
  (forall id, id <> Database.OrderID record ->
     history db' id = history db id) /\
  Database.orders db' = Database.orders db /\
  Database.htlcs db' = Database.htlcs db.
Proof.
  intros _.
  unfold Database.CreateExecutionRecord, Database.GetExecutionHistory.
  cbn [fst snd Database.execution_history Database.orders Database.htlcs].
  split; [reflexivity|]. split; [|split; [|split; [|split; reflexivity]]].
  - exists record. rewrite !Equal_same. repeat split.
    rewrite !order_by_perm, List.filter_app. cbn [List.filter].
    rewrite String.eqb_refl.
    rewrite Permutation_app_comm. reflexivity.
  - apply order_by_sorted.
  - intros id Hid. rewrite List.filter_app. cbn [List.filter].
    destruct (String.eqb (Database.OrderID record) id) eqn:Heq.
    + apply String.eqb_eq in Heq. congruence.
    + rewrite app_nil_r. reflexivity.
Qed.

(** A first record for the fresh order. *)
Lemma CreateExecutionRecord_GetExecutionHistory_witness :
  Database.fitsExecutionRecord Cases.store Cases.filled = true /\
  exists stored,
    Database.GetExecutionHistory
      (fst (Database.CreateExecutionRecord Cases.store false Cases.filled))
      false "order-1" = inl [stored] /\
    Equal (Database.Price stored) (New 19905 (-1)) = true.
Proof.
  assert (Hfits : Database.fitsExecutionRecord Cases.store Cases.filled = true)
    by (vm_compute; reflexivity).
  split; [exact Hfits|].
  pose proof (CreateExecutionRecord_GetExecutionHistory
                Cases.store Cases.filled Hfits) as H.
  cbv zeta in H.
  destruct H as (_ & (stored & Hperm & _ & _ & _ & _ & Hprice & _) & _).
  exists stored. split; [|exact Hprice].
  apply Permutation_length_1_inv in Hperm.
  cbn in Hperm |- *. rewrite Hperm. reflexivity.
Defined.

(** The rows that pass the [WHERE] clause. *)
Lemma select_executable_filter (now : Z) (rows l : list Database.Order) :
  Database.select_executable now rows = Some l ->
  forall o, In o l <->
    In o rows /\
    Database.executable_row now Database.currentHeight o = Some true.
Proof.
  revert l.
  induction rows as [|row rows IH]; intros l; cbn [Database.select_executable].
  - intros [= <-] o. cbn. tauto.
  - destruct (Database.executable_row now Database.currentHeight row)
      as [b|] eqn:Hrow; [|discriminate].
    destruct (Database.select_executable now rows) as [l'|]; [|discriminate].
    intros [= <-] o. specialize (IH l' eq_refl o).
    destruct b; cbn [In]; rewrite IH; split.
    + intros [<-|[? ?]]; auto.
    + intros [[<-|?] ?]; auto.
    + intros [? ?]; auto.
    + intros [[<-|?] ?]; [congruence|auto].
Qed.

(** The [WHERE] clause, spelled out. *)
Lemma executable_row_true (now height : Z) (o : Database.Order) :
  Database.executable_row now height o = Some true ->
  (Database.Status o = "pending" \/ Database.Status o = "executing") /\
  height < Database.TimeoutHeight o /\
  match Database.LastExecution o with
  | None => True
  | Some last =>
      Database.ExecutionIntervals o <> 0 /\
      last + Database.Minute * Z.quot (Database.WindowMinutes o)
                                      (Database.ExecutionIntervals o) <= now
  end.
Proof.
  unfold Database.executable_row.
  destruct (String.eqb (Database.Status o) "pending") eqn:Hp;
    destruct (String.eqb (Database.Status o) "executing") eqn:Hx;
    cbn [orb negb]; try discriminate.
  all: destruct (height <? Database.TimeoutHeight o) eqn:Hh;
    cbn [negb]; try discriminate.
  all: apply Z.ltb_lt in Hh.
  all: destruct (Database.LastExecution o) as [last|].
  all: try (destruct (Database.ExecutionIntervals o =? 0) eqn:Hk;
            [discriminate|]; apply Z.eqb_neq in Hk; intros [= Hle];
            apply Z.leb_le in Hle).
  all: try (apply String.eqb_eq in Hp).
  all: try (apply String.eqb_eq in Hx).
  all: repeat split; auto.
Qed.

(** The orders the query returns, as a set. *)
Lemma GetExecutableOrders_members (db : Database.DB) (now : Z)
    (l : list Database.Order) :
  Database.GetExecutableOrders db false now = inl l ->
  forall o, In o l <->
    In o (Database.orders db) /\
    Database.executable_row now Database.currentHeight o = Some true.
Proof.
  unfold Database.GetExecutableOrders.
  destruct (Database.select_executable now (Database.orders db)) as [l'|] eqn:Hsel;
    [|discriminate].
  intros [= <-] o.
  rewrite <- (select_executable_filter _ _ _ Hsel).
  split; apply Permutation_in; [|symmetry]; apply order_by_perm.
Qed.

(** X5: [GetExecutableOrders] returns, oldest first, exactly the
    stored orders that are pending or executing, whose timeout height is
    above the mock current height of 1000000, and that were never
    executed or whose last execution lies at least
    [window_minutes / execution_intervals] whole minutes back. *)
Theorem GetExecutableOrders_selection (db : Database.DB) (now : Z)
    (l : list Database.Order) :
  Database.GetExecutableOrders db false now = inl l ->
  StronglySorted (fun a b => Database.CreatedAt a <= Database.CreatedAt b) l /\
  (forall o, In o l <->
     In o (Database.orders db) /\
     Database.executable_row now Database.currentHeight o = Some true) /\
  (forall o, In o l ->
     (Database.Status o = "pending" \/ Database.Status o = "executing") /\
     1000000 < Database.TimeoutHeight o /\
     match Database.LastExecution o with
     | None => True
     | Some last =>
         Database.ExecutionIntervals o <> 0 /\
         last + Database.Minute * Z.quot (Database.WindowMinutes o)
                                         (Database.ExecutionIntervals o) <= now
     end).
Proof.
  intros Hget.
  pose proof (GetExecutableOrders_members _ _ _ Hget) as Hmem.
  split.
  - unfold Database.GetExecutableOrders in Hget.
    destruct (Database.select_executable now (Database.orders db));
      [|discriminate].
    injection Hget as <-. apply order_by_sorted.
  - split; [exact Hmem|].
    intros o Hin. apply Hmem in Hin as [_ Hrow].
    apply (executable_row_true _ _ _ Hrow).
Qed.

(** The store of the fresh order, queried at [Scenario.at00]. *)
Lemma GetExecutableOrders_selection_witness :
  Database.GetExecutableOrders Cases.store false Scenario.at00
  = inl [Scenario.fresh] /\
  forall o, In o [Scenario.fresh] ->
    (Database.Status o = "pending" \/ Database.Status o = "executing") /\
    1000000 < Database.TimeoutHeight o.
Proof.
  assert (Hget : Database.GetExecutableOrders Cases.store false Scenario.at00
                 = inl [Scenario.fresh]) by reflexivity.
  split; [exact Hget|].
  intros o Hin.
  destruct (proj2 (proj2 (GetExecutableOrders_selection _ _ _ Hget)) o Hin)
    as (Hstatus & Hheight & _).
  split; assumption.
Defined.

(** [CanExecuteInterval] on an order the query selected: no division by
    zero, and the same answer as the query where the interval fits a
    [time.Duration]. *)
Lemma selected_order_checked (db : Database.DB) (now t : Z)
    (l : list Database.Order) (o : Database.Order) :
  Database.GetExecutableOrders db false now = inl l ->
  In o l ->
  Database.CanExecuteInterval t o <> None.
Proof.
  intros Hget Hin.
  apply (GetExecutableOrders_members _ _ _ Hget) in Hin as [_ Hrow].
  apply executable_row_true in Hrow as (_ & _ & Hlast).
  unfold Database.CanExecuteInterval, Database.GetNextExecutionTime.
  destruct (Database.LastExecution o) as [last|]; [|discriminate].
  destruct Hlast as [Hk _].
  apply Z.eqb_neq in Hk. rewrite Hk. discriminate.
Qed.

Lemma selected_order_due (db : Database.DB) (now : Z)
    (l : list Database.Order) (o : Database.Order) :
  Database.GetExecutableOrders db false now = inl l ->
  In o l ->
  Z.abs (Z.quot (Database.WindowMinutes o) (Database.ExecutionIntervals o))
  <= 153722867 ->
  Database.CanExecuteInterval now o
  = Some match Database.LastExecution o with
         | None => Database.CreatedAt o <=? now
         | Some _ => true
         end.
Proof.
  intros Hget Hin Hfits.
  apply (GetExecutableOrders_members _ _ _ Hget) in Hin as [_ Hrow].
  apply executable_row_true in Hrow as (_ & _ & Hlast).
  unfold Database.CanExecuteInterval, Database.GetNextExecutionTime,
    Database.After.
  rewrite (wrapDuration_minutes _ Hfits).
  destruct (Database.LastExecution o) as [last|].
  - destruct Hlast as [Hk Hle].
    apply Z.eqb_neq in Hk. rewrite Hk. f_equal.
    apply orb_true_iff.
    destruct (Z.eq_dec now
                (last + Z.quot (Database.WindowMinutes o)
                          (Database.ExecutionIntervals o) * Database.Minute))
      as [Heq|Hne].
    + right. apply Z.eqb_eq, Heq.
    + left. apply Z.ltb_lt. lia.
  - f_equal. destruct (Database.CreatedAt o <=? now) eqn:Hle.
    + apply Z.leb_le in Hle. apply orb_true_iff.
      destruct (Z.eq_dec now (Database.CreatedAt o)) as [Heq|Hne].
      * right. apply Z.eqb_eq, Heq.
      * left. apply Z.ltb_lt. lia.
    + apply Z.leb_gt in Hle. apply orb_false_iff.
      split; [apply Z.ltb_ge|apply Z.eqb_neq]; lia.
Qed.

(** X6: an order selected by [GetExecutableOrders] that was not created
    in the future, and whose [W / K] minutes fit a [time.Duration]
    ([|W / K| <= 153722867], beyond which the product wraps around),
    passes [CanExecuteInterval] at the time of the query and at any
    later time: there the query and the method agree on when an order
    is due. *)
Theorem selected_orders_can_execute (db : Database.DB) (now later : Z)
    (l : list Database.Order) (o : Database.Order) :
  Database.GetExecutableOrders db false now = inl l ->
  In o l ->
  Z.abs (Z.quot (Database.WindowMinutes o) (Database.ExecutionIntervals o))
  <= 153722867 ->
  Database.CreatedAt o <= now ->
  now <= later ->
  Database.CanExecuteInterval later o = Some true.
Proof.
  intros Hget Hin Hfits Hcreated Hlater.
  pose proof (selected_order_due _ _ _ _ Hget Hin Hfits) as Hdue.
  revert Hdue.
  unfold Database.CanExecuteInterval, Database.After.
  destruct (Database.GetNextExecutionTime o) as [next|] eqn:Hnext;
    [|discriminate].
  intros [= Hdue]. f_equal.
  assert (Hle : next <= now).
  { destruct (Database.LastExecution o) eqn:Hlast.
    - apply orb_true_iff in Hdue as [H|H];
        [apply Z.ltb_lt in H|apply Z.eqb_eq in H]; lia.
    - unfold Database.GetNextExecutionTime in Hnext. rewrite Hlast in Hnext.
      injection Hnext as <-. exact Hcreated. }
  apply orb_true_iff.
  destruct (Z.eq_dec later next) as [Heq|Hne].
  - right. apply Z.eqb_eq, Heq.
  - left. apply Z.ltb_lt. lia.
Qed.

(** The fresh order, selected at [Scenario.at00], is due 99 seconds
    later. *)
Lemma selected_orders_can_execute_witness :
  Database.GetExecutableOrders Cases.store false Scenario.at00
  = inl [Scenario.fresh] /\
  Database.CanExecuteInterval Scenario.at99 Scenario.fresh = Some true.
Proof.
  assert (Hget : Database.GetExecutableOrders Cases.store false Scenario.at00
                 = inl [Scenario.fresh]) by reflexivity.
  split; [exact Hget|].
  apply (selected_orders_can_execute Cases.store Scenario.at00 Scenario.at99
           [Scenario.fresh] Scenario.fresh Hget).
  - left. reflexivity.
  - vm_compute. discriminate.
  - vm_compute. discriminate.
  - vm_compute. discriminate.
Defined.

(** Beyond that bound the two part: a row with a window of minus two
    hundred million minutes is selected by the query, whose interval
    arithmetic does not wrap, and is not due for the method, whose
    duration wraps around to some two hundred years. *)
Lemma wrapped_interval_is_not_due :
  Database.GetExecutableOrders
    (Database.mkDB [Cases.wrapped] [] []) false Scenario.at00
  = inl [Cases.wrapped] /\
  Database.CanExecuteInterval Scenario.at00 Cases.wrapped = Some false.
Proof. vm_compute. split; reflexivity. Qed.

(** [processOrder] returns whenever [CanExecuteInterval] does. *)
Lemma processOrder_returns (env : Twap.Env) (e : Twap.Engine)
    (order : Database.Order) :
  Database.CanExecuteInterval (Twap.now env) order <> None ->
  exists e' err, Twap.processOrder env e order = Some (e', err).
Proof.
  intros Hcan. unfold Twap.processOrder.
  destruct (Database.CanExecuteInterval (Twap.now env) order) as [[|]|];
    [|eauto|contradiction].
  destruct (Database.GetExecutionHistory _ _ _) as [history|err]; [|eauto].
  destruct (Database.ExecutionIntervals order <=? Z.of_nat (length history)).
  { destruct (Database.UpdateOrder _ _ _ _). eauto. }
  destruct (Database.GetRemainingIntervals order history <=? 0) eqn:Hrem;
    [eauto|].
  apply Z.leb_gt in Hrem.
  destruct (Div_is_Some (Database.GetRemainingAmount order)
              (NewFromInt (Database.GetRemainingIntervals order history)))
    as [q ->].
  { unfold IsZero, NewFromInt. cbn [value]. apply Z.eqb_neq. lia. }
  destruct (_ && _); [eauto|].
  destruct (Nat.ltb _ _); eauto.
Qed.

(** X7: [processExecutableOrders] never panics: for the orders the
    query returns, neither [W / K] in [GetNextExecutionTime] nor the
    division by the remaining intervals meets a zero divisor. *)
Theorem processExecutableOrders_never_panics (env : Twap.Env)
    (e : Twap.Engine) :
  exists e' err, Twap.processExecutableOrders env e = Some (e', err).
Proof.
  unfold Twap.processExecutableOrders.
  destruct (Twap.failGetExecutableOrders env) eqn:Hfault.
  { cbn. eauto. }
  destruct (Database.GetExecutableOrders (Twap.db e) false (Twap.now env))
    as [l|err] eqn:Hget; [|eauto].
  assert (Hall : forall o, In o l ->
            Database.CanExecuteInterval (Twap.now env) o <> None).
  { intros o Hin. exact (selected_order_checked _ _ _ _ _ Hget Hin). }
  clear Hget.
  assert (Hloop : exists e', Twap.processOrders env e l = Some e').
  { revert e Hall. induction l as [|o l IH]; intros e Hall;
      cbn [Twap.processOrders]; [eauto|].
    destruct (processOrder_returns env e o) as (e1 & err & ->).
    { apply Hall. left. reflexivity. }
    apply IH. intros o' Hin. apply Hall. right. exact Hin. }
  destruct Hloop as [e' ->]. eauto.
Qed.

(** ** The price cache *)

(** X8: after [addPricePoint], the cached points of the pair are the
    former ones followed by the new one, without those at or before
    [now - maxAge]; every cached point of the pair is younger than
    [maxAge]; other pairs, the store, the queue and the metrics are
    untouched. *)
Theorem addPricePoint_prunes (now : Z) (e : Twap.Engine) (tokenPair : string)
    (point : Twap.PricePoint) :
  let e' := Twap.addPricePoint now e tokenPair point in
  let before := default [] (Twap.priceCache e !! tokenPair) in
  let after := default [] (Twap.priceCache e' !! tokenPair) in
  Twap.priceCache e' !! tokenPair = Some after /\
  after = List.filter (fun p => now - Twap.maxAge e <? Twap.Timestamp p)
                      (before ++ [point]) /\
  Forall (fun p => now - Twap.maxAge e < Twap.Timestamp p) after /\
  (forall p, In p after <->
     (In p before \/ p = point) /\ now - Twap.maxAge e < Twap.Timestamp p) /\
  (forall other, other <> tokenPair ->
     Twap.priceCache e' !! other = Twap.priceCache e !! other) /\
  Twap.db e' = Twap.db e /\ Twap.executionQueue e' = Twap.executionQueue e /\
  Twap.metrics e' = Twap.metrics e /\ Twap.maxAge e' = Twap.maxAge e.
Proof.
  cbv zeta. unfold Twap.addPricePoint, Twap.set_priceCache.
  cbn [Twap.priceCache Twap.db Twap.executionQueue Twap.metrics Twap.maxAge].
  rewrite lookup_insert_eq. cbn [default from_option id].
  split; [reflexivity|]. split; [reflexivity|].
  split.
  { apply List.Forall_forall. intros p Hin.
    apply filter_In in Hin as [_ Hin]. apply Z.ltb_lt, Hin. }
  split.
  { intros p. rewrite filter_In, in_app_iff. cbn [In].
    unfold Database.After. rewrite Z.ltb_lt.
    intuition (subst; auto). }
  split; [|auto].
  intros other Hne. apply lookup_insert_ne. congruence.
Qed.

(** A pruned cache ends with the point just added, if that is kept. *)
Lemma filter_snoc_kept {A : Type} (f : A -> bool) (l : list A) (x : A) :
  f x = true -> List.filter f (l ++ [x]) = List.filter f l ++ [x].
Proof.
  intros Hx. rewrite List.filter_app. cbn [List.filter]. rewrite Hx.
  reflexivity.
Qed.

(** X9: [storePricePoint] refuses a price that is zero or negative and
    leaves the engine as it was; a positive price is, as long as the
    point is inside [maxAge] and the last hour, what [getCurrentPrice]
    returns for the pair afterwards, whatever the cache held before;
    other pairs read as before. *)
Theorem storePricePoint_then_getCurrentPrice (now pruned read : Z)
    (e : Twap.Engine) (tokenPair source : string) (price : Decimal) :
  pruned - Twap.maxAge e < now ->
  read - Database.Hour < now ->
  let stored := Feeds.storePricePoint now pruned e tokenPair source price in
  (value price <= 0 ->
   stored = (e, Some (Feeds.ErrInvalidPrice price tokenPair source))) /\
  (0 < value price ->
   snd stored = None /\
   Twap.getCurrentPrice read (fst stored) tokenPair = (price, None) /\
   (forall other, other <> tokenPair ->
      Twap.getCurrentPrice read (fst stored) other
      = Twap.getCurrentPrice read e other)).
Proof.
  intros Hkept Hfresh. cbv zeta. unfold Feeds.storePricePoint, IsZero, IsNegative.
  split; intros Hprice.
  - destruct (value price =? 0) eqn:Hz; [reflexivity|].
    apply Z.eqb_neq in Hz.
    destruct (value price <? 0) eqn:Hn; [reflexivity|].
    apply Z.ltb_ge in Hn. lia.
  - destruct (value price =? 0) eqn:Hz; [apply Z.eqb_eq in Hz; lia|].
    destruct (value price <? 0) eqn:Hn; [apply Z.ltb_lt in Hn; lia|].
    cbn [orb fst snd]. split; [reflexivity|].
    unfold Twap.getCurrentPrice, Twap.getPricePoints, Twap.addPricePoint,
      Twap.set_priceCache.
    cbn [Twap.priceCache Twap.maxAge]. split.
    + rewrite lookup_insert_eq.
      rewrite !filter_snoc_kept
        by (cbn [Twap.Timestamp]; apply Z.ltb_lt; assumption).
      rewrite List.map_app. cbn [List.map]. rewrite last_last. reflexivity.
    + intros other Hne. rewrite lookup_insert_ne by congruence. reflexivity.
Qed.

(** A price of 2000 stored into an empty cache is the current price. *)
Lemma storePricePoint_then_getCurrentPrice_witness :
  let e := Scenario.engine Scenario.fresh [] [] in
  let stored :=
    Feeds.storePricePoint Scenario.at00 Scenario.at00 e "ETH_USDC" "dex"
                          (NewFromInt 2000) in
  snd stored = None /\
  Twap.getCurrentPrice Scenario.at00 (fst stored) "ETH_USDC"
  = (NewFromInt 2000, None).
Proof.
  intros e stored.
  destruct (proj2 (storePricePoint_then_getCurrentPrice
                     Scenario.at00 Scenario.at00 Scenario.at00 e
                     "ETH_USDC" "dex" (NewFromInt 2000)
                     ltac:(vm_compute; reflexivity)
                     ltac:(vm_compute; reflexivity))
                  ltac:(vm_compute; reflexivity)) as (Hnone & Hprice & _).
  split; assumption.
Defined.

(** ** Slippage *)

(** The sign of a quotient. *)
Lemma Div_nonnegative (d d2 : Decimal) :
  0 <= value d -> 0 < value d2 ->
  exists q, Div d d2 = Some q /\ 0 <= value q /\ exp q = -16.
Proof.
  intros Hd Hd2.
  unfold Div, DivRound, QuoRem, DivisionPrecision.
  destruct (value d2 =? 0) eqn:Hz; [apply Z.eqb_eq in Hz; lia|].
  assert (Hsgn : (Z.sgn (value d) * Z.sgn (value d2) <? 0) = false).
  { apply Z.ltb_ge. rewrite (Z.sgn_pos (value d2)) by lia.
    pose proof (Z.sgn_nonneg (value d)). lia. }
  cbv zeta.
  destruct (exp d - exp d2 - - (16) <? 0) eqn:He.
  - apply Z.ltb_lt in He.
    assert (Hq : 0 <= Z.quot (value d)
                        (value d2 * 10 ^ (- (exp d - exp d2 - - (16))))).
    { apply Z.quot_pos; [exact Hd|].
      apply Z.mul_pos_pos; [exact Hd2|apply pow10_pos; lia]. }
    cbv beta iota. rewrite Hsgn.
    match goal with
    | |- context [match Cmp ?a ?b with _ => _ end] => destruct (Cmp a b)
    end.
    all: eexists; (split; [reflexivity|]).
    all: unfold Add, RescalePair, rescale; cbn [value exp].
    all: rewrite ?Z.min_id, ?Z.eqb_refl; cbn [value exp].
    all: split; [lia|reflexivity].
  - apply Z.ltb_ge in He.
    assert (Hq : 0 <= Z.quot (value d * 10 ^ (exp d - exp d2 - - (16)))
                             (value d2)).
    { apply Z.quot_pos; [|exact Hd2].
      apply Z.mul_nonneg_nonneg; [exact Hd|].
      apply Z.lt_le_incl, pow10_pos. exact He. }
    cbv beta iota. rewrite Hsgn.
    match goal with
    | |- context [match Cmp ?a ?b with _ => _ end] => destruct (Cmp a b)
    end.
    all: eexists; (split; [reflexivity|]).
    all: unfold Add, RescalePair, rescale; cbn [value exp].
    all: rewrite ?Z.min_id, ?Z.eqb_refl; cbn [value exp].
    all: split; [lia|reflexivity].
Qed.

(** A decimal minus itself, and zero divided by anything. *)
Lemma Sub_self (d : Decimal) : Sub d d = New 0 (exp d).
Proof.
  unfold Sub, RescalePair, rescale.
  rewrite Z.min_id, Z.eqb_refl, Z.sub_diag. reflexivity.
Qed.

Lemma Div_zero_numerator (e : Z) (d2 : Decimal) :
  value d2 <> 0 -> Div (New 0 e) d2 = Some (New 0 (-16)).
Proof.
  intros Hd2.
  unfold Div, DivRound, QuoRem, DivisionPrecision. cbn [value exp].
  destruct (value d2 =? 0) eqn:Hz; [apply Z.eqb_eq in Hz; contradiction|].
  cbv zeta.
  assert (Hlt : forall x : Z, Cmp (New 0 x) (Abs d2) = Lt).
  { intros x. unfold Cmp, RescalePair, rescale, Abs. cbn [value exp].
    assert (Hpos : 0 < Z.abs (value d2)) by lia.
    destruct (Z.min_spec x (exp d2)) as [[Hm ->]|[Hm ->]].
    - rewrite Z.eqb_refl.
      destruct (exp d2 =? x) eqn:H1; cbn [value].
      + apply Z.compare_lt_iff. exact Hpos.
      + destruct (exp d2 <? x) eqn:H2; [apply Z.ltb_lt in H2; lia|].
        cbn [value]. apply Z.compare_lt_iff.
        apply Z.mul_pos_pos; [exact Hpos|apply pow10_pos; lia].
    - rewrite Z.eqb_refl.
      destruct (x =? exp d2) eqn:H1; cbn [value].
      + apply Z.compare_lt_iff. exact Hpos.
      + destruct (x <? exp d2) eqn:H2;
          [apply Z.ltb_lt in H2; apply Z.eqb_neq in H1; lia|].
        cbn [value]. rewrite Z.mul_0_l. apply Z.compare_lt_iff. exact Hpos. }
  destruct (e - exp d2 - - (16) <? 0) eqn:He; cbv beta iota; cbn [value exp].
  - apply Z.ltb_lt in He.
    assert (Hb : value d2 * 10 ^ (- (e - exp d2 - - (16))) <> 0).
    { apply Z.neq_mul_0. split; [exact Hd2|].
      apply Z.pow_nonzero; lia. }
    rewrite ?Z.rem_0_l by exact Hb.
    cbn [Z.abs Z.mul]. rewrite Hlt, Z.quot_0_l by exact Hb. reflexivity.
  - rewrite ?Z.mul_0_l, ?Z.rem_0_l by exact Hd2.
    cbn [Z.abs Z.mul]. rewrite Hlt, Z.quot_0_l by exact Hd2. reflexivity.
Qed.

(** X10: where it fits an [int] (a slippage of the specification below
    [2 ^ 62] basis points is enough), [calculateSlippage] is not
    negative for an expected price that is not negative; and it is zero
    between a price and itself. *)
Theorem calculateSlippage_sign (expected actual : Decimal) :
  0 <= value expected ->
  Spec.slippage_bps expected actual < 2 ^ 62 ->
  0 <= Twap.calculateSlippage expected actual /\
  Twap.calculateSlippage expected expected = 0 /\
  Twap.calculateSlippage actual actual = 0.
Proof.
  intros Hexp Hfits.
  assert (Hself : forall p, Twap.calculateSlippage p p = 0).
  { intros p. unfold Twap.calculateSlippage, IsZero.
    destruct (value p =? 0) eqn:Hz; [reflexivity|].
    apply Z.eqb_neq in Hz.
    rewrite Sub_self. unfold Abs. cbn [value exp Z.abs].
    rewrite Div_zero_numerator by exact Hz. reflexivity. }
  split; [|split; apply Hself].
  destruct (Z.eq_dec (value expected) 0) as [Hz|Hnz].
  - unfold Twap.calculateSlippage, IsZero. rewrite Hz. cbn. lia.
  - apply calculateSlippage_lower; try lia.
    pose proof (calculateSlippage_ratio expected actual ltac:(lia))
      as (HE & -> & _).
    apply Z.div_pos; [|exact HE].
    pose proof (Z.abs_nonneg
                  (value (fst (RescalePair expected actual))
                   - value (snd (RescalePair expected actual)))). lia.
Qed.

(** Expected 2000 against 2020, and against itself. *)
Lemma calculateSlippage_sign_witness :
  0 <= value (NewFromInt 2000) /\
  Spec.slippage_bps (NewFromInt 2000) (NewFromInt 2020) < 2 ^ 62 /\
  0 <= Twap.calculateSlippage (NewFromInt 2000) (NewFromInt 2020) /\
  Twap.calculateSlippage (NewFromInt 2000) (NewFromInt 2000) = 0.
Proof.
  assert (Hexp : 0 <= value (NewFromInt 2000)) by (vm_compute; discriminate).
  assert (Hfits : Spec.slippage_bps (NewFromInt 2000) (NewFromInt 2020)
                  < 2 ^ 62) by (vm_compute; reflexivity).
  split; [exact Hexp|]. split; [exact Hfits|].
  destruct (calculateSlippage_sign (NewFromInt 2000) (NewFromInt 2020)
              Hexp Hfits) as (Hsign & Hsame & _).
  split; assumption.
Defined.

(** ** Outcome of an interval *)

(** [executeInterval] writes the store and the metrics only, and nothing
    when it fails. *)
Lemma executeInterval_engine (env : Twap.Env) (e : Twap.Engine)
    (request : Twap.ExecutionRequest) :
  exists db' m',
    fst (Twap.executeInterval env e request)
    = Twap.set_metrics (Twap.set_db e db') m'.
Proof.
  assert (Hsame : e = Twap.set_metrics (Twap.set_db e (Twap.db e))
                                        (Twap.metrics e))
    by (destruct e; reflexivity).
  unfold Twap.executeInterval.
  destruct (Database.GetOrder _ _ _) as [order|err]; [|cbn [fst]; eauto].
  destruct (negb _); [cbn [fst]; eauto|].
  cbv zeta.
  destruct (Twap.slippageRejected _ _); [cbn [fst]; eauto|].
  unfold Twap.executeSwap. cbv beta iota zeta.
  destruct (Database.CreateExecutionRecord _ _ _) as [db1 ?].
  destruct (Database.UpdateOrder _ _ _ _) as [db2 ?].
  cbn [fst]. eauto.
Qed.

Lemma executeInterval_failed (env : Twap.Env) (e : Twap.Engine)
    (request : Twap.ExecutionRequest) :
  Twap.Success (snd (Twap.executeInterval env e request)) = false ->
  fst (Twap.executeInterval env e request) = e.
Proof.
  unfold Twap.executeInterval.
  destruct (Database.GetOrder _ _ _) as [order|err]; [|reflexivity].
  destruct (negb _); [reflexivity|].
  cbv zeta.
  destruct (Twap.slippageRejected _ _); [reflexivity|].
  unfold Twap.executeSwap. cbv beta iota zeta.
  destruct (Database.CreateExecutionRecord _ _ _) as [db1 ?].
  destruct (Database.UpdateOrder _ _ _ _) as [db2 ?].
  cbn. discriminate.
Qed.

(** X11: the outcome of [executeInterval].  A failed interval leaves
    the engine, metrics included, as it was, and its error is one of
    "failed to get order", "failed to get adapter" (for a chain without
    adapter) and "slippage exceeds maximum" (for a slippage above the
    request's bound), never "swap execution failed".  A successful one
    raises [TotalExecutions] and [SuccessfulExecutions] by one, adds the
    executed amount to the volume and stamps the time.
    [FailedExecutions] never changes. *)
Theorem executeInterval_outcome (env : Twap.Env) (e : Twap.Engine)
    (request : Twap.ExecutionRequest) :
  let e' := fst (Twap.executeInterval env e request) in
  let r := snd (Twap.executeInterval env e request) in
  Twap.FailedExecutions (Twap.metrics e')
  = Twap.FailedExecutions (Twap.metrics e) /\
  if Twap.Success r
  then Twap.Error r = None /\
       Twap.TotalExecutions (Twap.metrics e')
       = Twap.wrap64 (Twap.TotalExecutions (Twap.metrics e) + 1) /\
       Twap.SuccessfulExecutions (Twap.metrics e')
       = Twap.wrap64 (Twap.SuccessfulExecutions (Twap.metrics e) + 1) /\
       Twap.TotalVolumeExecuted (Twap.metrics e')
       = Add (Twap.TotalVolumeExecuted (Twap.metrics e))
             (Twap.ExecutedAmount r) /\
       Twap.LastExecutionTime (Twap.metrics e') = Twap.now env
  else e' = e /\
       exists err, r = Twap.failure err /\
         match err with
         | Twap.ErrGetOrder _ =>
             exists cause,
               Database.GetOrder (Twap.db e) (Twap.failGetOrder env)
                                 (Twap.OrderID request) = inr cause /\
               err = Twap.ErrGetOrder cause
         | Twap.ErrGetAdapter chain => chain ∉ Twap.adapters e
         | Twap.ErrSlippageExceeded slippage maximum =>
             maximum = Twap.MaxSlippage request /\ maximum < slippage
         | Twap.ErrSwap => False
         end.
Proof.
  cbv zeta.
  unfold Twap.executeInterval.
  destruct (Database.GetOrder _ _ _) as [order|cause] eqn:Hget.
  2:{ cbn. repeat split. eexists. split; [reflexivity|]. cbn. eauto. }
  destruct (bool_decide_reflect
              (Database.TargetChain order ∈ Twap.adapters e)) as [Hin|Hin];
    cbn [negb].
  2:{ cbn. repeat split. eexists. split; [reflexivity|]. exact Hin. }
  cbv zeta.
  destruct (Twap.slippageRejected _ _) as [slippage|] eqn:Hslip.
  { cbn [fst snd Twap.Success Twap.failure]. repeat split.
    eexists. split; [reflexivity|]. cbn beta iota. split; [reflexivity|].
    rewrite slippageRejected_cases in Hslip.
    destruct (IsZero (Twap.PriceHint request)); [discriminate|].
    destruct (Twap.MaxSlippage request <? _) eqn:Hlt; [|discriminate].
    injection Hslip as <-. apply Z.ltb_lt, Hlt. }
  unfold Twap.executeSwap. cbv beta iota zeta.
  destruct (Database.CreateExecutionRecord _ _ _) as [db1 ?].
  destruct (Database.UpdateOrder _ _ _ _) as [db2 ?].
  cbn. repeat split.
Qed.

(** Rows before and after an update, column by column. *)
Lemma update_rows_columns (now : Z) (order : Database.Order)
    (rows : list Database.Order) :
  Forall2 (fun row row' =>
             Database.with_tail row (Database.UpdatedAt row')
               (Database.ExecutedAmount row') (Database.LastExecution row')
               (Database.Status row') (Database.AveragePrice row') = row')
          rows (List.map (Database.update_row now order) rows).
Proof.
  induction rows as [|r rows IH]; cbn [List.map]; constructor.
  - apply update_row_columns.
  - exact IH.
Qed.

Lemma same_rows_columns (rows : list Database.Order) :
  Forall2 (fun row row' =>
             Database.with_tail row (Database.UpdatedAt row')
               (Database.ExecutedAmount row') (Database.LastExecution row')
               (Database.Status row') (Database.AveragePrice row') = row')
          rows rows.
Proof.
  induction rows as [|row rows IH]; constructor; [|exact IH].
  destruct row; reflexivity.
Qed.

(** X12: what [executeInterval] leaves alone: the price cache, the
    adapters, the queue and the HTLC table; the execution history, which
    gains at most one record, carrying the request's order id and
    interval number; the orders of other ids; and, in every order row,
    all columns but the five that [UpdateOrder] writes. *)
Theorem executeInterval_frame (env : Twap.Env) (e : Twap.Engine)
    (request : Twap.ExecutionRequest) :
  let e' := fst (Twap.executeInterval env e request) in
  Twap.priceCache e' = Twap.priceCache e /\
  Twap.adapters e' = Twap.adapters e /\
  Twap.maxAge e' = Twap.maxAge e /\
  Twap.executionQueue e' = Twap.executionQueue e /\
  Database.htlcs (Twap.db e') = Database.htlcs (Twap.db e) /\
  (Database.execution_history (Twap.db e')
   = Database.execution_history (Twap.db e) \/
   exists record,
     Database.OrderID record = Twap.OrderID request /\
     Database.IntervalNumber record = Twap.IntervalNumber request /\
     Database.execution_history (Twap.db e')
     = Database.execution_history (Twap.db e) ++ [record]) /\
  (forall id, id <> Twap.OrderID request ->
     Database.GetOrder (Twap.db e') false id
     = Database.GetOrder (Twap.db e) false id) /\
  Forall2 (fun row row' =>
             Database.with_tail row (Database.UpdatedAt row')
               (Database.ExecutedAmount row') (Database.LastExecution row')
               (Database.Status row') (Database.AveragePrice row') = row')
          (Database.orders (Twap.db e)) (Database.orders (Twap.db e')).
Proof.
  cbv zeta.
  destruct (executeInterval_engine env e request) as (db' & m' & Hshape).
  split; [rewrite Hshape; reflexivity|].
  split; [rewrite Hshape; reflexivity|].
  split; [rewrite Hshape; reflexivity|].
  split; [rewrite Hshape; reflexivity|].
  clear db' m' Hshape.
  destruct (Twap.Success (snd (Twap.executeInterval env e request))) eqn:Hok.
  2:{ rewrite (executeInterval_failed _ _ _ Hok).
      repeat split; auto. apply same_rows_columns. }
  destruct (executeInterval_success_gates _ _ _ Hok)
    as (order & Hget & Hadapter & Hslip).
  destruct (executeInterval_success_path _ _ _ _ Hget Hadapter Hslip)
    as (_ & _ & _ & _ & (record & Hid & Hn & _ & _ & Hhistory) & Horders).
  destruct (GetOrder_found _ _ _ _ Hget) as (_ & _ & Horder).
  split.
  { unfold Twap.executeInterval. rewrite Hget.
    rewrite (bool_decide_eq_true_2 _ Hadapter). cbn [negb]. cbv zeta.
    rewrite Hslip. unfold Twap.executeSwap. cbv beta iota zeta.
    unfold Database.CreateExecutionRecord, Database.UpdateOrder.
    destruct (Twap.failCreateExecutionRecord env),
      (Twap.failUpdateOrder env); cbn [fst snd Twap.db Twap.set_db
        Twap.set_metrics Database.htlcs Database.orders]; try reflexivity.
    all: destruct (Nat.eqb _ 0); reflexivity. }
  split.
  { destruct (Twap.failCreateExecutionRecord env); [left; exact Hhistory|].
    right. exists record. auto. }
  split.
  - intros id Hid'. unfold Database.GetOrder. rewrite Horders.
    destruct (Twap.failUpdateOrder env); [reflexivity|].
    rewrite find_update_row_other; [reflexivity|].
    rewrite updateOrderState_ID. congruence.
  - rewrite Horders.
    destruct (Twap.failUpdateOrder env);
      [apply same_rows_columns|apply update_rows_columns].
Qed.

(** ** The execution queue *)

(** X13: [processOrder] leaves the price cache, the metrics and the
    adapters alone and keeps the queue within its capacity; it appends
    at most one request, and only when the queue has room and fewer
    intervals are recorded than planned: a request for the order, for
    the interval numbered by the length of its history, for the
    remaining amount divided by the remaining intervals, under the
    order's slippage bound. *)
Theorem processOrder_queue (env : Twap.Env) (e e' : Twap.Engine)
    (order : Database.Order) (err : option Twap.ProcessError) :
  Twap.processOrder env e order = Some (e', err) ->
  Twap.priceCache e' = Twap.priceCache e /\
  Twap.metrics e' = Twap.metrics e /\
  Twap.adapters e' = Twap.adapters e /\
  ((length (Twap.executionQueue e) <= Twap.queueCapacity)%nat ->
   (length (Twap.executionQueue e') <= Twap.queueCapacity)%nat) /\
  (Twap.executionQueue e' = Twap.executionQueue e \/
   exists history target hint,
     Database.GetExecutionHistory (Twap.db e) (Twap.failGetExecutionHistory env)
                                  (Database.ID order) = inl history /\
     Z.of_nat (length history) < Database.ExecutionIntervals order /\
     Div (Database.GetRemainingAmount order)
         (NewFromInt (Database.ExecutionIntervals order
                      - Z.of_nat (length history))) = Some target /\
     (length (Twap.executionQueue e) < Twap.queueCapacity)%nat /\
     Twap.executionQueue e'
     = Twap.executionQueue e
       ++ [Twap.mkExecutionRequest (Database.ID order)
             (Z.of_nat (length history)) target
             (Database.MaxSlippage order) hint] /\
     Twap.db e' = Twap.db e /\ err = None).
Proof.
  unfold Twap.processOrder.
  destruct (Database.CanExecuteInterval (Twap.now env) order) as [[|]|];
    [| intros [= <- <-]; tauto | discriminate].
  destruct (Database.GetExecutionHistory _ _ _) as [history|cause] eqn:Hhist;
    [| intros [= <- <-]; tauto].
  destruct (Database.ExecutionIntervals order <=? Z.of_nat (length history))
    eqn:Hcount.
  { destruct (Database.UpdateOrder _ _ _ _) as [db1 cause].
    intros [= <- <-]. cbn. tauto. }
  apply Z.leb_gt in Hcount.
  destruct (Database.GetRemainingIntervals order history <=? 0);
    [intros [= <- <-]; tauto|].
  unfold Database.GetRemainingIntervals, Database.GetExecutedIntervals.
  destruct (Div _ _) as [target|] eqn:Hdiv; [|discriminate].
  destruct (_ && _); [intros [= <- <-]; tauto|].
  destruct (Nat.ltb _ _) eqn:Hroom; [|intros [= <- <-]; tauto].
  apply Nat.ltb_lt in Hroom.
  intros [= <- <-]. cbn [Twap.priceCache Twap.metrics Twap.adapters
    Twap.set_executionQueue Twap.executionQueue Twap.db].
  repeat split.
  - intros _. rewrite length_app. cbn [length]. lia.
  - right. eexists history, target, _. repeat split; auto.
Qed.

(** The scheduler queues the last request of the order three quarters
    executed. *)
Lemma processOrder_queue_witness :
  let e := Scenario.engine Scenario.threeQuarters Scenario.threeFills
                           [Scenario.point Scenario.at00 2000] in
  let e' := Twap.set_executionQueue e [Scenario.lastRequest] in
  Twap.processOrder (Scenario.clock Scenario.at99) e Scenario.threeQuarters
  = Some (e', None) /\
  Twap.priceCache e' = Twap.priceCache e /\
  Twap.metrics e' = Twap.metrics e.
Proof.
  intros e e'.
  assert (Hrun : Twap.processOrder (Scenario.clock Scenario.at99) e
                                   Scenario.threeQuarters = Some (e', None))
    by (vm_compute; reflexivity).
  split; [exact Hrun|].
  destruct (processOrder_queue _ _ _ _ _ Hrun) as (Hcache & Hmetrics & _).
  split; assumption.
Defined.

(** Division by one keeps the value, at sixteen fractional digits. *)
Lemma Div_by_one (d : Decimal) :
  -16 <= exp d ->
  Div d (NewFromInt 1) = Some (New (value d * 10 ^ (exp d + 16)) (-16)).
Proof.
  intros Hexp.
  unfold Div, DivRound, QuoRem, DivisionPrecision, NewFromInt.
  cbn [value exp Z.eqb]. cbv zeta.
  replace (exp d - 0 - - (16)) with (exp d + 16) by lia.
  destruct (exp d + 16 <? 0) eqn:He; [apply Z.ltb_lt in He; lia|].
  cbv beta iota. cbn [value exp].
  rewrite Z.rem_1_r, Z.quot_1_r.
  reflexivity.
Qed.

Lemma Equal_rescaled (d : Decimal) :
  -16 <= exp d ->
  Equal (New (value d * 10 ^ (exp d + 16)) (-16)) d = true.
Proof.
  intros Hexp. unfold Equal, Cmp, RescalePair, rescale. cbn [value exp].
  rewrite (Z.min_l (-16) (exp d)) by exact Hexp.
  rewrite Z.eqb_refl. cbn [value].
  destruct (exp d =? -16) eqn:He.
  - apply Z.eqb_eq in He. rewrite He. cbn [Z.add Z.pos_sub Z.pow].
    rewrite Z.mul_1_r, Z.compare_refl. reflexivity.
  - destruct (exp d <? -16) eqn:Hl; [apply Z.ltb_lt in Hl; lia|].
    cbn [value].
    replace (exp d - -16) with (exp d + 16) by lia.
    rewrite Z.compare_refl. reflexivity.
Qed.

(** X14: for the last interval of a plan the minimum fill size is not
    applied: when all intervals but one are recorded, the order is due
    and the queue has room, [processOrder] queues a request for the
    remaining amount divided by one, which is the whole remaining
    amount when that has at most sixteen fractional digits. *)
Theorem processOrder_last_interval (env : Twap.Env) (e : Twap.Engine)
    (order : Database.Order) (history : list Database.ExecutionRecord) :
  Database.CanExecuteInterval (Twap.now env) order = Some true ->
  Database.GetExecutionHistory (Twap.db e) (Twap.failGetExecutionHistory env)
                               (Database.ID order) = inl history ->
  Z.of_nat (length history) = Database.ExecutionIntervals order - 1 ->
  (length (Twap.executionQueue e) < Twap.queueCapacity)%nat ->
  exists e' request,
    Twap.processOrder env e order = Some (e', None) /\
    Twap.executionQueue e' = Twap.executionQueue e ++ [request] /\
    Twap.OrderID request = Database.ID order /\
    Twap.IntervalNumber request = Database.ExecutionIntervals order - 1 /\
    Div (Database.GetRemainingAmount order) (NewFromInt 1)
    = Some (Twap.TargetAmount request) /\
    (-16 <= exp (Database.GetRemainingAmount order) ->
     Equal (Twap.TargetAmount request) (Database.GetRemainingAmount order)
     = true).
Proof.
  intros Hcan Hhist Hlast Hroom.
  unfold Twap.processOrder. rewrite Hcan, Hhist.
  destruct (Database.ExecutionIntervals order <=? Z.of_nat (length history))
    eqn:Hcount; [apply Z.leb_le in Hcount; lia|].
  unfold Database.GetRemainingIntervals, Database.GetExecutedIntervals.
  replace (Database.ExecutionIntervals order - Z.of_nat (length history))
    with 1 by lia.
  cbn [Z.leb Z.compare Z.ltb].
  destruct (Div_is_Some (Database.GetRemainingAmount order) (NewFromInt 1)
                        eq_refl) as [target Hdiv].
  rewrite Hdiv, andb_false_r.
  apply Nat.ltb_lt in Hroom. rewrite Hroom.
  eexists _, _. split; [reflexivity|].
  cbn [Twap.executionQueue Twap.set_executionQueue Twap.OrderID
       Twap.IntervalNumber Twap.TargetAmount].
  split; [reflexivity|]. split; [reflexivity|]. split; [exact Hlast|].
  split; [reflexivity|].
  intros Hexp. rewrite (Div_by_one _ Hexp) in Hdiv. injection Hdiv as <-.
  apply Equal_rescaled, Hexp.
Qed.

(** Three of four intervals recorded: the request is for the remaining
    250. *)
Lemma processOrder_last_interval_witness :
  let e := Scenario.engine Scenario.threeQuarters Scenario.threeFills
                           [Scenario.point Scenario.at00 2000] in
  exists e' request,
    Twap.processOrder (Scenario.clock Scenario.at99) e Scenario.threeQuarters
    = Some (e', None) /\
    Twap.executionQueue e' = Twap.executionQueue e ++ [request] /\
    Twap.OrderID request = "order-1" /\
    Twap.IntervalNumber request = 3 /\
    Equal (Twap.TargetAmount request) (NewFromInt 250) = true.
Proof.
  intros e.
  destruct (processOrder_last_interval (Scenario.clock Scenario.at99) e
              Scenario.threeQuarters Scenario.threeFills
              ltac:(vm_compute; reflexivity) ltac:(vm_compute; reflexivity)
              ltac:(vm_compute; reflexivity) ltac:(vm_compute; lia))
    as (e' & request & Hrun & Hqueue & Hid & Hn & _ & Hamount).
  exists e', request. repeat (split; [assumption|]).
  apply Hamount. vm_compute. discriminate.
Defined.

(** ** The mock swap *)

(** [unix % m] for a clock at or after the epoch. *)
Lemma unix_rem_bound (now m : Z) :
  0 <= now -> 0 < m -> 0 <= Z.rem (Database.Unix now) m < m.
Proof.
  intros Hnow Hm. apply Z.rem_bound_pos; [|exact Hm].
  unfold Database.Unix, Database.Second. apply Z.div_pos; lia.
Qed.

(** X15: the mock [executeSwap] (at a clock not before 1970, for an
    amount and a price that are not negative) fills between 99 % and
    100.98 % of the requested amount, at between 99.5 % and 100.49 % of
    the price hint, and reports between 150000 and 199999 gas. *)
Theorem executeSwap_bounds (now : Z) (amount priceHint : Decimal) :
  0 <= now -> 0 <= value amount -> 0 <= value priceHint ->
  let '(executedAmount, executionPrice, _, gasUsed) :=
    Twap.executeSwap now amount priceHint in
  GreaterThanOrEqual executedAmount (Mul amount (New 99 (-2))) = true /\
  GreaterThanOrEqual (Mul amount (New 10098 (-4))) executedAmount = true /\
  GreaterThanOrEqual executionPrice (Mul priceHint (New 995 (-3))) = true /\
  GreaterThanOrEqual (Mul priceHint (New 10049 (-4))) executionPrice = true /\
  150000 <= gasUsed < 200000.
Proof.
  intros Hnow Hamount Hhint.
  unfold Twap.executeSwap, Twap.swapVariance, Twap.swapPriceVariance.
  cbv zeta.
  pose proof (unix_rem_bound now 100 Hnow ltac:(lia)) as Hk.
  pose proof (unix_rem_bound now 50000 Hnow ltac:(lia)) as Hg.
  set (k := Z.rem (Database.Unix now) 100) in *.
  unfold GreaterThanOrEqual, Mul. cbn [value exp].
  split; [|split; [|split; [|split]]]; try lia.
  - rewrite Cmp_finer by (cbn [exp]; lia). cbn [value exp].
    replace (exp amount + -2 - (exp amount + -4)) with 2 by lia.
    destruct (Z.compare_spec (value amount * (9900 + 2 * k))
                             (value amount * 99 * 10 ^ 2)); try reflexivity.
    nia.
  - rewrite Cmp_finer by (cbn [exp]; lia). cbn [value exp].
    replace (exp amount + -4 - (exp amount + -4)) with 0 by lia.
    destruct (Z.compare_spec (value amount * 10098)
                (value amount * (9900 + 2 * k) * 10 ^ 0)); try reflexivity.
    nia.
  - destruct ((k <? 50) && (Z.rem k 10 =? 5)) eqn:Hspecial; cbn [value exp].
    + rewrite Cmp_finer by (cbn [exp]; lia). cbn [value exp].
      replace (exp priceHint + -3 - (exp priceHint + -16)) with 13 by lia.
      assert (0 <= Z.quot k 10) by (apply Z.quot_pos; lia).
      destruct (Z.compare_spec
                  (value priceHint
                   * (9954999999999999 + 10000000000000 * Z.quot k 10))
                  (value priceHint * 995 * 10 ^ 13)); try reflexivity.
      nia.
    + rewrite Cmp_finer by (cbn [exp]; lia). cbn [value exp].
      replace (exp priceHint + -3 - (exp priceHint + -4)) with 1 by lia.
      destruct (Z.compare_spec (value priceHint * (9950 + k))
                               (value priceHint * 995 * 10 ^ 1));
        try reflexivity.
      nia.
  - destruct ((k <? 50) && (Z.rem k 10 =? 5)) eqn:Hspecial; cbn [value exp].
    + apply andb_true_iff in Hspecial as [Hk50 _]. apply Z.ltb_lt in Hk50.
      rewrite Cmp_coarser by (cbn [exp]; lia). cbn [value exp].
      replace (exp priceHint + -4 - (exp priceHint + -16)) with 12 by lia.
      assert (Z.quot k 10 < 5).
      { apply Z.quot_lt_upper_bound; lia. }
      destruct (Z.compare_spec
                  (value priceHint * 10049 * 10 ^ 12)
                  (value priceHint
                   * (9954999999999999 + 10000000000000 * Z.quot k 10)));
        try reflexivity.
      nia.
    + rewrite Cmp_finer by (cbn [exp]; lia). cbn [value exp].
      replace (exp priceHint + -4 - (exp priceHint + -4)) with 0 by lia.
      destruct (Z.compare_spec (value priceHint * 10049)
                  (value priceHint * (9950 + k) * 10 ^ 0)); try reflexivity.
      nia.
Qed.

(** A swap of 250 at a hint of 2000, at a Unix time ending in 99. *)
Lemma executeSwap_bounds_witness :
  let '(executedAmount, executionPrice, _, gasUsed) :=
    Twap.executeSwap Scenario.at99 (NewFromInt 250) (NewFromInt 2000) in
  GreaterThanOrEqual executedAmount (Mul (NewFromInt 250) (New 99 (-2)))
  = true /\
  GreaterThanOrEqual (Mul (NewFromInt 250) (New 10098 (-4))) executedAmount
  = true /\
  150000 <= gasUsed < 200000.
Proof.
  pose proof (executeSwap_bounds Scenario.at99 (NewFromInt 250)
                (NewFromInt 2000) ltac:(vm_compute; discriminate)
                ltac:(vm_compute; discriminate)
                ltac:(vm_compute; discriminate)) as H.
  destruct (Twap.executeSwap Scenario.at99 (NewFromInt 250) (NewFromInt 2000))
    as [[[executedAmount executionPrice] txHash] gasUsed].
  destruct H as (H1 & H2 & _ & _ & H3). repeat split; tauto.
Defined.

(** ** The cache under a monotonic clock *)

(** Ascending lists stay ascending when points are dropped or a later
    point is appended. *)
Lemma ascending_from_earlier (q p : Twap.PricePoint)
    (l : list Twap.PricePoint) :
  Twap.Timestamp q <= Twap.Timestamp p ->
  Spec.ascending_from p l -> Spec.ascending_from q l.
Proof.
  intros Hle. destruct l as [|x l]; cbn [Spec.ascending_from]; [auto|].
  intros [Hpx Hrest]. split; [lia|exact Hrest].
Qed.

Lemma ascending_from_filter (f : Twap.PricePoint -> bool) (p : Twap.PricePoint)
    (l : list Twap.PricePoint) :
  Spec.ascending_from p l -> Spec.ascending_from p (List.filter f l).
Proof.
  revert p. induction l as [|x l IH]; intros p; cbn [Spec.ascending_from
    List.filter]; [auto|].
  intros [Hpx Hrest]. destruct (f x); cbn [Spec.ascending_from].
  - split; [exact Hpx|]. apply IH, Hrest.
  - apply IH. eapply ascending_from_earlier; eassumption.
Qed.

Lemma ascending_filter (f : Twap.PricePoint -> bool)
    (l : list Twap.PricePoint) :
  Feeds.ascending l -> Feeds.ascending (List.filter f l).
Proof.
  induction l as [|x l IH]; cbn [Feeds.ascending List.filter]; [auto|].
  intros Hasc. destruct (f x); cbn [Feeds.ascending].
  - apply ascending_from_filter, Hasc.
  - apply IH. destruct l as [|y l]; cbn [Feeds.ascending]; [exact I|].
    apply Hasc.
Qed.

Lemma ascending_from_snoc (p x : Twap.PricePoint) (l : list Twap.PricePoint) :
  Spec.ascending_from p l ->
  Twap.Timestamp p <= Twap.Timestamp x ->
  Forall (fun q => Twap.Timestamp q <= Twap.Timestamp x) l ->
  Spec.ascending_from p (l ++ [x]).
Proof.
  revert p. induction l as [|y l IH]; intros p Hasc Hp Hall;
    cbn [app Spec.ascending_from].
  - auto.
  - destruct Hasc as [Hpy Hrest]. split; [exact Hpy|].
    apply IH; [exact Hrest| |].
    + apply (List.Forall_inv Hall).
    + apply (List.Forall_inv_tail Hall).
Qed.



(** X17: [storePricePoint] keeps the cache of its pair in ascending
    order of time, and its points not after the clock reading, when
    they were so before; the caches of other pairs stay as they are. *)
Theorem storePricePoint_keeps_ascending (now pruned : Z) (e : Twap.Engine)
    (tokenPair source : string) (price : Decimal) :
  let cached := fun e pair => default [] (Twap.priceCache e !! pair) in
  let e' := fst (Feeds.storePricePoint now pruned e tokenPair source price) in
  Feeds.ascending (cached e tokenPair) ->
  Forall (fun p => Twap.Timestamp p <= now) (cached e tokenPair) ->
  Feeds.ascending (cached e' tokenPair) /\
  Forall (fun p => Twap.Timestamp p <= now) (cached e' tokenPair) /\
  (forall other, other <> tokenPair -> cached e' other = cached e other).
Proof.
  cbv zeta beta. intros Hasc Hpast.
  unfold Feeds.storePricePoint.
  destruct (IsZero price || IsNegative price); cbn [fst]; [auto|].
  unfold Twap.addPricePoint, Twap.set_priceCache. cbn [Twap.priceCache
    Twap.maxAge].
  set (point := Twap.mkPricePoint now price (NewFromInt 0) source).
  assert (Hall : Forall (fun p => Twap.Timestamp p <= now)
                   (default [] (Twap.priceCache e !! tokenPair) ++ [point])).
  { apply List.Forall_app. split; [exact Hpast|].
    constructor; [cbn; lia|constructor]. }
  assert (Hsnoc : Feeds.ascending
                    (default [] (Twap.priceCache e !! tokenPair) ++ [point])).
  { clear Hall. revert Hasc Hpast.
    destruct (default [] (Twap.priceCache e !! tokenPair)) as [|p l];
      cbn [app Feeds.ascending]; [intros; exact I|].
    intros Ha Hp.
    apply ascending_from_snoc; [exact Ha| |].
    - apply (List.Forall_inv Hp).
    - apply (List.Forall_inv_tail Hp). }
  rewrite lookup_insert_eq. cbn [default from_option id].
  split; [apply ascending_filter, Hsnoc|].
  split.
  - apply List.Forall_forall. intros p Hin.
    apply filter_In in Hin as [Hin _].
    rewrite List.Forall_forall in Hall. apply Hall, Hin.
  - intros other Hne. rewrite lookup_insert_ne by congruence. reflexivity.
Qed.

(** A fourth point stored after the three of the scenario. *)
Lemma storePricePoint_keeps_ascending_witness :
  let e := Scenario.engine Scenario.fresh [] Scenario.threePoints in
  Feeds.ascending (default [] (Twap.priceCache e !! "ETH_USDC")) /\
  Feeds.ascending
    (default []
       (Twap.priceCache
          (fst (Feeds.storePricePoint Scenario.at00 Scenario.at00 e
                  "ETH_USDC" "dex" (NewFromInt 2050)))
        !! "ETH_USDC")).
Proof.
  intros e.
  assert (Hasc : Feeds.ascending
                   (default [] (Twap.priceCache e !! "ETH_USDC")))
    by (vm_compute; repeat split; discriminate).
  assert (Hpast : Forall (fun p => Twap.Timestamp p <= Scenario.at00)
                         (default [] (Twap.priceCache e !! "ETH_USDC"))).
  { change (default [] (Twap.priceCache e !! "ETH_USDC"))
      with Scenario.threePoints.
    repeat constructor; vm_compute; discriminate. }
  split; [exact Hasc|].
  pose proof (storePricePoint_keeps_ascending Scenario.at00 Scenario.at00
                e "ETH_USDC" "dex" (NewFromInt 2050) Hasc Hpast) as H.
  exact (proj1 H).
Defined.

(** ** Event routing *)

(** X18: with the handlers of [setupEventHandlers], [handleEvent]
    returns nil and changes nothing for every event type but
    [order_created], [order_executed], [order_completed], [htlc_created]
    and [htlc_claimed]: cancellations, refunds, new blocks and unknown
    types are ignored, and price updates are handled by a handler that
    does nothing. *)
Theorem handleEvent_ignores_other_types (env : Orchestrator.Env)
    (o : Orchestrator.Orchestrator) (ev : Orchestrator.ChainEvent) :
  Orchestrator.eventHandlers o = Orchestrator.setupEventHandlers ->
  ~ In (Orchestrator.EventType ev)
       ["order_created"; "order_executed"; "order_completed";
        "htlc_created"; "htlc_claimed"] ->
  Orchestrator.handleEvent env o ev = Some (o, None).
Proof.
  intros Hhandlers Htype.
  unfold Orchestrator.handleEvent. rewrite Hhandlers.
  unfold Orchestrator.setupEventHandlers.
  destruct (decide (Orchestrator.EventType ev = "price_update")) as [->|Hp].
  { rewrite lookup_insert_eq. reflexivity. }
  cbn [In] in Htype.
  rewrite !lookup_insert_ne by (intros Heq; apply Htype; rewrite <- Heq;
    unfold Orchestrator.EventOrderCreated, Orchestrator.EventOrderExecuted,
      Orchestrator.EventOrderCompleted, Orchestrator.EventHTLCCreated,
      Orchestrator.EventHTLCClaimed, Orchestrator.EventPriceUpdate in *;
    tauto || congruence).
  rewrite lookup_empty. reflexivity.
Qed.

(** A cancellation is ignored. *)
Lemma handleEvent_ignores_other_types_witness :
  let o := Scenario.orchestrator Scenario.fresh in
  Orchestrator.handleEvent (Scenario.quiet Scenario.at00) o
    (Scenario.event "order_cancelled" Scenario.aboutOrder1)
  = Some (o, None).
Proof.
  intros o.
  apply handleEvent_ignores_other_types; [reflexivity|].
  cbn. intros [H|[H|[H|[H|[H|[]]]]]]; discriminate.
Defined.

(** ** Order events *)

(** A row that is found is a row that is affected. *)
Lemma find_some_present (id : string) (rows : list Database.Order)
    (row : Database.Order) :
  List.find (fun o => String.eqb (Database.ID o) id) rows = Some row ->
  Nat.eqb (length (List.filter (fun o => String.eqb (Database.ID o) id) rows))
          0 = false.
Proof.
  intros Hfind. apply Nat.eqb_neq. intros Hnone.
  apply filter_none_find_none in Hnone. congruence.
Qed.

(** X19: the outcome of [handleOrderExecuted]: an event without a
    string [order_id], an unknown order and a failed update each return
    their error and change nothing; otherwise the order reads back with
    status "executing" and a new [updated_at], its amounts, last
    execution and average price as before, and other orders unchanged.
    The statistics, the execution history and the HTLC table are never
    touched. *)
Theorem handleOrderExecuted_outcome (env : Orchestrator.Env)
    (o : Orchestrator.Orchestrator) (ev : Orchestrator.ChainEvent) :
  let r := Orchestrator.handleOrderExecuted env o ev in
  Orchestrator.stats (fst r) = Orchestrator.stats o /\
  Database.execution_history (Orchestrator.db (fst r))
  = Database.execution_history (Orchestrator.db o) /\
  Database.htlcs (Orchestrator.db (fst r)) = Database.htlcs (Orchestrator.db o) /\
  match Orchestrator.Data ev !! "order_id" with
  | Some (Orchestrator.VString id) =>
      match Database.GetOrder (Orchestrator.db o)
                              (Orchestrator.failGetOrder env) id with
      | inr cause => r = (o, Some (Orchestrator.ErrGetOrder cause))
      | inl row =>
          if Orchestrator.failUpdateOrder env
          then r = (o, Some (Orchestrator.ErrUpdateOrder Database.ErrDriver))
          else
            snd r = None /\
            Database.GetOrder (Orchestrator.db (fst r)) false id
            = inl (Database.with_tail row (Orchestrator.now env)
                     (Database.ExecutedAmount row)
                     (Database.LastExecution row) "executing"
                     (Database.AveragePrice row)) /\
            (forall other, other <> id ->
               Database.GetOrder (Orchestrator.db (fst r)) false other
               = Database.GetOrder (Orchestrator.db o) false other)
      end
  | _ => r = (o, Some Orchestrator.ErrMissingOrderID)
  end.
Proof.
  cbv zeta. unfold Orchestrator.handleOrderExecuted.
  destruct (Orchestrator.Data ev !! "order_id") as [[id|]|];
    [|cbn; auto|cbn; auto].
  destruct (Database.GetOrder _ _ id) as [row|cause] eqn:Hget; [|cbn; auto].
  destruct (GetOrder_found _ _ _ _ Hget) as (Hfault & Hin & Hid).
  unfold Database.UpdateOrder.
  destruct (Orchestrator.failUpdateOrder env); [cbn; auto|].
  unfold Database.GetOrder in Hget. rewrite Hfault in Hget.
  destruct (List.find _ _) as [found|] eqn:Hfind; [|discriminate].
  injection Hget as ->.
  cbn [Database.ID Database.set_UpdatedAt Database.set_Status
       Database.with_tail].
  rewrite Hid, (find_some_present _ _ _ Hfind).
  cbn [fst snd Orchestrator.set_db Orchestrator.db Orchestrator.stats
       Database.execution_history Database.htlcs].
  repeat split.
  - unfold Database.GetOrder. cbn [Database.orders].
    rewrite find_update_row, Hfind. cbn [fmap option_fmap option_map].
    unfold Database.update_row.
    cbn [Database.ID Database.with_tail Database.set_UpdatedAt
         Database.set_Status Database.ExecutedAmount Database.LastExecution
         Database.Status Database.AveragePrice].
    rewrite String.eqb_refl. reflexivity.
  - intros other Hne. unfold Database.GetOrder. cbn [Database.orders].
    rewrite find_update_row_other; [reflexivity|].
    cbn [Database.ID Database.with_tail Database.set_UpdatedAt
         Database.set_Status]. congruence.
Qed.

(** Writing the same columns twice is writing them once. *)
Lemma update_row_again (now : Z) (order order' row : Database.Order) :
  Database.ID order' = Database.ID order ->
  Database.ExecutedAmount order' = Database.ExecutedAmount order ->
  Database.LastExecution order' = Database.LastExecution order ->
  Database.Status order' = Database.Status order ->
  Database.AveragePrice order' = Database.AveragePrice order ->
  Database.update_row now order' (Database.update_row now order row)
  = Database.update_row now order row.
Proof.
  intros Hid Hex Hle Hst Havg. unfold Database.update_row.
  rewrite Hid, Hex, Hle, Hst, Havg.
  destruct (String.eqb (Database.ID row) (Database.ID order)) eqn:Heq.
  - cbn [Database.ID Database.with_tail]. rewrite Heq. reflexivity.
  - rewrite Heq. reflexivity.
Qed.

(** [handleOrderExecuted] when every step succeeds. *)
Lemma handleOrderExecuted_success (env : Orchestrator.Env)
    (o : Orchestrator.Orchestrator) (ev : Orchestrator.ChainEvent)
    (id : string) (row : Database.Order) :
  Orchestrator.Data ev !! "order_id" = Some (Orchestrator.VString id) ->
  Database.GetOrder (Orchestrator.db o) (Orchestrator.failGetOrder env) id
  = inl row ->
  Orchestrator.failUpdateOrder env = false ->
  Orchestrator.handleOrderExecuted env o ev
  = (Orchestrator.set_db o
       (Database.mkDB
          (List.map
             (Database.update_row (Orchestrator.now env)
                (Database.with_tail row (Orchestrator.now env)
                   (Database.ExecutedAmount row) (Database.LastExecution row)
                   "executing" (Database.AveragePrice row)))
             (Database.orders (Orchestrator.db o)))
          (Database.execution_history (Orchestrator.db o))
          (Database.htlcs (Orchestrator.db o))),
     None).
Proof.
  intros Hdata Hget Hupd.
  unfold Orchestrator.handleOrderExecuted. rewrite Hdata, Hget, Hupd.
  destruct (GetOrder_found _ _ _ _ Hget) as (_ & Hin & Hid).
  change (Database.set_UpdatedAt
            (Database.set_Status row Database.OrderStatusExecuting)
            (Orchestrator.now env))
    with (Database.with_tail row (Orchestrator.now env)
            (Database.ExecutedAmount row) (Database.LastExecution row)
            "executing" (Database.AveragePrice row)).
  rewrite UpdateOrder_present; [reflexivity|].
  exists row. split; [exact Hin|reflexivity].
Qed.

(** X20: [handleOrderExecuted] is idempotent at one clock reading:
    a second delivery of the event returns what the first returned and
    leaves the orchestrator as the first left it. *)
Theorem handleOrderExecuted_idempotent (env : Orchestrator.Env)
    (o : Orchestrator.Orchestrator) (ev : Orchestrator.ChainEvent) :
  Orchestrator.handleOrderExecuted env
    (fst (Orchestrator.handleOrderExecuted env o ev)) ev
  = Orchestrator.handleOrderExecuted env o ev.
Proof.
  destruct (Orchestrator.Data ev !! "order_id") as [[id|]|] eqn:Hdata.
  2,3: unfold Orchestrator.handleOrderExecuted; rewrite Hdata; reflexivity.
  destruct (Database.GetOrder (Orchestrator.db o)
              (Orchestrator.failGetOrder env) id) as [row|cause] eqn:Hget.
  2:{ unfold Orchestrator.handleOrderExecuted. rewrite Hdata, Hget.
      cbn [fst]. rewrite Hget. reflexivity. }
  destruct (Orchestrator.failUpdateOrder env) eqn:Hupd.
  { unfold Orchestrator.handleOrderExecuted, Database.UpdateOrder.
    rewrite Hdata, Hget, Hupd. cbn [fst]. rewrite Hget. reflexivity. }
  rewrite (handleOrderExecuted_success env o ev id row Hdata Hget Hupd).
  cbn [fst].
  destruct (GetOrder_found _ _ _ _ Hget) as (Hfault & _ & Hid).
  set (order := Database.with_tail row (Orchestrator.now env)
                  (Database.ExecutedAmount row) (Database.LastExecution row)
                  "executing" (Database.AveragePrice row)).
  assert (Hrow : Database.update_row (Orchestrator.now env) order row = order).
  { unfold Database.update_row. subst order.
    cbn [Database.ID Database.with_tail]. rewrite String.eqb_refl.
    reflexivity. }
  assert (Hget1 :
    Database.GetOrder
      (Orchestrator.db
         (Orchestrator.set_db o
            (Database.mkDB
               (List.map (Database.update_row (Orchestrator.now env) order)
                         (Database.orders (Orchestrator.db o)))
               (Database.execution_history (Orchestrator.db o))
               (Database.htlcs (Orchestrator.db o)))))
      (Orchestrator.failGetOrder env) id = inl order).
  { revert Hget. unfold Database.GetOrder. rewrite Hfault.
    cbn [Orchestrator.db Orchestrator.set_db Database.orders].
    rewrite find_update_row.
    destruct (List.find _ _) as [found|]; [|discriminate].
    intros [= ->]. cbn [fmap option_fmap option_map]. rewrite Hrow.
    reflexivity. }
  rewrite (handleOrderExecuted_success env _ ev id order Hdata Hget1 Hupd).
  unfold Orchestrator.set_db.
  cbn [Orchestrator.db Orchestrator.adapters Orchestrator.eventHandlers
       Orchestrator.stats Database.orders Database.execution_history
       Database.htlcs].
  do 3 f_equal.
  rewrite List.map_map. apply List.map_ext. intros r.
  apply update_row_again; reflexivity.
Qed.

(** ** The timeout monitor *)

(** The store after one iteration of the monitor's loop. *)
Lemma expireIfTimedOut_db (env : Orchestrator.Env)
    (o : Orchestrator.Orchestrator) (order : Database.Order) :
  Orchestrator.failUpdateOrder env = false ->
  Orchestrator.db (Orchestrator.expireIfTimedOut env o order)
  = if (Database.TimeoutTimestamp order <=? Database.Unix (Orchestrator.now env))
       && negb (Nat.eqb
                  (length (List.filter
                             (fun r => String.eqb (Database.ID r)
                                                  (Database.ID order))
                             (Database.orders (Orchestrator.db o)))) 0)
    then Database.mkDB
           (List.map
              (Database.update_row (Orchestrator.now env)
                 (Database.with_tail order (Orchestrator.now env)
                    (Database.ExecutedAmount order)
                    (Database.LastExecution order) "expired"
                    (Database.AveragePrice order)))
              (Database.orders (Orchestrator.db o)))
           (Database.execution_history (Orchestrator.db o))
           (Database.htlcs (Orchestrator.db o))
    else Orchestrator.db o.
Proof.
  intros Hupd. unfold Orchestrator.expireIfTimedOut, Database.UpdateOrder.
  rewrite Hupd.
  destruct (Database.TimeoutTimestamp order <=? _); [|reflexivity].
  cbn [andb].
  change (Database.ID (Database.set_UpdatedAt
                         (Database.set_Status order Database.OrderStatusExpired)
                         (Orchestrator.now env)))
    with (Database.ID order).
  destruct (Nat.eqb _ 0); reflexivity.
Qed.

(** One iteration of the loop: ids, history and HTLCs are kept, expired
    rows stay expired, other ids are found as before, and the rows of a
    timed-out order are expired. *)
Lemma expire_step (env : Orchestrator.Env) (o : Orchestrator.Orchestrator)
    (order : Database.Order) :
  Orchestrator.failUpdateOrder env = false ->
  let o' := Orchestrator.expireIfTimedOut env o order in
  List.map Database.ID (Database.orders (Orchestrator.db o'))
  = List.map Database.ID (Database.orders (Orchestrator.db o)) /\
  Database.execution_history (Orchestrator.db o')
  = Database.execution_history (Orchestrator.db o) /\
  Database.htlcs (Orchestrator.db o') = Database.htlcs (Orchestrator.db o) /\
  (forall id, Monitor.expired_rows id (Database.orders (Orchestrator.db o)) ->
              Monitor.expired_rows id (Database.orders (Orchestrator.db o'))) /\
  (forall id,
     (Database.TimeoutTimestamp order <=? Database.Unix (Orchestrator.now env))
     = false \/ Database.ID order <> id ->
     List.find (fun r => String.eqb (Database.ID r) id)
               (Database.orders (Orchestrator.db o'))
     = List.find (fun r => String.eqb (Database.ID r) id)
                 (Database.orders (Orchestrator.db o))) /\
  ((Database.TimeoutTimestamp order <=? Database.Unix (Orchestrator.now env))
   = true ->
   Monitor.expired_rows (Database.ID order) (Database.orders (Orchestrator.db o'))).
Proof.
  intros Hupd. cbv zeta. rewrite (expireIfTimedOut_db _ _ _ Hupd).
  set (order' := Database.with_tail order _ _ _ _ _).
  assert (Hstep : forall id rows,
            Monitor.expired_rows id rows ->
            Monitor.expired_rows id
              (List.map (Database.update_row (Orchestrator.now env) order')
                        rows)).
  { intros id rows Hexp row' Hin Hid.
    apply in_map_iff in Hin as (row & <- & Hin).
    rewrite update_row_ID in Hid.
    unfold Database.update_row.
    destruct (String.eqb _ _); [reflexivity|]. apply Hexp; assumption. }
  destruct (Database.TimeoutTimestamp order <=? _) eqn:Hto; cbn [andb].
  2:{ repeat split; auto. discriminate. }
  destruct (Nat.eqb _ 0) eqn:Hnone; cbn [negb Database.orders
    Database.execution_history Database.htlcs].
  - repeat split; auto.
    intros _ row Hin Hid. exfalso.
    apply Nat.eqb_eq, filter_none_find_none in Hnone.
    apply (find_none _ _ Hnone) in Hin. rewrite Hid, String.eqb_refl in Hin.
    discriminate.
  - repeat split; auto.
    + rewrite List.map_map. apply List.map_ext. intros r.
      apply update_row_ID.
    + intros id [Hno|Hne]; [discriminate|].
      apply find_update_row_other. subst order'.
      cbn [Database.ID Database.with_tail]. congruence.
    + intros _ row' Hin Hid.
      apply in_map_iff in Hin as (row & <- & Hin).
      rewrite update_row_ID in Hid.
      unfold Database.update_row. subst order'.
      cbn [Database.ID Database.with_tail]. rewrite Hid, String.eqb_refl.
      reflexivity.
Qed.

(** The same for the whole loop. *)
Lemma expire_all (env : Orchestrator.Env) (l : list Database.Order) :
  Orchestrator.failUpdateOrder env = false ->
  forall o : Orchestrator.Orchestrator,
  let o' := List.fold_left (Orchestrator.expireIfTimedOut env) l o in
  List.map Database.ID (Database.orders (Orchestrator.db o'))
  = List.map Database.ID (Database.orders (Orchestrator.db o)) /\
  Database.execution_history (Orchestrator.db o')
  = Database.execution_history (Orchestrator.db o) /\
  Database.htlcs (Orchestrator.db o') = Database.htlcs (Orchestrator.db o) /\
  (forall id, Monitor.expired_rows id (Database.orders (Orchestrator.db o)) ->
              Monitor.expired_rows id (Database.orders (Orchestrator.db o'))) /\
  (forall id,
     (forall x, In x l ->
        Database.TimeoutTimestamp x <= Database.Unix (Orchestrator.now env) ->
        Database.ID x <> id) ->
     List.find (fun r => String.eqb (Database.ID r) id)
               (Database.orders (Orchestrator.db o'))
     = List.find (fun r => String.eqb (Database.ID r) id)
                 (Database.orders (Orchestrator.db o))) /\
  (forall x, In x l ->
     Database.TimeoutTimestamp x <= Database.Unix (Orchestrator.now env) ->
     Monitor.expired_rows (Database.ID x) (Database.orders (Orchestrator.db o'))).
Proof.
  intros Hupd. induction l as [|y l IH]; intros o; cbn [List.fold_left].
  { cbv zeta. repeat split; auto. intros x []. }
  cbv zeta.
  destruct (expire_step env o y Hupd) as (Hids & Hh & Hs & Hkeep & Hfind & Hexp).
  destruct (IH (Orchestrator.expireIfTimedOut env o y))
    as (Hids' & Hh' & Hs' & Hkeep' & Hfind' & Hexp').
  split; [congruence|]. split; [congruence|]. split; [congruence|].
  split; [auto|]. split.
  - intros id Hother. rewrite Hfind'.
    + apply Hfind.
      destruct (Database.TimeoutTimestamp y <=? _) eqn:Hto; [|auto].
      right. apply Hother; [left; reflexivity|]. apply Z.leb_le, Hto.
    + intros x Hin. apply Hother. right. exact Hin.
  - intros x [<-|Hin] Hto.
    + apply Hkeep', Hexp. apply Z.leb_le, Hto.
    + apply Hexp'; assumption.
Qed.

(** X21: when the store accepts the updates, [checkOrderTimeouts]
    leaves every selected order whose timeout timestamp has passed
    stored as expired, and every order id that no such order carries
    reading back as before; the execution history and the HTLC table
    are untouched. *)
Theorem checkOrderTimeouts_expires (env : Orchestrator.Env)
    (o : Orchestrator.Orchestrator) (l : list Database.Order) :
  Orchestrator.failUpdateOrder env = false ->
  Database.GetExecutableOrders (Orchestrator.db o)
    (Orchestrator.failGetExecutableOrders env) (Orchestrator.now env)
  = inl l ->
  let o' := fst (Orchestrator.checkOrderTimeouts env o) in
  let timedOut := fun x =>
    In x l /\
    Database.TimeoutTimestamp x <= Database.Unix (Orchestrator.now env) in
  snd (Orchestrator.checkOrderTimeouts env o) = None /\
  (forall x, timedOut x ->
     exists row,
       Database.GetOrder (Orchestrator.db o') false (Database.ID x) = inl row /\
       Database.Status row = "expired") /\
  (forall id, (forall x, timedOut x -> Database.ID x <> id) ->
     Database.GetOrder (Orchestrator.db o') false id
     = Database.GetOrder (Orchestrator.db o) false id) /\
  Database.execution_history (Orchestrator.db o')
  = Database.execution_history (Orchestrator.db o) /\
  Database.htlcs (Orchestrator.db o') = Database.htlcs (Orchestrator.db o).
Proof.
  intros Hupd Hget. cbv zeta.
  unfold Orchestrator.checkOrderTimeouts. rewrite Hget. cbn [fst snd].
  destruct (expire_all env l Hupd o) as (Hids & Hh & Hs & _ & Hfind & Hexp).
  split; [reflexivity|]. split; [|split; [|split; assumption]].
  - intros x [Hin Hto].
    assert (Hrow : In (Database.ID x)
                      (List.map Database.ID
                         (Database.orders (Orchestrator.db o)))).
    { destruct (Orchestrator.failGetExecutableOrders env); [discriminate|].
      apply in_map. apply (GetExecutableOrders_members _ _ _ Hget), Hin. }
    rewrite <- Hids in Hrow. apply in_map_iff in Hrow as (row' & Hid & Hin').
    unfold Database.GetOrder.
    destruct (List.find _ _) as [row|] eqn:Hfound.
    + exists row. split; [reflexivity|].
      apply find_some in Hfound as [Hin'' Heq]. apply String.eqb_eq in Heq.
      apply (Hexp x Hin Hto row Hin'' Heq).
    + apply (find_none _ _ Hfound) in Hin'.
      rewrite Hid, String.eqb_refl in Hin'. discriminate.
  - intros id Hother. unfold Database.GetOrder. rewrite Hfind; [reflexivity|].
    intros x Hin Hto. apply Hother. split; assumption.
Qed.

(** The monitor expires the overdue order and keeps the fresh one. *)
Lemma checkOrderTimeouts_expires_witness :
  let env := Scenario.quiet Scenario.at00 in
  let o' := fst (Orchestrator.checkOrderTimeouts env Cases.monitored) in
  Database.GetExecutableOrders (Orchestrator.db Cases.monitored) false
                               Scenario.at00
  = inl [Cases.overdue; Scenario.fresh] /\
  (exists row,
     Database.GetOrder (Orchestrator.db o') false "order-2" = inl row /\
     Database.Status row = "expired") /\
  Database.GetOrder (Orchestrator.db o') false "order-1"
  = inl Scenario.fresh.
Proof.
  intros env o'.
  assert (Hget : Database.GetExecutableOrders
                   (Orchestrator.db Cases.monitored)
                   (Orchestrator.failGetExecutableOrders env)
                   (Orchestrator.now env)
                 = inl [Cases.overdue; Scenario.fresh])
    by (vm_compute; reflexivity).
  split; [exact Hget|].
  destruct (checkOrderTimeouts_expires env Cases.monitored _ eq_refl Hget)
    as (_ & Hexpired & Hkept & _).
  split.
  - apply (Hexpired Cases.overdue). split; [left; reflexivity|].
    vm_compute. discriminate.
  - subst o'. rewrite (Hkept "order-1"); [reflexivity|].
    intros x [[<-|[<-|[]]] Hto]; [discriminate|].
    exfalso. revert Hto. vm_compute. intros H. apply H. reflexivity.
Defined.

(** ** The contract *)

(** Everything a successful [executeTWAPInterval] went through, and the
    state it leaves. *)
Lemma executeTWAPInterval_inversion (ctx : Bridge.Context)
    (st st' : Bridge.State) (orderId amt price proofLength : Z) :
  Bridge.executeTWAPInterval ctx st orderId amt price proofLength = Some st' ->
  exists o duration twapPrice slip avg,
    Bridge.orders st !! orderId = Some o /\
    Bridge.user o <> 0 /\
    Bridge.sender ctx ∈ Bridge.authorizedExecutors st /\
    Bridge.status o = Bridge.Executing /\
    0 < amt /\ Bridge.executedAmount o <= Bridge.sourceAmount o /\
    amt <= Bridge.sourceAmount o - Bridge.executedAmount o /\
    Bridge.block_number ctx < Bridge.timeoutHeight o /\
    Bridge._getIntervalDuration (Bridge.twapConfig o) = Some duration /\
    Bridge.lastExecution o + duration <= Bridge.MAX_UINT256 /\
    (Bridge.lastExecution o = 0 \/
     Bridge.lastExecution o + duration <= Bridge.block_timestamp ctx) /\
    0 < price /\ 0 < proofLength /\
    Bridge._calculateTWAP ctx st orderId = Some twapPrice /\
    (if 0 <? twapPrice
     then Bridge._calculateSlippage twapPrice price = Some slip /\
          slip <= Bridge.maxSlippage (Bridge.twapConfig o)
     else slip = 0) /\
    (Bridge.minFillSize (Bridge.twapConfig o) <= amt \/
     amt = Bridge.sourceAmount o - Bridge.executedAmount o) /\
    Bridge.executedAmount o + amt <= Bridge.MAX_UINT256 /\
    (if Bridge.averagePrice o =? 0 then avg = price
     else Bridge._calculateWeightedAveragePrice
            (Bridge.with_tail o (Bridge.executedAmount o + amt)
               (Bridge.block_timestamp ctx) (Bridge.status o)
               (Bridge.averagePrice o)) price amt = Some avg) /\
    let completed :=
      Bridge.sourceAmount o <=? Bridge.executedAmount o + amt in
    let o' :=
      Bridge.with_tail o (Bridge.executedAmount o + amt)
        (Bridge.block_timestamp ctx)
        (if completed then Bridge.Completed else Bridge.status o) avg in
    let history := default [] (Bridge.executionHistory st !! orderId) in
    let ev1 :=
      Bridge.TWAPExecution orderId (Z.of_nat (length history)) amt price
        (Bridge.block_timestamp ctx) (Bridge.sender ctx) in
    st' = Bridge.mkState
            (<[orderId := o']> (Bridge.orders st))
            (<[orderId := history
                 ++ [Bridge.mkExecutionRecord (Bridge.block_timestamp ctx)
                       amt price (Bridge.gasleft ctx) slip]]>
               (Bridge.executionHistory st))
            (Bridge.authorizedExecutors st) (Bridge.userOrderCount st)
            (Bridge.events st
             ++ if completed
                then [ev1; Bridge.OrderCompleted orderId
                             (Bridge.executedAmount o + amt) avg
                             (Bridge.block_timestamp ctx)]
                else [ev1]).
Proof.
  unfold Bridge.executeTWAPInterval, Bridge.orderExists.
  destruct (bool_decide_reflect
              (Bridge.sender ctx ∈ Bridge.authorizedExecutors st))
    as [Hauth|Hauth]; cbn [Bridge.require andb mbind option_bind]; [|discriminate].
  destruct (Bridge.orders st !! orderId) as [o|] eqn:Ho;
    cbn [Bridge.require andb mbind option_bind]; [|discriminate].
  destruct (Bridge.user o =? 0) eqn:Huser;
    cbn [Bridge.require andb mbind option_bind]; [discriminate|].
  apply Z.eqb_neq in Huser.
  destruct (bool_decide_reflect (Bridge.status o = Bridge.Executing))
    as [Hst|Hst]; cbn [Bridge.require andb mbind option_bind]; [|discriminate].
  destruct (0 <? amt) eqn:Hamt; cbn [Bridge.require andb mbind option_bind]; [|discriminate].
  apply Z.ltb_lt in Hamt.
  destruct (Bridge.sub256 (Bridge.sourceAmount o) (Bridge.executedAmount o))
    as [remaining|] eqn:Hsub; cbn [Bridge.require andb mbind option_bind];
    [|discriminate].
  unfold Bridge.sub256 in Hsub.
  destruct (Bridge.executedAmount o <=? Bridge.sourceAmount o) eqn:Hex;
    [|discriminate].
  apply Z.leb_le in Hex. injection Hsub as <-.
  destruct (amt <=? _) eqn:Hrem; cbn [Bridge.require andb mbind option_bind]; [|discriminate].
  apply Z.leb_le in Hrem.
  destruct (Bridge.block_number ctx <? _) eqn:Hh; cbn [Bridge.require andb mbind option_bind];
    [|discriminate].
  apply Z.ltb_lt in Hh.
  destruct (Bridge._getIntervalDuration _) as [duration|] eqn:Hdur;
    cbn [Bridge.require andb mbind option_bind]; [|discriminate].
  destruct (Bridge.add256 (Bridge.lastExecution o) duration)
    as [next|] eqn:Hnext; cbn [Bridge.require andb mbind option_bind];
    [|discriminate].
  unfold Bridge.add256 in Hnext.
  destruct (Bridge.lastExecution o + duration <=? Bridge.MAX_UINT256)
    eqn:Hov; [|discriminate].
  apply Z.leb_le in Hov. injection Hnext as <-.
  destruct ((Bridge.lastExecution o =? 0) || _) eqn:Htime;
    cbn [Bridge.require andb mbind option_bind]; [|discriminate].
  unfold Bridge._verifyPrice.
  destruct (0 <? price) eqn:Hprice; cbn [Bridge.require andb mbind option_bind];
    [|discriminate].
  apply Z.ltb_lt in Hprice.
  destruct (0 <? proofLength) eqn:Hproof; cbn [Bridge.require andb mbind option_bind];
    [|discriminate].
  apply Z.ltb_lt in Hproof.
  destruct (Bridge._calculateTWAP ctx st orderId) as [twapPrice|] eqn:Htwap;
    cbn [Bridge.require andb mbind option_bind]; [|discriminate].
  match goal with
  | |- context [mbind _ (if 0 <? twapPrice then ?a else ?b)] =>
      set (slipM := if 0 <? twapPrice then a else b)
  end.
  destruct slipM as [slip|] eqn:Hslip; cbn [Bridge.require andb mbind option_bind];
    [|discriminate].
  destruct ((Bridge.minFillSize _ <=? amt) || _) eqn:Hfill;
    cbn [Bridge.require andb mbind option_bind]; [|discriminate].
  destruct (Bridge.add256 (Bridge.executedAmount o) amt)
    as [executed|] eqn:Hadd; cbn [Bridge.require andb mbind option_bind];
    [|discriminate].
  unfold Bridge.add256 in Hadd.
  destruct (Bridge.executedAmount o + amt <=? Bridge.MAX_UINT256) eqn:Hsum;
    [|discriminate].
  apply Z.leb_le in Hsum. injection Hadd as <-.
  match goal with
  | |- context [mbind _ (if ?c then ?a else ?b)] =>
      set (avgM := if c then a else b)
  end.
  destruct avgM as [avg|] eqn:Havg; cbn [Bridge.require andb mbind option_bind]; [|discriminate].
  intros Hst'.
  exists o, duration, twapPrice, slip, avg.
  repeat (split; [first [assumption | reflexivity]|]).
  split.
  { apply orb_true_iff in Htime as [H|H];
      [left; apply Z.eqb_eq, H|right; apply Z.leb_le, H]. }
  repeat (split; [first [assumption | reflexivity]|]).
  split.
  { subst slipM. destruct (0 <? twapPrice); [|congruence].
    destruct (Bridge._calculateSlippage twapPrice price) as [s|];
      [|discriminate].
    cbn [mbind option_bind] in Hslip.
    destruct (s <=? _) eqn:Hs; [|discriminate].
    cbn in Hslip. injection Hslip as <-. split; [reflexivity|].
    apply Z.leb_le, Hs. }
  split.
  { apply orb_true_iff in Hfill as [H|H];
      [left; apply Z.leb_le, H|right; apply Z.eqb_eq, H]. }
  split; [exact Hsum|].
  split.
  { subst avgM. revert Havg. cbn [Bridge.averagePrice Bridge.with_tail].
    destruct (Bridge.averagePrice o =? 0); [congruence|auto]. }
  cbv zeta. revert Hst'.
  cbn [Bridge.sourceAmount Bridge.executedAmount Bridge.with_tail
       Bridge.status Bridge.lastExecution Bridge.averagePrice].
  destruct (Bridge.sourceAmount o <=? Bridge.executedAmount o + amt);
    intros [= <-]; reflexivity.
Qed.

(** X22: what a successful [executeTWAPInterval] implies: the sender is
    an authorised executor, the order exists and is executing, the
    amount is positive and within the remainder, the block number is
    below the timeout height, price and proof are not empty, the amount
    reaches the minimum fill size or is the whole remainder, and
    [getNextExecutionTime] of that moment is not in the future. *)
Theorem executeTWAPInterval_guards (ctx : Bridge.Context)
    (st st' : Bridge.State) (orderId amt price proofLength : Z) :
  Bridge.executeTWAPInterval ctx st orderId amt price proofLength = Some st' ->
  exists o,
    Bridge.orders st !! orderId = Some o /\
    Bridge.user o <> 0 /\
    Bridge.sender ctx ∈ Bridge.authorizedExecutors st /\
    Bridge.status o = Bridge.Executing /\
    0 < amt <= Bridge.sourceAmount o - Bridge.executedAmount o /\
    Bridge.block_number ctx < Bridge.timeoutHeight o /\
    0 < price /\ 0 < proofLength /\
    (Bridge.minFillSize (Bridge.twapConfig o) <= amt \/
     amt = Bridge.sourceAmount o - Bridge.executedAmount o) /\
    exists next,
      BridgeRules.getNextExecutionTime ctx st orderId = Some next /\
      next <= Bridge.block_timestamp ctx.
Proof.
  intros Hrun.
  destruct (executeTWAPInterval_inversion _ _ _ _ _ _ _ Hrun)
    as (o & duration & twapPrice & slip & avg & Ho & Huser & Hauth & Hst
        & Hamt & Hex & Hrem & Hh & Hdur & Hov & Htime & Hprice & Hproof & _
        & _ & Hfill & _).
  exists o. repeat (split; [first [assumption | lia]|]).
  unfold BridgeRules.getNextExecutionTime. rewrite Ho.
  destruct (Bridge.lastExecution o =? 0) eqn:Hlast.
  { eexists. split; [reflexivity|]. lia. }
  apply Z.eqb_neq in Hlast. destruct Htime as [Hzero|Hnext]; [contradiction|].
  rewrite Hdur. cbn [mbind option_bind]. unfold Bridge.add256.
  apply Z.leb_le in Hov. rewrite Hov.
  eexists. split; [reflexivity|]. exact Hnext.
Qed.

(** The two intervals of the scenario succeed. *)
Lemma first_interval :
  Bridge.executeTWAPInterval (Cases.executor 1700000100) Cases.liveBridge
                             1 250 2000 32
  = Some Cases.afterFirst.
Proof.
  vm_compute. reflexivity.
Qed.

Lemma second_interval :
  Bridge.executeTWAPInterval (Cases.executor 1700000400) Cases.afterFirst
                             1 250 2010 32
  = Some Cases.afterSecond.
Proof.
  vm_compute. reflexivity.
Qed.

(** The first interval of the scenario. *)
Lemma executeTWAPInterval_guards_witness :
  Bridge.executeTWAPInterval (Cases.executor 1700000100) Cases.liveBridge
                             1 250 2000 32
  = Some Cases.afterFirst /\
  exists o,
    Bridge.orders Cases.liveBridge !! 1 = Some o /\
    Bridge.status o = Bridge.Executing /\
    2827 ∈ Bridge.authorizedExecutors Cases.liveBridge.
Proof.
  split; [exact first_interval|].
  destruct (executeTWAPInterval_guards _ _ _ _ _ _ _ first_interval)
    as (o & Ho & _ & Hauth & Hst & _).
  exists o. repeat split; assumption.
Defined.

(** The recorded amount after one more record. *)
Lemma recordedAmount_snoc (history : list Bridge.ExecutionRecord)
    (r : Bridge.ExecutionRecord) :
  BridgeRules.recordedAmount (history ++ [r])
  = BridgeRules.recordedAmount history + Bridge.amount r.
Proof.
  unfold BridgeRules.recordedAmount.
  induction history as [|x history IH]; cbn [app List.map List.fold_right].
  - lia.
  - rewrite IH. lia.
Qed.

(** X23: what a successful [executeTWAPInterval] writes: one record
    (block time, amount, price) at the end of the order's history; the
    amount added to the order's executed amount and the block time as
    its last execution, so that an executed amount equal to the sum of
    the recorded amounts stays so; one [TWAPExecution] event numbered by
    the former length of the history, followed by at most one more
    event.  Other orders and histories, the executors and the order
    counts are untouched. *)
Theorem executeTWAPInterval_ledger (ctx : Bridge.Context)
    (st st' : Bridge.State) (orderId amt price proofLength : Z) :
  Bridge.executeTWAPInterval ctx st orderId amt price proofLength = Some st' ->
  let history := fun s => default [] (Bridge.executionHistory s !! orderId) in
  (exists record,
     history st' = history st ++ [record] /\
     Bridge.timestamp record = Bridge.block_timestamp ctx /\
     Bridge.amount record = amt /\ Bridge.price record = price) /\
  (forall o o',
     Bridge.orders st !! orderId = Some o ->
     Bridge.orders st' !! orderId = Some o' ->
     Bridge.executedAmount o' = Bridge.executedAmount o + amt /\
     Bridge.lastExecution o' = Bridge.block_timestamp ctx /\
     (Bridge.executedAmount o = BridgeRules.recordedAmount (history st) ->
      Bridge.executedAmount o' = BridgeRules.recordedAmount (history st'))) /\
  (forall other, other <> orderId ->
     Bridge.orders st' !! other = Bridge.orders st !! other /\
     Bridge.executionHistory st' !! other = Bridge.executionHistory st !! other)
  /\
  Bridge.authorizedExecutors st' = Bridge.authorizedExecutors st /\
  Bridge.userOrderCount st' = Bridge.userOrderCount st /\
  exists logged,
    Bridge.events st' = Bridge.events st ++ logged /\
    (length logged = 1%nat \/ length logged = 2%nat) /\
    hd_error logged
    = Some (Bridge.TWAPExecution orderId (Z.of_nat (length (history st)))
              amt price (Bridge.block_timestamp ctx) (Bridge.sender ctx)).
Proof.
  intros Hrun.
  destruct (executeTWAPInterval_inversion _ _ _ _ _ _ _ Hrun)
    as (o & duration & twapPrice & slip & avg & Ho & _ & _ & _ & _ & _ & _
        & _ & _ & _ & _ & _ & _ & _ & _ & _ & _ & _ & Hst').
  cbv zeta in Hst'. cbv zeta. subst st'.
  cbn [Bridge.orders Bridge.executionHistory Bridge.authorizedExecutors
       Bridge.userOrderCount Bridge.events].
  rewrite !lookup_insert_eq. cbn [default from_option id].
  split.
  { eexists. split; [reflexivity|]. cbn. auto. }
  split.
  { intros o1 o' Ho1 [= <-]. rewrite Ho in Ho1. injection Ho1 as <-.
    cbn [Bridge.executedAmount Bridge.lastExecution Bridge.with_tail].
    split; [reflexivity|]. split; [reflexivity|].
    intros Hledger. rewrite recordedAmount_snoc. cbn [Bridge.amount]. lia. }
  split.
  { intros other Hne. rewrite !lookup_insert_ne by congruence. auto. }
  split; [reflexivity|]. split; [reflexivity|].
  eexists. split; [reflexivity|].
  destruct (Bridge.sourceAmount o <=? _); cbn; auto.
Qed.

(** The second interval of the scenario. *)
Lemma executeTWAPInterval_ledger_witness :
  Bridge.executeTWAPInterval (Cases.executor 1700000400) Cases.afterFirst
                             1 250 2010 32
  = Some Cases.afterSecond /\
  (exists record,
     default [] (Bridge.executionHistory Cases.afterSecond !! 1)
     = default [] (Bridge.executionHistory Cases.afterFirst !! 1) ++ [record] /\
     Bridge.amount record = 250 /\ Bridge.price record = 2010) /\
  Bridge.authorizedExecutors Cases.afterSecond
  = Bridge.authorizedExecutors Cases.afterFirst.
Proof.
  split; [exact second_interval|].
  destruct (executeTWAPInterval_ledger _ _ _ _ _ _ _ second_interval)
    as ((record & Hhist & _ & Hamount & Hprice) & _ & _ & Hauth & _).
  split; [exists record; repeat split; assumption|exact Hauth].
Defined.

(** A weighted average lies between its two terms, rounded down as
    well. *)
Lemma weighted_average_between (a p w1 w2 : Z) :
  0 <= w1 -> 0 < w2 ->
  Z.min a p <= (a * w1 + p * w2) / (w1 + w2) <= Z.max a p.
Proof.
  intros Hw1 Hw2. split.
  - apply Z.div_le_lower_bound; [lia|].
    destruct (Z.min_spec a p) as [[? ->]|[? ->]]; nia.
  - apply Z.div_le_upper_bound; [lia|].
    destruct (Z.max_spec a p) as [[? ->]|[? ->]]; nia.
Qed.

(** X24: the average price after a successful [executeTWAPInterval]:
    the execution price when the stored average is zero, otherwise
    [(avg * (executed + amount) + price * amount) /
     (executed + 2 * amount)], the executed amount being raised before
    the average is taken; it lies between the former average and the
    execution price. *)
Theorem executeTWAPInterval_average (ctx : Bridge.Context)
    (st st' : Bridge.State) (orderId amt price proofLength : Z)
    (o : Bridge.TWAPOrder) :
  Bridge.orders st !! orderId = Some o ->
  0 <= Bridge.executedAmount o ->
  Bridge.executeTWAPInterval ctx st orderId amt price proofLength = Some st' ->
  exists o',
    Bridge.orders st' !! orderId = Some o' /\
    Bridge.averagePrice o'
    = (if Bridge.averagePrice o =? 0 then price
       else (Bridge.averagePrice o * (Bridge.executedAmount o + amt)
             + price * amt)
            / (Bridge.executedAmount o + amt + amt)) /\
    (Bridge.averagePrice o <> 0 ->
     Z.min (Bridge.averagePrice o) price <= Bridge.averagePrice o'
     <= Z.max (Bridge.averagePrice o) price).
Proof.
  intros Ho Hnonneg Hrun.
  destruct (executeTWAPInterval_inversion _ _ _ _ _ _ _ Hrun)
    as (o1 & duration & twapPrice & slip & avg & Ho1 & _ & _ & _ & Hamt & _
        & _ & _ & _ & _ & _ & _ & _ & _ & _ & _ & _ & Havg & Hst').
  rewrite Ho in Ho1. injection Ho1 as <-.
  cbv zeta in Hst'. subst st'. cbn [Bridge.orders].
  rewrite lookup_insert_eq. eexists. split; [reflexivity|].
  cbn [Bridge.averagePrice Bridge.with_tail].
  destruct (Bridge.averagePrice o =? 0) eqn:Hzero.
  { subst avg. split; [reflexivity|].
    apply Z.eqb_eq in Hzero. intros; contradiction. }
  revert Havg. unfold Bridge._calculateWeightedAveragePrice.
  cbn [Bridge.averagePrice Bridge.executedAmount Bridge.with_tail].
  unfold Bridge.mul256, Bridge.add256, Bridge.div256.
  repeat match goal with
         | |- context [if ?b then _ else _] =>
             destruct b eqn:?; cbn [mbind option_bind]; try discriminate
         end.
  intros [= <-]. split; [reflexivity|]. intros _.
  apply weighted_average_between; lia.
Qed.

(** The second interval: 2000 over 500 and 2010 over 250 give 2003. *)
Lemma executeTWAPInterval_average_witness :
  exists o o',
    Bridge.orders Cases.afterFirst !! 1 = Some o /\
    0 <= Bridge.executedAmount o /\
    Bridge.orders Cases.afterSecond !! 1 = Some o' /\
    Bridge.averagePrice o = 2000 /\
    Bridge.averagePrice o' = (2000 * (250 + 250) + 2010 * 250) / (250 + 250 + 250).
Proof.
  assert (Ho : Bridge.orders Cases.afterFirst !! 1
               = Some (Bridge.with_tail Cases.liveOrder 250 1700000100
                         Bridge.Executing 2000))
    by (vm_compute; reflexivity).
  assert (Hnonneg : 0 <= Bridge.executedAmount
                           (Bridge.with_tail Cases.liveOrder 250 1700000100
                              Bridge.Executing 2000))
    by (vm_compute; discriminate).
  destruct (executeTWAPInterval_average _ _ _ _ _ _ _ _ Ho Hnonneg
              second_interval) as (o' & Ho' & Havg & _).
  eexists _, o'. split; [exact Ho|]. split; [exact Hnonneg|].
  split; [exact Ho'|]. split; [reflexivity|]. exact Havg.
Defined.

(** X25: two successful executions of one order, the first at a block
    time other than zero, are at least one interval duration apart, and
    in between [getNextExecutionTime] is the first block time plus that
    duration. *)
Theorem executions_are_one_interval_apart (ctx1 ctx2 : Bridge.Context)
    (st st1 st2 : Bridge.State) (orderId : Z)
    (amt1 price1 proof1 amt2 price2 proof2 : Z) :
  Bridge.block_timestamp ctx1 <> 0 ->
  Bridge.executeTWAPInterval ctx1 st orderId amt1 price1 proof1 = Some st1 ->
  Bridge.executeTWAPInterval ctx2 st1 orderId amt2 price2 proof2 = Some st2 ->
  exists o duration,
    Bridge.orders st !! orderId = Some o /\
    Bridge._getIntervalDuration (Bridge.twapConfig o) = Some duration /\
    Bridge.block_timestamp ctx1 + duration <= Bridge.block_timestamp ctx2 /\
    BridgeRules.getNextExecutionTime ctx2 st1 orderId
    = Some (Bridge.block_timestamp ctx1 + duration).
Proof.
  intros Hts Hrun1 Hrun2.
  destruct (executeTWAPInterval_inversion _ _ _ _ _ _ _ Hrun1)
    as (o & duration & twapPrice & slip & avg & Ho & _ & _ & _ & _ & _ & _
        & _ & Hdur & _ & _ & _ & _ & _ & _ & _ & _ & _ & Hst1).
  destruct (executeTWAPInterval_inversion _ _ _ _ _ _ _ Hrun2)
    as (o1 & duration1 & twapPrice1 & slip1 & avg1 & Ho1 & _ & _ & _ & _ & _
        & _ & _ & Hdur1 & Hov1 & Htime1 & _).
  cbv zeta in Hst1. subst st1. cbn [Bridge.orders] in Ho1.
  rewrite lookup_insert_eq in Ho1. injection Ho1 as <-.
  cbn [Bridge.twapConfig Bridge.lastExecution Bridge.with_tail] in *.
  rewrite Hdur in Hdur1. injection Hdur1 as <-.
  exists o, duration. split; [exact Ho|]. split; [exact Hdur|].
  destruct Htime1 as [Hzero|Hnext]; [contradiction|].
  split; [exact Hnext|].
  unfold BridgeRules.getNextExecutionTime. cbn [Bridge.orders].
  rewrite lookup_insert_eq.
  cbn [Bridge.twapConfig Bridge.lastExecution Bridge.with_tail].
  apply Z.eqb_neq in Hts. rewrite Hts, Hdur. cbn [mbind option_bind].
  unfold Bridge.add256. apply Z.leb_le in Hov1. rewrite Hov1. reflexivity.
Qed.

(** The two intervals of the scenario are 300 seconds apart. *)
Lemma executions_are_one_interval_apart_witness :
  Bridge.block_timestamp (Cases.executor 1700000100) <> 0 /\
  exists o duration,
    Bridge.orders Cases.liveBridge !! 1 = Some o /\
    Bridge._getIntervalDuration (Bridge.twapConfig o) = Some duration /\
    1700000100 + duration <= 1700000400.
Proof.
  assert (Hts : Bridge.block_timestamp (Cases.executor 1700000100) <> 0)
    by discriminate.
  split; [exact Hts|].
  destruct (executions_are_one_interval_apart _ _ _ _ _ _ _ _ _ _ _ _
              Hts first_interval second_interval)
    as (o & duration & Ho & Hdur & Hapart & _).
  exists o, duration. repeat split; assumption.
Defined.

(** The loop of [_calculateTWAP] keeps the total value between the
    lowest and the highest price times the total weight. *)
Lemma bridge_twap_loop_between (lo hi windowStart : Z)
    (history : list Bridge.ExecutionRecord) :
  Forall (fun r => lo <= Bridge.price r <= hi) history ->
  forall (prev : option Bridge.ExecutionRecord) (V W V' W' : Z),
    0 <= W -> lo * W <= V <= hi * W ->
    Bridge.twap_loop windowStart prev history V W = Some (V', W') ->
    0 <= W' /\ lo * W' <= V' <= hi * W'.
Proof.
  induction 1 as [|r history Hr Hall IH]; intros prev V W V' W' HW HV;
    cbn [Bridge.twap_loop].
  { intros [= <- <-]. auto. }
  destruct (windowStart <=? Bridge.timestamp r); [|apply IH; assumption].
  assert (Hweight : forall weight, 0 <= weight ->
            (v ← Bridge.mul256 (Bridge.price r) weight;
             totalValue ← Bridge.add256 V v;
             totalWeight ← Bridge.add256 W weight;
             Bridge.twap_loop windowStart (Some r) history totalValue
                              totalWeight) = Some (V', W') ->
            0 <= W' /\ lo * W' <= V' <= hi * W').
  { intros weight Hw. unfold Bridge.mul256, Bridge.add256.
    repeat match goal with
           | |- context [if ?b then _ else _] =>
               destruct b; cbn [mbind option_bind]; try discriminate
           end.
    apply IH; [lia|nia]. }
  destruct prev as [q|]; cbn [mbind option_bind].
  - unfold Bridge.sub256 at 1.
    destruct (Bridge.timestamp q <=? Bridge.timestamp r) eqn:Hle;
      cbn [mbind option_bind]; [|discriminate].
    apply Z.leb_le in Hle. apply Hweight. lia.
  - apply Hweight. lia.
Qed.

(** X26: [_calculateTWAP] returns zero or a value between the lowest
    and the highest recorded price. *)
Theorem contract_TWAP_within_prices (ctx : Bridge.Context) (st : Bridge.State)
    (orderId lo hi twap : Z) :
  Forall (fun r => lo <= Bridge.price r <= hi)
         (default [] (Bridge.executionHistory st !! orderId)) ->
  Bridge._calculateTWAP ctx st orderId = Some twap ->
  twap = 0 \/ lo <= twap <= hi.
Proof.
  intros Hall. unfold Bridge._calculateTWAP.
  destruct (default [] (Bridge.executionHistory st !! orderId))
    as [|r history] eqn:Hhist; [intros [= <-]; auto|].
  destruct (Bridge.mul256 _ 60) as [w|]; cbn [mbind option_bind];
    [|discriminate].
  destruct (Bridge.sub256 _ w) as [windowStart|]; cbn [mbind option_bind];
    [|discriminate].
  destruct (Bridge.twap_loop windowStart None (r :: history) 0 0)
    as [[V W]|] eqn:Hloop; cbn [mbind option_bind]; [|discriminate].
  destruct (bridge_twap_loop_between lo hi windowStart (r :: history) Hall
              None 0 0 V W) as (HW & HV); [lia|lia|exact Hloop|].
  destruct (0 <? W) eqn:Hpos; [|intros [= <-]; auto].
  apply Z.ltb_lt in Hpos. unfold Bridge.div256.
  destruct (W =? 0); [discriminate|]. intros [= <-]. right. split.
  - apply Z.div_le_lower_bound; [lia|]. rewrite Z.mul_comm. apply HV.
  - apply Z.div_le_upper_bound; [lia|]. rewrite Z.mul_comm. apply HV.
Qed.

(** After fills at 2000 and 2010 the TWAP is 2009. *)
Lemma contract_TWAP_within_prices_witness :
  exists twap,
    Bridge._calculateTWAP (Cases.executor 1700000700) Cases.afterSecond 1
    = Some twap /\
    (twap = 0 \/ 2000 <= twap <= 2010).
Proof.
  assert (Htwap : Bridge._calculateTWAP (Cases.executor 1700000700)
                                        Cases.afterSecond 1 = Some 2009)
    by (vm_compute; reflexivity).
  assert (Hall : Forall (fun r => 2000 <= Bridge.price r <= 2010)
                   (default [] (Bridge.executionHistory Cases.afterSecond
                                  !! 1))).
  { apply List.Forall_forall. intros r Hin. vm_compute in Hin.
    destruct Hin as [<-|[<-|[]]]; vm_compute; split; discriminate. }
  exists 2009. split; [exact Htwap|].
  exact (contract_TWAP_within_prices _ _ _ _ _ _ Hall Htwap).
Defined.

(** X27: for a configuration that passes [_validateTWAPConfig],
    [_getIntervalDuration] does not revert and lies between 15 seconds
    and 43200 seconds; the intervals together fit into the window. *)
Theorem validated_config_interval (config : Bridge.TWAPConfig) :
  BridgeRules._validateTWAPConfig config = Some () ->
  exists duration,
    Bridge._getIntervalDuration config = Some duration /\
    15 <= duration <= 43200 /\
    duration * Bridge.executionIntervals config
    <= Bridge.windowMinutes config * 60.
Proof.
  unfold BridgeRules._validateTWAPConfig, BridgeRules.MIN_WINDOW_MINUTES,
    BridgeRules.MAX_WINDOW_MINUTES, BridgeRules.MAX_EXECUTION_INTERVALS,
    BridgeRules.MAX_SLIPPAGE.
  destruct (5 <=? _) eqn:H1; cbn [Bridge.require mbind option_bind];
    [|discriminate].
  destruct (_ <=? 1440) eqn:H2; cbn [Bridge.require mbind option_bind];
    [|discriminate].
  destruct (1 <? _) eqn:H3; cbn [Bridge.require mbind option_bind];
    [|discriminate].
  destruct (_ <=? 20) eqn:H4; cbn [Bridge.require mbind option_bind];
    [|discriminate].
  intros _.
  apply Z.leb_le in H1, H2, H4. apply Z.ltb_lt in H3.
  unfold Bridge._getIntervalDuration, Bridge.mul256, Bridge.div256,
    Bridge.MAX_UINT256.
  destruct (_ <=? 2 ^ 256 - 1) eqn:Hov; cbn [mbind option_bind].
  2:{ apply Z.leb_gt in Hov.
      assert (1440 * 60 < 2 ^ 256 - 1) by (vm_compute; reflexivity). lia. }
  destruct (Bridge.executionIntervals config =? 0) eqn:Hk;
    [apply Z.eqb_eq in Hk; lia|].
  eexists. split; [reflexivity|].
  split; [split|].
  - apply Z.div_le_lower_bound; lia.
  - apply Z.div_le_upper_bound; lia.
  - rewrite Z.mul_comm. apply Z.mul_div_le. lia.
Qed.

(** Twenty minutes in four intervals. *)
Lemma validated_config_interval_witness :
  exists duration,
    Bridge._getIntervalDuration (Bridge.twapConfig Cases.liveOrder)
    = Some duration /\
    15 <= duration <= 43200.
Proof.
  destruct (validated_config_interval (Bridge.twapConfig Cases.liveOrder)
              eq_refl) as (duration & Hdur & Hbounds & _).
  exists duration. split; assumption.
Defined.

(** ** The adapter manager *)

(** X28: [AddAdapter] refuses a chain that is registered and changes
    nothing; for a new chain it registers the adapter, one more than
    before, other chains as before.  [RemoveAdapter] of that chain then
    restores the registrations, leaves the adapter disconnected, and a
    second removal reports "adapter not found". *)
Theorem AddAdapter_RemoveAdapter (m : Adapters.Manager) (chain : string)
    (adapter : nat) :
  Adapters.valid m ->
  is_Some (Adapters.objects m !! adapter) ->
  let added := Adapters.AddAdapter m chain adapter in
  if Adapters.IsChainSupported m chain
  then added = (m, Some (Adapters.ErrAdapterExists chain))
  else
    snd added = None /\
    Adapters.valid (fst added) /\
    Adapters.GetAdapter (fst added) chain = inl adapter /\
    Adapters.GetAdapterCount (fst added) = S (Adapters.GetAdapterCount m) /\
    (forall other, other <> chain ->
       Adapters.GetAdapter (fst added) other = Adapters.GetAdapter m other) /\
    exists removed,
      Adapters.RemoveAdapter (fst added) chain = Some (removed, None) /\
      Adapters.adapters removed = Adapters.adapters m /\
      Adapters.IsChainSupported removed chain = false /\
      (Adapters.connected <$> Adapters.objects removed !! adapter)
      = Some false /\
      Adapters.RemoveAdapter removed chain
      = Some (removed, Some (Adapters.ErrAdapterNotFound chain)).
Proof.
  intros Hvalid [a Ha]. cbv zeta.
  unfold Adapters.IsChainSupported, Adapters.AddAdapter.
  destruct (Adapters.adapters m !! chain) as [r|] eqn:Hlookup.
  { rewrite bool_decide_eq_true_2 by eauto. reflexivity. }
  rewrite bool_decide_eq_false_2 by (intros [? ?]; discriminate).
  cbn [fst snd]. split; [reflexivity|].
  split.
  { intros c r. cbn [Adapters.adapters Adapters.objects].
    destruct (decide (c = chain)) as [->|Hne].
    - rewrite lookup_insert_eq. intros [= <-]. eauto.
    - rewrite lookup_insert_ne by congruence. apply Hvalid. }
  unfold Adapters.GetAdapter, Adapters.GetAdapterCount, Adapters.RemoveAdapter.
  cbn [Adapters.adapters Adapters.objects].
  rewrite lookup_insert_eq. split; [reflexivity|].
  split; [apply map_size_insert_None, Hlookup|].
  split.
  { intros other Hne. rewrite lookup_insert_ne by congruence. reflexivity. }
  rewrite Ha. cbn [mbind option_bind].
  eexists. split; [reflexivity|].
  cbn [Adapters.adapters Adapters.objects].
  rewrite delete_insert_id by exact Hlookup.
  split; [reflexivity|].
  rewrite Hlookup.
  split; [apply bool_decide_eq_false_2; intros [? ?]; discriminate|].
  split; [|reflexivity].
  rewrite list_lookup_insert_eq by (apply lookup_lt_Some in Ha; exact Ha).
  reflexivity.
Qed.

(** The manager of the scenario holds an adapter for each of its
    chains. *)
Lemma manager_valid : Adapters.valid Cases.manager.
Proof.
  intros chain adapter. unfold Cases.manager, Adapters.NewManager.
  cbn [List.fold_left]. unfold Adapters.register.
  cbn [Adapters.createAdapter String.eqb Ascii.eqb Bool.eqb
       Adapters.adapters Adapters.objects length app].
  intros Hlookup.
  destruct (decide (chain = "cosmos")) as [->|Hc].
  { rewrite lookup_insert_eq in Hlookup. injection Hlookup as <-.
    eexists. reflexivity. }
  rewrite lookup_insert_ne in Hlookup by congruence.
  destruct (decide (chain = "ethereum")) as [->|He].
  { rewrite lookup_insert_eq in Hlookup. injection Hlookup as <-.
    eexists. reflexivity. }
  rewrite lookup_insert_ne in Hlookup by congruence.
  rewrite lookup_empty in Hlookup. discriminate.
Qed.

(** The Ethereum adapter registered once more, for Polygon. *)
Lemma AddAdapter_RemoveAdapter_witness :
  let added := Adapters.AddAdapter Cases.manager "polygon" 0%nat in
  snd added = None /\
  Adapters.GetAdapter (fst added) "polygon" = inl 0%nat /\
  Adapters.GetAdapterCount (fst added) = 3%nat.
Proof.
  intros added.
  pose proof (AddAdapter_RemoveAdapter Cases.manager "polygon" 0%nat
                manager_valid ltac:(eexists; reflexivity)) as H.
  cbv zeta in H.
  change (Adapters.IsChainSupported Cases.manager "polygon") with false in H.
  destruct H as (Herr & _ & Hget & Hcount & _).
  split; [exact Herr|]. split; [exact Hget|]. exact Hcount.
Defined.

(** The chains [createAdapter] has an adapter for. *)
Lemma createAdapter_cases (bitcoinEnabled : bool) (chain : string) :
  match Adapters.createAdapter bitcoinEnabled chain with
  | inl a =>
      Adapters.chainID a = chain /\ Adapters.connected a = false /\
      (chain = "ethereum" \/ chain = "cosmos" \/ chain = "stellar" \/
       chain = "bitcoin" /\ bitcoinEnabled = true)
  | inr _ =>
      ~ (chain = "ethereum" \/ chain = "cosmos" \/ chain = "stellar" \/
         chain = "bitcoin" /\ bitcoinEnabled = true)
  end.
Proof.
  unfold Adapters.createAdapter.
  destruct (String.eqb_spec chain "ethereum") as [->|H1];
    [cbn; auto|].
  destruct (String.eqb_spec chain "cosmos") as [->|H2];
    [cbn; auto|].
  destruct (String.eqb_spec chain "stellar") as [->|H3];
    [cbn; auto 6|].
  destruct (String.eqb_spec chain "bitcoin") as [->|H4].
  - destruct bitcoinEnabled; [cbn; auto 8|].
    intros [?|[?|[?|[_ ?]]]]; discriminate.
  - intros [?|[?|[?|[? _]]]]; contradiction.
Qed.

(** What [NewManager] keeps as it goes through the supported chains. *)
Lemma register_all (bitcoinEnabled : bool) (supported : list string) :
  forall m : Adapters.Manager,
    let creatable := fun chain =>
      chain = "ethereum" \/ chain = "cosmos" \/ chain = "stellar" \/
      chain = "bitcoin" /\ bitcoinEnabled = true in
    let good := fun (m : Adapters.Manager) =>
      forall chain adapter,
        Adapters.adapters m !! chain = Some adapter ->
        exists a, Adapters.objects m !! adapter = Some a /\
                  Adapters.chainID a = chain /\
                  Adapters.connected a = false in
    let m' := List.fold_left (Adapters.register bitcoinEnabled) supported m in
    good m ->
    good m' /\
    (forall chain,
       is_Some (Adapters.adapters m' !! chain) <->
       is_Some (Adapters.adapters m !! chain) \/
       In chain supported /\ creatable chain).
Proof.
  induction supported as [|c supported IH]; intros m; cbv zeta;
    cbn [List.fold_left].
  { intros Hgood. split; [exact Hgood|]. intros chain. cbn [In]. tauto. }
  intros Hgood.
  assert (Hstep :
    (forall chain adapter,
       Adapters.adapters (Adapters.register bitcoinEnabled m c) !! chain
       = Some adapter ->
       exists a,
         Adapters.objects (Adapters.register bitcoinEnabled m c) !! adapter
         = Some a /\
         Adapters.chainID a = chain /\ Adapters.connected a = false) /\
    (forall chain,
       is_Some (Adapters.adapters (Adapters.register bitcoinEnabled m c)
                  !! chain) <->
       is_Some (Adapters.adapters m !! chain) \/
       chain = c /\
       (c = "ethereum" \/ c = "cosmos" \/ c = "stellar" \/
        c = "bitcoin" /\ bitcoinEnabled = true))).
  { unfold Adapters.register.
    pose proof (createAdapter_cases bitcoinEnabled c) as Hcase.
    destruct (Adapters.createAdapter bitcoinEnabled c) as [a|err].
    - destruct Hcase as (Hid & Hconn & Hcreatable).
      cbn [Adapters.adapters Adapters.objects]. split.
      + intros chain adapter.
        destruct (decide (chain = c)) as [->|Hne].
        * rewrite lookup_insert_eq. intros [= <-]. exists a.
          rewrite lookup_app_r by lia. rewrite Nat.sub_diag. auto.
        * rewrite lookup_insert_ne by congruence. intros Hlookup.
          destruct (Hgood chain adapter Hlookup) as (a' & Ha' & Hrest).
          exists a'. split; [|exact Hrest].
          apply lookup_app_l_Some, Ha'.
      + intros chain. destruct (decide (chain = c)) as [->|Hne].
        * rewrite lookup_insert_eq. split; [auto|eauto].
        * rewrite lookup_insert_ne by congruence. split; [auto|].
          intros [?|[? _]]; [assumption|contradiction].
    - split; [exact Hgood|]. intros chain. split; [auto|].
      intros [?|[_ ?]]; [assumption|contradiction]. }
  destruct Hstep as [Hgood1 Hdom1].
  destruct (IH (Adapters.register bitcoinEnabled m c) Hgood1)
    as [Hgood' Hdom'].
  split; [exact Hgood'|].
  intros chain. rewrite Hdom', Hdom1. cbn [In].
  split.
  - intros [[?|[-> ?]]|[? ?]]; auto.
  - intros [?|[[<-|?] ?]]; auto.
Qed.

(** The loop of [ConnectAll] and [DisconnectAll] over registered
    adapters that are not nil. *)
Lemma call_all (method : Adapters.MockAdapter -> Adapters.MockAdapter)
    (refs : list nat) :
  (forall a, method (method a) = method a) ->
  forall objs : list Adapters.MockAdapter,
    Forall (fun r => is_Some (objs !! r)) refs ->
    exists objs',
      List.fold_left (Adapters.call method) refs (Some objs) = Some objs' /\
      length objs' = length objs /\
      forall i,
        objs' !! i
        = if bool_decide (i ∈ refs) then method <$> objs !! i else objs !! i.
Proof.
  intros Hidem.
  induction refs as [|r refs IH]; intros objs Hall; cbn [List.fold_left].
  { exists objs. repeat split. }
  apply List.Forall_cons_iff in Hall as [[a Ha] Hall].
  unfold Adapters.call at 2. cbn [mbind option_bind]. rewrite Ha.
  cbn [mbind option_bind].
  destruct (IH (<[r := method a]> objs)) as (objs' & Hfold & Hlen & Hget).
  { eapply List.Forall_impl; [|exact Hall]. cbn. intros r' [a' Ha'].
    apply lookup_lt_is_Some. rewrite length_insert.
    apply lookup_lt_Some in Ha'. exact Ha'. }
  exists objs'. split; [exact Hfold|].
  split; [rewrite Hlen; apply length_insert|].
  intros i. rewrite Hget.
  destruct (decide (i = r)) as [->|Hne].
  - rewrite list_lookup_insert_eq by (apply lookup_lt_Some in Ha; exact Ha).
    rewrite (bool_decide_eq_true_2 (r ∈ r :: refs)) by (apply elem_of_cons; left; reflexivity).
    rewrite Ha. cbn [fmap option_fmap option_map].
    destruct (bool_decide (r ∈ refs)); cbn; rewrite ?Hidem; reflexivity.
  - rewrite list_lookup_insert_ne by congruence.
    destruct (bool_decide_reflect (i ∈ refs)) as [Hin|Hin].
    + rewrite bool_decide_eq_true_2 by (apply elem_of_cons; right; exact Hin).
      reflexivity.
    + rewrite bool_decide_eq_false_2; [reflexivity|].
      intros Hcons. apply elem_of_cons in Hcons as [?|?];
        [congruence|contradiction].
Qed.

(** X29: [NewManager] registers exactly the supported chains among
    ethereum, cosmos, stellar and, when enabled, bitcoin; each passes
    [ValidateChainID], and its adapter carries the chain's own id and is
    not yet connected, so that [Health] fails. *)
Theorem NewManager_adapters (supportedChains : list string)
    (bitcoinEnabled : bool) :
  let m := Adapters.NewManager supportedChains bitcoinEnabled in
  Adapters.valid m /\
  (forall chain,
     Adapters.IsChainSupported m chain = true <->
     In chain supportedChains /\
     (chain = "ethereum" \/ chain = "cosmos" \/ chain = "stellar" \/
      chain = "bitcoin" /\ bitcoinEnabled = true)) /\
  (forall chain, Adapters.IsChainSupported m chain = true ->
                 Adapters.ValidateChainID chain = true) /\
  (forall chain adapter,
     Adapters.GetAdapter m chain = inl adapter ->
     exists a,
       Adapters.objects m !! adapter = Some a /\
       Adapters.chainID a = chain /\
       Adapters.Health a = Some Adapters.ErrNotConnected).
Proof.
  cbv zeta. unfold Adapters.NewManager.
  destruct (register_all bitcoinEnabled supportedChains
              (Adapters.mkManager ∅ [])) as [Hgood Hdom].
  { intros chain adapter. cbn. rewrite lookup_empty. discriminate. }
  assert (Hsupported : forall chain,
            Adapters.IsChainSupported
              (List.fold_left (Adapters.register bitcoinEnabled)
                              supportedChains (Adapters.mkManager ∅ []))
              chain = true <->
            In chain supportedChains /\
            (chain = "ethereum" \/ chain = "cosmos" \/ chain = "stellar" \/
             chain = "bitcoin" /\ bitcoinEnabled = true)).
  { intros chain. unfold Adapters.IsChainSupported.
    rewrite bool_decide_eq_true, Hdom. cbn [Adapters.adapters].
    rewrite lookup_empty. split; [|auto].
    intros [[? ?]|?]; [discriminate|assumption]. }
  split.
  { intros chain adapter Hlookup.
    destruct (Hgood chain adapter Hlookup) as (a & Ha & _). eauto. }
  split; [exact Hsupported|].
  split.
  { intros chain Hin. apply Hsupported in Hin as [_ Hc].
    destruct Hc as [->|[->|[->|[-> _]]]]; reflexivity. }
  intros chain adapter. unfold Adapters.GetAdapter.
  destruct (Adapters.adapters _ !! chain) as [r|] eqn:Hlookup; [|discriminate].
  intros [= <-]. destruct (Hgood chain r Hlookup) as (a & Ha & Hid & Hconn).
  exists a. split; [exact Ha|]. split; [exact Hid|].
  unfold Adapters.Health. rewrite Hconn. reflexivity.
Qed.

(** X30: [ConnectAll] succeeds, keeps the registrations, and makes
    [HealthCheckAll] report every registered chain healthy and no other
    chain; after [DisconnectAll] every registered chain is reported as
    not connected. *)
Theorem ConnectAll_HealthCheckAll (m : Adapters.Manager) :
  Adapters.valid m ->
  exists connected health,
    Adapters.ConnectAll m = Some (connected, None) /\
    Adapters.adapters connected = Adapters.adapters m /\
    Adapters.valid connected /\
    Adapters.HealthCheckAll connected = Some health /\
    (forall chain,
       health !! chain
       = if Adapters.IsChainSupported m chain then Some None else None) /\
    exists disconnected unhealthy,
      Adapters.DisconnectAll connected = Some (disconnected, None) /\
      Adapters.HealthCheckAll disconnected = Some unhealthy /\
      forall chain,
        unhealthy !! chain
        = if Adapters.IsChainSupported m chain
          then Some (Some Adapters.ErrNotConnected) else None.
Proof.
  intros Hvalid.
  assert (Hrefs : forall (m : Adapters.Manager), Adapters.valid m ->
            Forall (fun r => is_Some (Adapters.objects m !! r))
                   (List.map snd (map_to_list (Adapters.adapters m)))).
  { intros m0 Hv. apply List.Forall_forall. intros r Hin.
    apply in_map_iff in Hin as ([c r'] & <- & Hin).
    apply (Hv c). apply elem_of_map_to_list, list_elem_of_In, Hin. }
  assert (Hmember : forall (m : Adapters.Manager) c r,
            Adapters.adapters m !! c = Some r ->
            r ∈ List.map snd (map_to_list (Adapters.adapters m))).
  { intros m0 c r Hlookup. apply list_elem_of_In, in_map_iff. exists (c, r).
    split; [reflexivity|].
    apply list_elem_of_In, elem_of_map_to_list, Hlookup. }
  assert (Hall : forall method flag (m : Adapters.Manager),
            (forall a, method (method a) = method a) ->
            (forall a, Adapters.Health (method a) = flag) ->
            Adapters.valid m ->
            exists m' health,
              Adapters.forAll method m = Some (m', None) /\
              Adapters.adapters m' = Adapters.adapters m /\
              Adapters.valid m' /\
              Adapters.HealthCheckAll m' = Some health /\
              forall chain,
                health !! chain
                = if Adapters.IsChainSupported m chain
                  then Some flag else None).
  { intros method flag m0 Hidem Hflag Hv.
    destruct (call_all method _ Hidem _ (Hrefs m0 Hv))
      as (objs' & Hfold & Hlen & Hget).
    unfold Adapters.forAll. rewrite Hfold. cbn [mbind option_bind].
    assert (Hv' : Adapters.valid (Adapters.mkManager (Adapters.adapters m0)
                                                     objs')).
    { intros c r Hlookup. cbn [Adapters.adapters Adapters.objects] in *.
      apply lookup_lt_is_Some. rewrite Hlen. apply lookup_lt_is_Some.
      apply (Hv c), Hlookup. }
    eexists _, _. split; [reflexivity|]. split; [reflexivity|].
    split; [exact Hv'|].
    unfold Adapters.HealthCheckAll.
    rewrite bool_decide_eq_true_2
      by (intros c r Hlookup; apply (Hv' c r), Hlookup).
    split; [reflexivity|].
    intros chain. rewrite lookup_fmap. unfold Adapters.IsChainSupported.
    cbn [Adapters.adapters Adapters.objects].
    destruct (Adapters.adapters m0 !! chain) as [r|] eqn:Hlookup.
    - rewrite bool_decide_eq_true_2 by eauto.
      cbn [fmap option_fmap option_map]. rewrite Hget.
      rewrite bool_decide_eq_true_2 by (eapply Hmember, Hlookup).
      destruct (Hv chain r Hlookup) as [a ->].
      cbn [fmap option_fmap option_map]. rewrite Hflag. reflexivity.
    - rewrite bool_decide_eq_false_2 by (intros [? ?]; discriminate).
      reflexivity. }
  destruct (Hall Adapters.Connect None m) as (m1 & health & H1 & H2 & H3 & H4 & H5);
    [reflexivity|reflexivity|exact Hvalid|].
  destruct (Hall Adapters.Disconnect (Some Adapters.ErrNotConnected) m1)
    as (m2 & unhealthy & G1 & G2 & G3 & G4 & G5);
    [reflexivity|reflexivity|exact H3|].
  exists m1, health. repeat (split; [assumption|]).
  exists m2, unhealthy. repeat (split; [assumption|]).
  intros chain. rewrite G5. unfold Adapters.IsChainSupported. rewrite H2.
  reflexivity.
Qed.

(** Ethereum is healthy after [ConnectAll]; Stellar is not reported. *)
Lemma ConnectAll_HealthCheckAll_witness :
  exists connected health,
    Adapters.ConnectAll Cases.manager = Some (connected, None) /\
    Adapters.HealthCheckAll connected = Some health /\
    health !! "ethereum" = Some None /\
    health !! "stellar" = None.
Proof.
  destruct (ConnectAll_HealthCheckAll Cases.manager manager_valid)
    as (connected & health & Hconnect & _ & _ & Hhealth & Hall & _).
  exists connected, health. split; [exact Hconnect|].
  split; [exact Hhealth|].
  split; [exact (Hall "ethereum")|exact (Hall "stellar")].
Defined.
